(** * glthreadsint: the interactive GLX thread-safety test of VirtualGL

    A shallow embedding of [glxdemos/glthreadsint.c].  The program has one
    main thread (command line, window setup, X event dispatch, shutdown) and
    one render thread per window.  The sequential parts are functions that
    return the list of operations they perform; the concurrent part is a
    transition system that interleaves the operations of the main thread
    with the steps of the render threads. *)

From stdpp Require Import base list strings.
From Stdlib Require Import ZArith Lia Ascii SpecFloat.

Local Open Scope Z_scope.

(** ** C scalars *)

(** [int]: 32 bits, two's complement. *)
Definition wrap_int (z : Z) : Z := (z + 2 ^ 31) mod 2 ^ 32 - 2 ^ 31.

(** [float] is IEEE binary32, [double] is binary64; arithmetic rounds to
    nearest even, as [SpecFloat] does. *)
Definition fadd32 := SFadd 24 128.
Definition fmul32 := SFmul 24 128.
Definition fdiv32 := SFdiv 24 128.
Definition fadd64 := SFadd 53 1024.
Definition fsub64 := SFsub 53 1024.
Definition fmul64 := SFmul 53 1024.
Definition fdiv64 := SFdiv 53 1024.

(** Conversions between the two formats and from [int]. *)
Definition to_float (x : spec_float) : spec_float :=
  match x with
  | S754_finite s m e => binary_round 24 128 s m e
  | _ => x
  end.

Definition to_double (x : spec_float) : spec_float :=
  match x with
  | S754_finite s m e => binary_round 53 1024 s m e
  | _ => x
  end.

Definition float_of_int (z : Z) : spec_float := binary_normalize 24 128 z 0 false.
Definition double_of_int (z : Z) : spec_float := binary_normalize 53 1024 z 0 false.

(** A double constant [m * 2^e]. *)
Definition dconst (m e : Z) : spec_float := binary_normalize 53 1024 m e false.

(** ** The C library's [atoi]

    ISO C leaves [atoi] undefined outside the range of [int]; glibc returns
    [(int) strtol(s, NULL, 10)], which is what is written here. *)

Definition isspace (c : ascii) : bool :=
  let n := Z.of_nat (nat_of_ascii c) in
  (n =? 32) || ((9 <=? n) && (n <=? 13)).

Definition digit_val (c : ascii) : option Z :=
  let n := Z.of_nat (nat_of_ascii c) in
  if (48 <=? n) && (n <=? 57) then Some (n - 48) else None.

Fixpoint skip_space (s : string) : string :=
  match s with
  | String c s' => if isspace c then skip_space s' else s
  | EmptyString => s
  end.

Fixpoint digits (s : string) (acc : Z) : Z :=
  match s with
  | String c s' =>
      match digit_val c with
      | Some d => digits s' (10 * acc + d)
      | None => acc
      end
  | EmptyString => acc
  end.

Definition LONG_MAX : Z := 2 ^ 63 - 1.
Definition LONG_MIN : Z := - 2 ^ 63.

Definition strtol10 (s : string) : Z :=
  let v :=
    match skip_space s with
    | String "-"%char s' => - digits s' 0
    | String "+"%char s' => digits s' 0
    | s' => digits s' 0
    end in
  Z.max LONG_MIN (Z.min LONG_MAX v).

Definition atoi (s : string) : Z := wrap_int (strtol10 s).

(** ** Globals and the command line *)

Definition MAX_WINTHREADS : Z := 100.

(** The process-wide switches [MultiDisplays], [Locking], [Texture] and
    [Animate].  [Animate] is initialised to [GL_TRUE]; the only assignment
    to it is compiled out ([#if 0]). *)
Record globals := {
  MultiDisplays : bool;
  Locking : bool;
  Texture : bool;
  Animate : bool
}.

Definition initial_globals : globals :=
  {| MultiDisplays := false; Locking := false; Texture := false; Animate := true |}.

(** What the argument loop of [main] has set so far: the globals and the
    locals [displayName] and [numThreads]. *)
Record cmdline := {
  cl_globals : globals;
  displayName : option string;
  numThreads : Z
}.

Definition initial_cmdline : cmdline :=
  {| cl_globals := initial_globals; displayName := None; numThreads := 2 |}.

Definition set_MultiDisplays (c : cmdline) : cmdline :=
  let g := cl_globals c in
  {| cl_globals := {| MultiDisplays := true; Locking := Locking g;
                      Texture := Texture g; Animate := Animate g |};
     displayName := displayName c; numThreads := numThreads c |}.

Definition set_Locking (c : cmdline) : cmdline :=
  let g := cl_globals c in
  {| cl_globals := {| MultiDisplays := MultiDisplays g; Locking := true;
                      Texture := Texture g; Animate := Animate g |};
     displayName := displayName c; numThreads := numThreads c |}.

Definition set_Texture (c : cmdline) : cmdline :=
  let g := cl_globals c in
  {| cl_globals := {| MultiDisplays := MultiDisplays g; Locking := Locking g;
                      Texture := true; Animate := Animate g |};
     displayName := displayName c; numThreads := numThreads c |}.

Definition set_displayName (v : string) (c : cmdline) : cmdline :=
  {| cl_globals := cl_globals c; displayName := Some v; numThreads := numThreads c |}.

Definition set_numThreads (n : Z) (c : cmdline) : cmdline :=
  {| cl_globals := cl_globals c; displayName := displayName c; numThreads := n |}.

(** The body of the [-n] branch after [atoi]. *)
Definition clamp_threads (n : Z) : Z :=
  if n <? 1 then 1
  else if n >? MAX_WINTHREADS then MAX_WINTHREADS
  else n.

(** The loop [for (i = 1; i < argc; i++)] over the arguments that follow
    [argv[0]].  [None] is the last branch: [usage(); exit(1)]. *)
Fixpoint parse_args (args : list string) (c : cmdline) : option cmdline :=
  match args with
  | [] => Some c
  | a :: rest =>
      if String.eqb a "-display" && negb (bool_decide (rest = [])) then
        match rest with
        | v :: rest' => parse_args rest' (set_displayName v c)
        | [] => None
        end
      else if String.eqb a "-p" then parse_args rest (set_MultiDisplays c)
      else if String.eqb a "-l" then parse_args rest (set_Locking c)
      else if String.eqb a "-t" then parse_args rest (set_Texture c)
      else if String.eqb a "-n" && negb (bool_decide (rest = [])) then
        match rest with
        | v :: rest' => parse_args rest' (set_numThreads (clamp_threads (atoi v)) c)
        | [] => None
        end
      else None
  end.

(** The flags the loop knows. *)
Definition recognized (a : string) : bool :=
  String.eqb a "-display" || String.eqb a "-p" || String.eqb a "-l"
  || String.eqb a "-t" || String.eqb a "-n".

(** ** Threads, mutexes and X events *)

Inductive thread := MainThread | RenderThread (i : nat).

(** The three kinds of pthread mutex of the program: the global [Mutex]
    (application-side display locking), [CondMutex], and the [Ready] gate
    of [WinThreads[i]]. *)
Inductive mutex := M_Mutex | M_CondMutex | M_Ready (i : nat).

(** Key symbols and button masks, from the X11 headers. *)
Definition XK_Escape : Z := 65307.
Definition XK_t : Z := 116.
Definition XK_T : Z := 84.
Definition XK_a : Z := 97.
Definition XK_s : Z := 115.
Definition XK_S : Z := 83.
Definition Button1Mask : Z := Z.shiftl 1 8.
Definition Button2Mask : Z := Z.shiftl 1 9.
Definition Button3Mask : Z := Z.shiftl 1 10.
Definition Button4Mask : Z := Z.shiftl 1 11.
Definition Button5Mask : Z := Z.shiftl 1 12.

(** The events the dispatch tables look at, with the members they read.  A
    key event carries the key symbol that [XLookupString] computes for it (a
    local translation, not an operation of its own in the traces). *)
Inductive XEvent :=
| ConfigureNotify (window width height : Z)
| MotionNotify (window state x y : Z)
| ButtonPress (window x y : Z)
| ButtonRelease (window : Z)
| Expose (window : Z)
| KeyPress (window keySym : Z)
| OtherEvent.

(** ** Control points of [draw_loop] *)

Inductive pc :=
| NotCreated      (* before pthread_create *)
| AtWhile         (* while (!ExitFlag) *)
| AtLockReady     (* pthread_mutex_lock(&wt->Ready) *)
| AtCheckExit     (* if (ExitFlag) break *)
| AtLock1         (* LOCK(wt->Dpy) *)
| AtMakeCurrent   (* glXMakeCurrent ... wt->Initialized = GL_TRUE *)
| AtUnlock1       (* UNLOCK(wt->Dpy) *)
| AtNewSize       (* glEnable; if (wt->NewSize) ... *)
| AtMakeNewTexture (* if (wt->MakeNewTexture) ... *)
| AtDraw          (* glClear ... glPopMatrix *)
| AtLock2         (* LOCK(wt->Dpy) *)
| AtSwap          (* glXSwapBuffers *)
| AtUnlock2       (* UNLOCK(wt->Dpy) *)
| AtAnimate       (* if (Animate) usleep else pthread_mutex_lock(&CondMutex) *)
| AtCondWait      (* pthread_cond_wait: releases CondMutex and waits *)
| Waiting         (* inside pthread_cond_wait, until a broadcast *)
| Woken           (* inside pthread_cond_wait, taking CondMutex again *)
| AtCondUnlock    (* pthread_mutex_unlock(&CondMutex) *)
| Returned.       (* after the loop: thread_function returns *)

Global Instance pc_eq_dec : EqDecision pc.
Proof. solve_decision. Defined.
Global Instance thread_eq_dec : EqDecision thread.
Proof. solve_decision. Defined.

(** ** [struct winthread] *)

Module wt.
(** [Ready] is [true] while the mutex is locked.  The thread that
    [pthread_create] starts on the record ([Thread]) is kept in the state,
    by its control point. *)
Record winthread := {
  Dpy : Z;
  Index : nat;
  Ready : bool;
  Win : Z;
  Context : Z;
  AngleX : spec_float;
  AngleY : spec_float;
  WinWidth : Z;
  WinHeight : Z;
  NewSize : bool;
  Initialized : bool;
  MakeNewTexture : bool;
  MotionStartX : Z;
  MotionStartY : Z
}.

Definition set_Ready (v : bool) (w : winthread) : winthread :=
  Build_winthread (Dpy w) (Index w) v (Win w) (Context w) (AngleX w)
    (AngleY w) (WinWidth w) (WinHeight w) (NewSize w) (Initialized w)
    (MakeNewTexture w) (MotionStartX w) (MotionStartY w).
Definition set_Angles (ax ay : spec_float) (w : winthread) : winthread :=
  Build_winthread (Dpy w) (Index w) (Ready w) (Win w) (Context w) ax
    ay (WinWidth w) (WinHeight w) (NewSize w) (Initialized w)
    (MakeNewTexture w) (MotionStartX w) (MotionStartY w).
Definition set_WinWidth (v : Z) (w : winthread) : winthread :=
  Build_winthread (Dpy w) (Index w) (Ready w) (Win w) (Context w) (AngleX w)
    (AngleY w) v (WinHeight w) (NewSize w) (Initialized w)
    (MakeNewTexture w) (MotionStartX w) (MotionStartY w).
Definition set_WinHeight (v : Z) (w : winthread) : winthread :=
  Build_winthread (Dpy w) (Index w) (Ready w) (Win w) (Context w) (AngleX w)
    (AngleY w) (WinWidth w) v (NewSize w) (Initialized w)
    (MakeNewTexture w) (MotionStartX w) (MotionStartY w).
Definition set_NewSize (v : bool) (w : winthread) : winthread :=
  Build_winthread (Dpy w) (Index w) (Ready w) (Win w) (Context w) (AngleX w)
    (AngleY w) (WinWidth w) (WinHeight w) v (Initialized w)
    (MakeNewTexture w) (MotionStartX w) (MotionStartY w).
Definition set_Initialized (v : bool) (w : winthread) : winthread :=
  Build_winthread (Dpy w) (Index w) (Ready w) (Win w) (Context w) (AngleX w)
    (AngleY w) (WinWidth w) (WinHeight w) (NewSize w) v
    (MakeNewTexture w) (MotionStartX w) (MotionStartY w).
Definition set_MakeNewTexture (v : bool) (w : winthread) : winthread :=
  Build_winthread (Dpy w) (Index w) (Ready w) (Win w) (Context w) (AngleX w)
    (AngleY w) (WinWidth w) (WinHeight w) (NewSize w) (Initialized w)
    v (MotionStartX w) (MotionStartY w).
Definition set_MotionStart (x y : Z) (w : winthread) : winthread :=
  Build_winthread (Dpy w) (Index w) (Ready w) (Win w) (Context w) (AngleX w)
    (AngleY w) (WinWidth w) (WinHeight w) (NewSize w) (Initialized w)
    (MakeNewTexture w) x y.
End wt.

(** ** Texture images *)

Definition TEX_SIZE : Z := 128.
Definition TexObj : Z := 12.

(** The pixel values go through the C library's [cos], which the image
    takes as an argument: an image is its array of floats, given [cos]. *)
Definition image : Type := (spec_float -> spec_float) -> list (list (list spec_float)).

(** ** Operations

    What a thread does, in program order: assignments to the shared
    variables, pthread and Xlib synchronisation, and the other library
    calls.  [draw_object] stands for the fixed call sequence of the function
    of that name (the cube); [gl_call] for a GL call that only changes the
    state of the calling context. *)
Inductive op :=
| set_ExitFlag
| set_NewSize (i : nat) (b : bool)
| set_WinWidth (i : nat) (w : Z)
| set_WinHeight (i : nat) (h : Z)
| set_MakeNewTexture (i : nat) (b : bool)
| set_Initialized (i : nat) (b : bool)
| add_Angles (i : nat) (dx dy : spec_float)
| set_MotionStart (i : nat) (x y : Z)
| set_step (v : spec_float)
| pthread_mutex_lock (m : mutex)
| pthread_mutex_unlock (m : mutex)
| pthread_cond_broadcast
| pthread_cond_wait
| pthread_create (i : nat)
| pthread_join (i : nat)
| XLockDisplay (dpy : Z)
| XUnlockDisplay (dpy : Z)
| XPending (dpy : Z)
| XNextEvent (dpy : Z)
| XCloseDisplay (dpy : Z)
| XDestroyWindow (dpy win : Z)
| glXDestroyContext (dpy ctx : Z)
| glXMakeCurrent (dpy win ctx : Z)
| glXSwapBuffers (dpy win : Z)
| glGetString_GL_RENDERER
| glBindTexture (tex : Z)
| glGetTexLevelParameteriv_WIDTH
| glTexSubImage2D (xoffset yoffset width height : Z) (pixels : image)
| glTexParameteri_MIN_FILTER_LINEAR
| glTexParameteri_MAG_FILTER_LINEAR
| glTexImage2D (width height : Z) (pixels : image)
| glViewport (x y width height : Z)
| glFrustum_aspect (w : spec_float)
| glClear
| glRotatef (angle : spec_float) (x y z : Z)
| gl_call (name : string)
| draw_object (textured : bool)
| XInitThreads
| XOpenDisplay (name : option string)
| glXChooseVisual (dpy : Z)
| XCreateWindow (dpy x y width height : Z)
| glXCreateContext (dpy shareCtx : Z)
| x_call (name : string) (dpy : Z)
| pthread_mutex_init (m : mutex)
| pthread_cond_init
| usage
| printf (msg : string)
| fprintf_stderr (msg : string)
| usleep (usec : Z)
| exit (code : Z)
| assert_fail.

(** The GL and GLX calls of the render path, and the present among them. *)
Definition is_drawing (o : op) : bool :=
  match o with
  | glXMakeCurrent _ _ _ | glXSwapBuffers _ _ | glGetString_GL_RENDERER
  | glBindTexture _ | glGetTexLevelParameteriv_WIDTH | glTexSubImage2D _ _ _ _ _
  | glTexParameteri_MIN_FILTER_LINEAR | glTexParameteri_MAG_FILTER_LINEAR
  | glTexImage2D _ _ _ | glViewport _ _ _ _ | glFrustum_aspect _ | glClear
  | glRotatef _ _ _ _ | gl_call _ | draw_object _ => true
  | _ => false
  end.

Definition is_present (o : op) : bool :=
  match o with glXSwapBuffers _ _ => true | _ => false end.

(** ** Shared state *)

(** [WinThreads] holds the entries [0 .. NumWinThreads - 1] of the static
    array, the only ones the program touches, and [Threads] the control
    points of their threads.  [step] is the static local of
    [MakeNewTexture].  The last five fields are the state of the libraries
    that the program's control depends on: the owners of the global mutexes
    and of the Xlib display lock, the width of level 0 of texture [TexObj] in
    the share group, and whether a failed [assert] has ended the process. *)
Record state := {
  Globals : globals;
  WinThreads : list wt.winthread;
  Threads : list pc;
  ExitFlag : bool;
  step : spec_float;
  Mutex : option thread;
  CondMutex : option thread;
  DisplayLock : option thread;
  TexWidth : Z;
  Aborted : bool
}.

Definition NumWinThreads (s : state) : nat := length (WinThreads s).

Definition with_WinThreads (f : list wt.winthread -> list wt.winthread) (s : state) : state :=
  Build_state (Globals s) (f (WinThreads s)) (Threads s) (ExitFlag s) (step s) (Mutex s)
    (CondMutex s) (DisplayLock s) (TexWidth s) (Aborted s).
Definition with_Threads (f : list pc -> list pc) (s : state) : state :=
  Build_state (Globals s) (WinThreads s) (f (Threads s)) (ExitFlag s) (step s) (Mutex s)
    (CondMutex s) (DisplayLock s) (TexWidth s) (Aborted s).
Definition with_ExitFlag (v : bool) (s : state) : state :=
  Build_state (Globals s) (WinThreads s) (Threads s) v (step s) (Mutex s)
    (CondMutex s) (DisplayLock s) (TexWidth s) (Aborted s).
Definition with_step (v : spec_float) (s : state) : state :=
  Build_state (Globals s) (WinThreads s) (Threads s) (ExitFlag s) v (Mutex s)
    (CondMutex s) (DisplayLock s) (TexWidth s) (Aborted s).
Definition with_Mutex (v : option thread) (s : state) : state :=
  Build_state (Globals s) (WinThreads s) (Threads s) (ExitFlag s) (step s) v
    (CondMutex s) (DisplayLock s) (TexWidth s) (Aborted s).
Definition with_CondMutex (v : option thread) (s : state) : state :=
  Build_state (Globals s) (WinThreads s) (Threads s) (ExitFlag s) (step s) (Mutex s)
    v (DisplayLock s) (TexWidth s) (Aborted s).
Definition with_DisplayLock (v : option thread) (s : state) : state :=
  Build_state (Globals s) (WinThreads s) (Threads s) (ExitFlag s) (step s) (Mutex s)
    (CondMutex s) v (TexWidth s) (Aborted s).
Definition with_TexWidth (v : Z) (s : state) : state :=
  Build_state (Globals s) (WinThreads s) (Threads s) (ExitFlag s) (step s) (Mutex s)
    (CondMutex s) (DisplayLock s) v (Aborted s).
Definition with_Aborted (v : bool) (s : state) : state :=
  Build_state (Globals s) (WinThreads s) (Threads s) (ExitFlag s) (step s) (Mutex s)
    (CondMutex s) (DisplayLock s) (TexWidth s) v.

(** [wt->f = v] on [WinThreads[i]]. *)
Definition on_wt (i : nat) (f : wt.winthread -> wt.winthread) (s : state) : state :=
  with_WinThreads (alter f i) s.

(** A broadcast moves every thread that waits on [CondVar] out of the wait. *)
Definition wake (p : pc) : pc :=
  match p with Waiting => Woken | _ => p end.

(** [wt->AngleX += dx; wt->AngleY += dy], the sums taken in double. *)
Definition rotate (dx dy : spec_float) (w : wt.winthread) : wt.winthread :=
  wt.set_Angles (to_float (fadd64 (to_double (wt.AngleX w)) dx))
                (to_float (fadd64 (to_double (wt.AngleY w)) dy)) w.

Definition acquire (owner : option thread) (t : thread) (k : option thread -> state) : option state :=
  match owner with
  | None => Some (k (Some t))
  | Some _ => None
  end.

(** The effect of one operation of thread [t]; [None] when the operation
    blocks in the state [s] (and for a [pthread_create] on a record that
    already has its thread, which the program never issues). *)
Definition exec_op (t : thread) (o : op) (s : state) : option state :=
  match o with
  | set_ExitFlag => Some (with_ExitFlag true s)
  | set_NewSize i b => Some (on_wt i (wt.set_NewSize b) s)
  | set_WinWidth i w => Some (on_wt i (wt.set_WinWidth w) s)
  | set_WinHeight i h => Some (on_wt i (wt.set_WinHeight h) s)
  | set_MakeNewTexture i b => Some (on_wt i (wt.set_MakeNewTexture b) s)
  | set_Initialized i b => Some (on_wt i (wt.set_Initialized b) s)
  | add_Angles i dx dy => Some (on_wt i (rotate dx dy) s)
  | set_MotionStart i x y => Some (on_wt i (wt.set_MotionStart x y) s)
  | set_step v => Some (with_step v s)
  | pthread_mutex_lock M_Mutex => acquire (Mutex s) t (fun v => with_Mutex v s)
  | pthread_mutex_lock M_CondMutex => acquire (CondMutex s) t (fun v => with_CondMutex v s)
  | pthread_mutex_lock (M_Ready i) =>
      match WinThreads s !! i with
      | Some w => if wt.Ready w then None else Some (on_wt i (wt.set_Ready true) s)
      | None => None
      end
  | pthread_mutex_unlock M_Mutex => Some (with_Mutex None s)
  | pthread_mutex_unlock M_CondMutex => Some (with_CondMutex None s)
  | pthread_mutex_unlock (M_Ready i) => Some (on_wt i (wt.set_Ready false) s)
  | pthread_cond_broadcast => Some (with_Threads (fmap wake) s)
  | pthread_cond_wait => Some (with_CondMutex None s)
  | pthread_create i =>
      match Threads s !! i with
      | Some NotCreated => Some (with_Threads (<[i := AtWhile]>) s)
      | _ => None
      end
  | pthread_join i =>
      match Threads s !! i with
      | Some Returned => Some s
      | _ => None
      end
  | XLockDisplay _ => acquire (DisplayLock s) t (fun v => with_DisplayLock v s)
  | XUnlockDisplay _ => Some (with_DisplayLock None s)
  | glTexImage2D w _ _ => Some (with_TexWidth w s)
  | assert_fail => Some (with_Aborted true s)
  | _ => Some s
  end.

(** A thread running a list of operations on its own. *)
Fixpoint run_ops (t : thread) (ops : list op) (s : state) : option state :=
  match ops with
  | [] => Some s
  | o :: ops' =>
      match exec_op t o s with
      | Some s' => run_ops t ops' s'
      | None => None
      end
  end.

(** ** The lock discipline and the redraw signal *)

Definition LOCK (g : globals) (dpy : Z) : list op :=
  if Locking g then [pthread_mutex_lock M_Mutex]
  else if negb (MultiDisplays g) then [XLockDisplay dpy]
  else [].

Definition UNLOCK (g : globals) (dpy : Z) : list op :=
  if Locking g then [pthread_mutex_unlock M_Mutex]
  else if negb (MultiDisplays g) then [XUnlockDisplay dpy]
  else [].

Definition signal_redraw : list op :=
  [pthread_mutex_lock M_CondMutex; pthread_cond_broadcast;
   pthread_mutex_unlock M_CondMutex].

(** ** [MakeNewTexture] *)

Definition texture_coord (k : Z) : spec_float :=
  to_float (fdiv64 (fmul64 (dconst 5 0)
                      (fsub64 (double_of_int k)
                         (fmul64 (dconst 1 (-1)) (double_of_int TEX_SIZE))))
              (double_of_int TEX_SIZE)).

(** [image[j][i]]: three equal colour components and alpha 1. *)
Definition texel (st : spec_float) (j i : Z) (cos : spec_float -> spec_float) : list spec_float :=
  let dt := texture_coord j in
  let ds := texture_coord i in
  let r := fadd32 (fadd32 (fmul32 dt dt) (fmul32 ds ds)) st in
  let v := to_float (fadd64 (dconst 3 (-2)) (fmul64 (dconst 1 (-2)) (cos (to_double r)))) in
  [v; v; v; to_float (dconst 1 0)].

Definition tex_range : list Z := Z.of_nat <$> seq 0 (Z.to_nat TEX_SIZE).

Definition make_image (st : spec_float) : image :=
  fun cos => (fun j => (fun i => texel st j i cos) <$> tex_range) <$> tex_range.

(** [step += 0.5], the sum taken in double and stored as a float. *)
Definition next_step (st : spec_float) : spec_float :=
  to_float (fadd64 (to_double st) (dconst 1 (-1))).

Definition MakeNewTexture (s : state) : list op :=
  let image := make_image (step s) in
  [set_step (next_step (step s)); glBindTexture TexObj; glGetTexLevelParameteriv_WIDTH]
  ++ (if negb (TexWidth s =? 0) then
        if TexWidth s =? TEX_SIZE
        then [glTexSubImage2D 0 0 TEX_SIZE TEX_SIZE image]
        else [assert_fail]
      else
        [glTexParameteri_MIN_FILTER_LINEAR; glTexParameteri_MAG_FILTER_LINEAR;
         glTexImage2D TEX_SIZE TEX_SIZE image]).

(** ** [resize] and [draw_loop] *)

Definition resize (g : globals) (i : nat) (w h : Z) : list op :=
  [set_NewSize i true; set_WinWidth i w; set_WinHeight i h]
  ++ (if negb (Animate g) then signal_redraw else []).

(** One step of the thread of [WinThreads[i]] (whose record is [w]) from
    the control point [p]: the operations up to the next control point, and
    that control point. *)
Definition draw_loop (s : state) (i : nat) (w : wt.winthread) (p : pc) : option (list op * pc) :=
  let g := Globals s in
  match p with
  | AtWhile => Some ([], if ExitFlag s then Returned else AtLockReady)
  | AtLockReady => Some ([pthread_mutex_lock (M_Ready i)], AtCheckExit)
  | AtCheckExit => Some ([], if ExitFlag s then Returned else AtLock1)
  | AtLock1 => Some (LOCK g (wt.Dpy w), AtMakeCurrent)
  | AtMakeCurrent =>
      Some (glXMakeCurrent (wt.Dpy w) (wt.Win w) (wt.Context w)
            :: (if negb (wt.Initialized w) then
                  [glGetString_GL_RENDERER; printf "glthreads: %d: GL_RENDERER = %s"]
                  ++ (if Texture g then MakeNewTexture s else [])
                  ++ [set_Initialized i true]
                else []),
            AtUnlock1)
  | AtUnlock1 => Some (UNLOCK g (wt.Dpy w), AtNewSize)
  | AtNewSize =>
      Some (gl_call "glEnable(GL_DEPTH_TEST)"
            :: (if wt.NewSize w then
                  [glViewport 0 0 (wt.WinWidth w) (wt.WinHeight w);
                   gl_call "glMatrixMode(GL_PROJECTION)"; gl_call "glLoadIdentity()";
                   glFrustum_aspect (fdiv32 (float_of_int (wt.WinWidth w))
                                            (float_of_int (wt.WinHeight w)));
                   gl_call "glMatrixMode(GL_MODELVIEW)"; gl_call "glLoadIdentity()";
                   gl_call "glTranslatef(0, 0, -2.5)"; set_NewSize i false]
                else []),
            AtMakeNewTexture)
  | AtMakeNewTexture =>
      Some (if wt.MakeNewTexture w
            then MakeNewTexture s ++ [set_MakeNewTexture i false] else [],
            AtDraw)
  | AtDraw =>
      Some ([glClear; gl_call "glPushMatrix()"; glRotatef (wt.AngleY w) 1 0 0;
             glRotatef (wt.AngleX w) 0 1 0; gl_call "glScalef(0.7, 0.7, 0.7)";
             draw_object (Texture g); gl_call "glPopMatrix()"],
            AtLock2)
  | AtLock2 => Some (LOCK g (wt.Dpy w), AtSwap)
  | AtSwap => Some ([glXSwapBuffers (wt.Dpy w) (wt.Win w)], AtUnlock2)
  | AtUnlock2 => Some (UNLOCK g (wt.Dpy w), AtAnimate)
  | AtAnimate =>
      if Animate g then Some ([usleep 5000], AtWhile)
      else Some ([pthread_mutex_lock M_CondMutex], AtCondWait)
  | AtCondWait => Some ([pthread_cond_wait], Waiting)
  | Woken => Some ([pthread_mutex_lock M_CondMutex], AtCondUnlock)
  | AtCondUnlock => Some ([pthread_mutex_unlock M_CondMutex], AtWhile)
  | NotCreated | Waiting | Returned => None
  end.

(** ** [keypress] and the two event loops *)

Definition release_all (n : nat) : list op :=
  (fun i => pthread_mutex_unlock (M_Ready i)) <$> seq 0 n.

(** [keypress(event, wt)] for [wt = &WinThreads[i]] and the key symbol of
    the event.  [XK_a] falls through to the step keys. *)
Definition keypress (s : state) (keySym : Z) (i : nat) : list op :=
  let g := Globals s in
  if keySym =? XK_Escape then
    (if negb (Animate g) then signal_redraw else [])
    ++ [set_ExitFlag] ++ release_all (NumWinThreads s)
  else if (keySym =? XK_t) || (keySym =? XK_T) then
    if Texture g then
      set_MakeNewTexture i true :: (if negb (Animate g) then signal_redraw else [])
    else []
  else if (keySym =? XK_a) || (keySym =? XK_s) || (keySym =? XK_S) then
    if negb (Animate g) then signal_redraw else []
  else [].

(** The first [i < NumWinThreads] with [WinThreads[i].Win == window]. *)
Definition find_window (s : state) (window : Z) : option (nat * wt.winthread) :=
  list_find (fun w => wt.Win w = window) (WinThreads s).

Definition any_button (st : Z) : bool :=
  negb (Z.land st Button1Mask =? 0) || negb (Z.land st Button2Mask =? 0)
  || negb (Z.land st Button3Mask =? 0) || negb (Z.land st Button4Mask =? 0)
  || negb (Z.land st Button5Mask =? 0).

(** [(float) (pos - start) / (float) size * 180.] *)
Definition angle_delta (pos start size : Z) : spec_float :=
  fmul64 (to_double (fdiv32 (float_of_int (wrap_int (pos - start))) (float_of_int size)))
         (dconst 180 0).

Definition motion (i : nat) (w : wt.winthread) (st x y : Z) : list op :=
  (if any_button st then
     [add_Angles i (angle_delta x (wt.MotionStartX w) (wt.WinWidth w))
                   (angle_delta y (wt.MotionStartY w) (wt.WinHeight w));
      set_MotionStart i x y]
   else [])
  ++ [pthread_mutex_unlock (M_Ready i)].

(** The body of a [case] of either loop once the record is known. *)
Definition handle (s : state) (i : nat) (w : wt.winthread) (e : XEvent) : list op :=
  match e with
  | ConfigureNotify _ width height =>
      resize (Globals s) i width height ++ [pthread_mutex_unlock (M_Ready i)]
  | MotionNotify _ st x y => motion i w st x y
  | ButtonPress _ x y => [set_MotionStart i x y]
  | ButtonRelease _ | Expose _ => [pthread_mutex_unlock (M_Ready i)]
  | KeyPress _ keySym => keypress s keySym i
  | OtherEvent => []
  end.

Definition event_window (e : XEvent) : option Z :=
  match e with
  | ConfigureNotify W _ _ | MotionNotify W _ _ _ | ButtonPress W _ _
  | ButtonRelease W | Expose W | KeyPress W _ => Some W
  | OtherEvent => None
  end.

(** The [switch] of [event_loop]: every case searches the record by window. *)
Definition dispatch (s : state) (e : XEvent) : list op :=
  match event_window e with
  | Some W =>
      match find_window s W with
      | Some (i, w) => handle s i w e
      | None => []
      end
  | None => []
  end.

(** One turn of the polling loop of [event_loop]; [e] is the pending event,
    if there is one. *)
Definition event_loop (s : state) (dpy : Z) (e : option XEvent) : list op :=
  let g := Globals s in
  LOCK g dpy ++ [XPending dpy]
  ++ match e with
     | Some e => [XNextEvent dpy] ++ UNLOCK g dpy ++ dispatch s e
     | None => UNLOCK g dpy ++ [usleep 5000]
     end.

(** One turn of [event_loop_multi] at slot [w]: the record is
    [WinThreads[w]], whatever the window of the event. *)
Definition event_loop_multi (s : state) (w : nat) (e : option XEvent) : list op :=
  match WinThreads s !! w with
  | Some r =>
      [XPending (wt.Dpy r)]
      ++ match e with
         | Some e => [XNextEvent (wt.Dpy r)] ++ handle s w r e
         | None => []
         end
      ++ [usleep 5000]
  | None => []
  end.

(** ** Shutdown *)

Definition clean_up (s : state) : list op :=
  (pthread_join <$> seq 0 (NumWinThreads s))
  ++ mjoin ((fun w => [glXDestroyContext (wt.Dpy w) (wt.Context w);
                      XDestroyWindow (wt.Dpy w) (wt.Win w)]) <$> WinThreads s).

(** What [main] does after the event loop has returned. *)
Definition main_shutdown (s : state) (dpy : Z) : list op :=
  clean_up s
  ++ (if MultiDisplays (Globals s)
      then (fun w => XCloseDisplay (wt.Dpy w)) <$> WinThreads s
      else [XCloseDisplay dpy]).

(** ** Window setup and [main] *)

(** What the X server, the GLX implementation and the thread library
    answer during setup: the return values of the calls that [main] and
    [create_window] check.  Handles are integers, [0] is the null handle. *)
Record answers := {
  XInitThreads_ret : Z;
  XOpenDisplay_ret : nat -> Z;
  glXChooseVisual_ret : nat -> Z;
  XCreateWindow_ret : nat -> Z;
  glXCreateContext_ret : nat -> Z;
  pthread_mutex_init_ret : nat -> Z;
  pthread_mutex_lock_ret : nat -> Z
}.

(** How [main] ends, or the state in which it starts the threads. *)
Inductive outcome (A : Type) :=
| Exit (code : Z)
| Abort
| Continue (a : A).
Arguments Exit {A} code.
Arguments Abort {A}.
Arguments Continue {A} a.

Definition Error (msg : string) : list op :=
  [fprintf_stderr ("Error: " ++ msg); exit 1].

(** [create_window(&WinThreads[i], shareCtx)] on a record whose [Dpy] is
    [dpy]: the operations, and the record it leaves unless it ends the
    process through [Error]. *)
Definition create_window (a : answers) (i : nat) (dpy shareCtx : Z)
  : list op * option wt.winthread :=
  let width := 700 in
  let height := 700 in
  let xpos := (Z.of_nat i mod 2) * (width + 10) in
  let ypos := (Z.of_nat i / 2) * (width + 20) in
  let ops1 := [glXChooseVisual dpy] in
  if glXChooseVisual_ret a i =? 0 then
    (ops1 ++ Error "Unable to find RGB, Z, double-buffered visual", None)
  else
  let win := XCreateWindow_ret a i in
  let ops2 := ops1 ++ [x_call "XCreateColormap" dpy; XCreateWindow dpy xpos ypos width height] in
  if win =? 0 then (ops2 ++ Error "Couldn't create window", None)
  else
  let ctx := glXCreateContext_ret a i in
  let ops3 := ops2 ++ [x_call "XSetNormalHints" dpy; x_call "XSetStandardProperties" dpy;
                       glXCreateContext dpy shareCtx] in
  if ctx =? 0 then (ops3 ++ Error "Couldn't create GLX context", None)
  else
  let ops4 := ops3 ++ [x_call "XMapWindow" dpy; x_call "XSync" dpy;
                       pthread_mutex_init (M_Ready i)] in
  if pthread_mutex_init_ret a i =? -1 then (ops4 ++ Error "strerror(errno)", None)
  else
  let ops5 := ops4 ++ [pthread_mutex_lock (M_Ready i)] in
  if pthread_mutex_lock_ret a i =? -1 then (ops5 ++ Error "strerror(errno)", None)
  else
    (ops5,
     Some {| wt.Dpy := dpy; wt.Index := i;
             wt.Ready := bool_decide (pthread_mutex_lock_ret a i = 0);
             wt.Win := win; wt.Context := ctx;
             wt.AngleX := S754_zero false; wt.AngleY := S754_zero false;
             wt.WinWidth := width; wt.WinHeight := height;
             wt.NewSize := true; wt.Initialized := false;
             wt.MakeNewTexture := false;
             wt.MotionStartX := 0; wt.MotionStartY := 0 |}).

(** The loop of [main] that creates the windows and contexts, from index
    [i] on, [k] records to go; [ws] holds the records made so far.  In
    per-connection mode the record's connection is the answer to the call of
    [XOpenDisplay] for it, and [assert] ends the process when it is null. *)
Fixpoint create_windows (a : answers) (g : globals) (name : option string) (dpy : Z)
    (k : nat) (i : nat) (ws : list wt.winthread)
  : list op * outcome (list wt.winthread) :=
  match k with
  | O => ([], Continue ws)
  | S k' =>
      let d := if MultiDisplays g then XOpenDisplay_ret a i else dpy in
      let open := if MultiDisplays g then [XOpenDisplay name] else [] in
      if MultiDisplays g && (d =? 0) then (open ++ [assert_fail], Abort)
      else
        let share :=
          if Texture g && bool_decide (0 < i)%nat
          then from_option wt.Context 0 (ws !! 0%nat) else 0 in
        match create_window a i d share with
        | (ops, None) => (open ++ ops, Exit 1)
        | (ops, Some w) =>
            let '(ops', r) := create_windows a g name dpy k' (S i) (ws ++ [w]) in
            (open ++ ops ++ ops', r)
        end
  end.

Definition initial_state (g : globals) (ws : list wt.winthread) : state :=
  {| Globals := g; WinThreads := ws; Threads := (fun _ => NotCreated) <$> ws;
     ExitFlag := false; step := S754_zero false;
     Mutex := None; CondMutex := None; DisplayLock := None; TexWidth := 0;
     Aborted := false |}.

(** The arguments: with [argc == 1], [usage()] and the defaults. *)
Definition main_args (argv : list string) : list op * option cmdline :=
  match argv with
  | [_] => ([usage], Some initial_cmdline)
  | _ =>
      match parse_args (tail argv) initial_cmdline with
      | Some c => ([], Some c)
      | None => ([usage; exit 1], None)
      end
  end.

Definition main_banner (g : globals) : list op :=
  (if Locking g then [printf "glthreads: Using explicit locks around Xlib calls."]
   else if negb (MultiDisplays g)
        then [printf "glthreads: Using XLockDisplay()/XUnlockDisplay()."] else [])
  ++ (if MultiDisplays g then [printf "glthreads: Per-thread display connections."]
      else [printf "glthreads: Single display connection."]).

(** [main] up to the creation of the threads: the operations, and either the
    way the process ends or the shared display and the state it has built. *)
Definition main_setup (a : answers) (argv : list string) : list op * outcome (Z * state) :=
  match main_args argv with
  | (ops0, None) => (ops0, Exit 1)
  | (ops0, Some c) =>
      let g := cl_globals c in
      let ops1 := ops0 ++ main_banner g in
      let ops2 :=
        ops1 ++ (if negb (MultiDisplays g) then
                   (if negb (Locking g) then
                      [XInitThreads;
                       if negb (XInitThreads_ret a =? 0)
                       then printf "XInitThreads() returned %d (success)"
                       else printf "XInitThreads() returned 0 (failure- this program may fail)"]
                    else [])
                   ++ [XOpenDisplay (displayName c)]
                 else []) in
      let dpy := if negb (MultiDisplays g) then XOpenDisplay_ret a 0 else 0 in
      if negb (MultiDisplays g) && (dpy =? 0) then
        (ops2 ++ [fprintf_stderr "Unable to open display %s"], Exit (-1))
      else
        let ops3 := ops2 ++ [pthread_mutex_init M_Mutex; pthread_mutex_init M_CondMutex;
                             pthread_cond_init; printf "glthreads: creating windows"] in
        match create_windows a g (displayName c) dpy (Z.to_nat (numThreads c)) 0 [] with
        | (ops, Continue ws) =>
            (ops3 ++ ops ++ [printf "glthreads: creating threads"],
             Continue (dpy, initial_state g ws))
        | (ops, Exit code) => (ops3 ++ ops, Exit code)
        | (ops, Abort) => (ops3 ++ ops, Abort)
        end
  end.

(** ** The running program

    The threads are interleaved one step at a time over the shared state
    (every read sees the latest write).  A step of the main thread is one
    operation; a step of a render thread is the run of [draw_loop] between
    two control points, whose only blocking operation, if any, comes first.
    A [Ready] mutex is a gate: locked by its render thread, unlocked by the
    main thread, and unlocking an unlocked gate changes nothing.

    The main thread is at one of four places once the windows exist: the
    loop that creates the threads, the event loop (at slot [w] in
    [event_loop_multi]), the shutdown, or past [return].  [main_ops] are the
    operations of its current statement that it has yet to perform.  [log]
    lists the operations performed so far with their threads, the latest
    first. *)
Inductive main_pc :=
| CreatingThreads (i : nat)
| InEventLoop (w : nat)
| ShuttingDown
| MainReturned (code : Z).

Record system := {
  shared : state;
  main_at : main_pc;
  main_ops : list op;
  main_dpy : Z;
  log : list (thread * op)
}.

(** Scheduling choices: the main thread or a render thread takes its next
    step; [X_answers e] is a turn of the event loop, with what [XPending]
    and [XNextEvent] find on the connection it polls. *)
Inductive label :=
| Main_runs
| X_answers (e : option XEvent)
| Thread_runs (i : nat).

Definition logged (t : thread) (ops : list op) (l : list (thread * op)) : list (thread * op) :=
  reverse ((fun o => (t, o)) <$> ops) ++ l.

Definition thread_step (i : nat) (y : system) : option system :=
  match WinThreads (shared y) !! i, Threads (shared y) !! i with
  | Some w, Some p =>
      match draw_loop (shared y) i w p with
      | Some (ops, p') =>
          match run_ops (RenderThread i) ops (shared y) with
          | Some s' =>
              Some {| shared := with_Threads (<[i := p']>) s';
                      main_at := main_at y; main_ops := main_ops y;
                      main_dpy := main_dpy y;
                      log := logged (RenderThread i) ops (log y) |}
          | None => None
          end
      | None => None
      end
  | _, _ => None
  end.

Definition main_goto (p : main_pc) (ops : list op) (y : system) : system :=
  {| shared := shared y; main_at := p; main_ops := ops; main_dpy := main_dpy y;
     log := log y |}.

Definition main_step (y : system) : option system :=
  let s := shared y in
  match main_ops y with
  | o :: ops =>
      match exec_op MainThread o s with
      | Some s' =>
          Some {| shared := s'; main_at := main_at y; main_ops := ops;
                  main_dpy := main_dpy y; log := (MainThread, o) :: log y |}
      | None => None
      end
  | [] =>
      match main_at y with
      | CreatingThreads i =>
          if bool_decide (i < NumWinThreads s)%nat
          then Some (main_goto (CreatingThreads (S i))
                       [pthread_create i; printf "glthreads: Created thread %p"] y)
          else Some (main_goto (InEventLoop 0) [] y)
      | InEventLoop _ =>
          if ExitFlag s
          then Some (main_goto ShuttingDown (main_shutdown s (main_dpy y)) y)
          else None
      | ShuttingDown => Some (main_goto (MainReturned 0) [] y)
      | MainReturned _ => None
      end
  end.

Definition poll_step (e : option XEvent) (y : system) : option system :=
  let s := shared y in
  match main_ops y, main_at y with
  | [], InEventLoop w =>
      if ExitFlag s then None
      else if MultiDisplays (Globals s)
           then Some (main_goto (InEventLoop (S w mod NumWinThreads s)%nat)
                        (event_loop_multi s w e) y)
           else Some (main_goto (InEventLoop w) (event_loop s (main_dpy y) e) y)
  | _, _ => None
  end.

Definition sys_step (l : label) (y : system) : option system :=
  if Aborted (shared y) then None
  else match l with
       | Main_runs => main_step y
       | X_answers e => poll_step e y
       | Thread_runs i => thread_step i y
       end.

Fixpoint run (ls : list label) (y : system) : option system :=
  match ls with
  | [] => Some y
  | l :: ls' =>
      match sys_step l y with
      | Some y' => run ls' y'
      | None => None
      end
  end.

(** The system when [main] starts creating the threads. *)
Definition boot (dpy : Z) (s : state) : system :=
  {| shared := s; main_at := CreatingThreads 0; main_ops := []; main_dpy := dpy;
     log := [] |}.

(** ** Definitions used in the statements *)

(** A well-formed option: a flag with the value it takes, if any. *)
Inductive option_arg :=
| arg_display (v : string)
| arg_p
| arg_l
| arg_t
| arg_n (v : string).

Definition option_words (o : option_arg) : list string :=
  match o with
  | arg_display v => ["-display"; v]
  | arg_p => ["-p"]
  | arg_l => ["-l"]
  | arg_t => ["-t"]
  | arg_n v => ["-n"; v]
  end.

Definition option_effect (o : option_arg) (c : cmdline) : cmdline :=
  match o with
  | arg_display v => set_displayName v c
  | arg_p => set_MultiDisplays c
  | arg_l => set_Locking c
  | arg_t => set_Texture c
  | arg_n v => set_numThreads (clamp_threads (atoi v)) c
  end.

(** Answers of a setup in which every call succeeds. *)
Definition ok_answers : answers :=
  {| XInitThreads_ret := 1; XOpenDisplay_ret := fun k => 1000 + Z.of_nat k;
     glXChooseVisual_ret := fun _ => 1; XCreateWindow_ret := fun i => 50 + Z.of_nat i;
     glXCreateContext_ret := fun i => 80 + Z.of_nat i;
     pthread_mutex_init_ret := fun _ => 0; pthread_mutex_lock_ret := fun _ => 0 |}.

(** The state that [main] has built when every call succeeds. *)
Definition setup_state (argv : list string) : state :=
  match snd (main_setup ok_answers argv) with
  | Continue (_, s) => s
  | _ => initial_state initial_globals []
  end.

(** The same state in step mode. *)
Definition step_mode (s : state) : state :=
  let g := Globals s in
  Build_state {| MultiDisplays := MultiDisplays g; Locking := Locking g;
                 Texture := Texture g; Animate := false |}
    (WinThreads s) (Threads s) (ExitFlag s) (step s) (Mutex s)
    (CondMutex s) (DisplayLock s) (TexWidth s) (Aborted s).

(** Kinds of shutdown operations, and "every [P] comes before every [Q]". *)
Definition is_join (o : op) : bool :=
  match o with pthread_join _ => true | _ => false end.
Definition is_destroy (o : op) : bool :=
  match o with glXDestroyContext _ _ | XDestroyWindow _ _ => true | _ => false end.
Definition is_close (o : op) : bool :=
  match o with XCloseDisplay _ => true | _ => false end.

Definition precedes (P Q : op -> bool) (l : list op) : Prop :=
  forall a b x y, l !! a = Some x -> l !! b = Some y ->
    P x = true -> Q y = true -> (a < b)%nat.

(** The second loop of [clean_up]. *)
Definition destroy_ops (ws : list wt.winthread) : list op :=
  mjoin ((fun w => [glXDestroyContext (wt.Dpy w) (wt.Context w);
                    XDestroyWindow (wt.Dpy w) (wt.Win w)]) <$> ws).

(** The five checks of [create_window] on the answers for record [i]. *)
Definition create_ok (a : answers) (i : nat) : bool :=
  negb (glXChooseVisual_ret a i =? 0) && negb (XCreateWindow_ret a i =? 0)
  && negb (glXCreateContext_ret a i =? 0)
  && negb (pthread_mutex_init_ret a i =? -1) && negb (pthread_mutex_lock_ret a i =? -1).

(** Answers of a setup in which the display cannot be opened. *)
Definition no_display : answers :=
  {| XInitThreads_ret := 1; XOpenDisplay_ret := fun _ => 0;
     glXChooseVisual_ret := fun _ => 1; XCreateWindow_ret := fun i => 50 + Z.of_nat i;
     glXCreateContext_ret := fun i => 80 + Z.of_nat i;
     pthread_mutex_init_ret := fun _ => 0; pthread_mutex_lock_ret := fun _ => 0 |}.

(** Answers of a setup in which no visual is found for the second window. *)
Definition no_visual : answers :=
  {| XInitThreads_ret := 1; XOpenDisplay_ret := fun k => 1000 + Z.of_nat k;
     glXChooseVisual_ret := fun i => if decide (i = 1%nat) then 0 else 1;
     XCreateWindow_ret := fun i => 50 + Z.of_nat i;
     glXCreateContext_ret := fun i => 80 + Z.of_nat i;
     pthread_mutex_init_ret := fun _ => 0; pthread_mutex_lock_ret := fun _ => 0 |}.

(** ** Reading the log *)

(** The control points of an iteration between the gate and the present:
    from [if (ExitFlag) break] to [glXSwapBuffers]. *)
Definition in_body (p : pc) : bool :=
  match p with
  | AtCheckExit | AtLock1 | AtMakeCurrent | AtUnlock1 | AtNewSize
  | AtMakeNewTexture | AtDraw | AtLock2 | AtSwap => true
  | _ => false
  end.

(** Entries of the log about record [i]: a release of its gate (by any
    thread), its thread taking the gate, its thread presenting, its thread
    issuing a drawing call. *)
Definition is_release (i : nat) (e : thread * op) : bool :=
  match e with
  | (_, pthread_mutex_unlock (M_Ready k)) => bool_decide (k = i)
  | _ => false
  end.

Definition is_acquire (i : nat) (e : thread * op) : bool :=
  match e with
  | (RenderThread j, pthread_mutex_lock (M_Ready k)) => bool_decide (j = i) && bool_decide (k = i)
  | _ => false
  end.

Definition is_swap (i : nat) (e : thread * op) : bool :=
  match e with
  | (RenderThread j, o) => bool_decide (j = i) && is_present o
  | _ => false
  end.

Definition is_draw (i : nat) (e : thread * op) : bool :=
  match e with
  | (RenderThread j, o) => bool_decide (j = i) && is_drawing o
  | _ => false
  end.

(** The operations of a render thread other than taking its gate and
    presenting: they change neither [ExitFlag], nor a gate, nor a control
    point, and none of them belongs to the shutdown. *)
Definition plain (o : op) : bool :=
  match o with
  | set_ExitFlag | pthread_mutex_lock (M_Ready _) | pthread_mutex_unlock (M_Ready _)
  | pthread_cond_broadcast | pthread_create _ | glXSwapBuffers _ _
  | pthread_join _ | glXDestroyContext _ _ | XDestroyWindow _ _ | XCloseDisplay _ => false
  | _ => true
  end.

(** The gate discipline of record [i], read off the log from the oldest
    entry on: [gm_open] tells whether the gate has been released since it
    was last taken, [gm_fresh] whether the thread has taken the gate since
    its last present, and [gm_ok] whether so far every taking of the gate
    found it released and every present found the gate freshly taken. *)
Record gate_mon := { gm_ok : bool; gm_open : bool; gm_fresh : bool }.

Definition gate_step (i : nat) (m : gate_mon) (e : thread * op) : gate_mon :=
  if is_release i e then {| gm_ok := gm_ok m; gm_open := true; gm_fresh := gm_fresh m |}
  else if is_acquire i e then
    {| gm_ok := gm_ok m && gm_open m; gm_open := false; gm_fresh := true |}
  else if is_swap i e then
    {| gm_ok := gm_ok m && gm_fresh m; gm_open := gm_open m; gm_fresh := false |}
  else m.

Fixpoint gate_monitor (i : nat) (l : list (thread * op)) : gate_mon :=
  match l with
  | [] => {| gm_ok := true; gm_open := false; gm_fresh := false |}
  | e :: l' => gate_step i (gate_monitor i l') e
  end.

(** C10 as the specification words it: every present of thread [i] finds
    its gate released since its previous present.  [rp_released] tells
    whether the gate has been released since the last present. *)
Record release_mon := { rp_ok : bool; rp_released : bool }.

Definition release_step (i : nat) (m : release_mon) (e : thread * op) : release_mon :=
  if is_release i e then {| rp_ok := rp_ok m; rp_released := true |}
  else if is_swap i e then {| rp_ok := rp_ok m && rp_released m; rp_released := false |}
  else m.

Fixpoint release_monitor (i : nat) (l : list (thread * op)) : release_mon :=
  match l with
  | [] => {| rp_ok := true; rp_released := false |}
  | e :: l' => release_step i (release_monitor i l') e
  end.

(** The gate and the control point of record [i]. *)
Definition gate (i : nat) (s : state) : option bool := wt.Ready <$> WinThreads s !! i.
Definition at_pc (i : nat) (s : state) : option pc := Threads s !! i.

(** The number of presents of thread [i] in a log. *)
Definition presents (i : nat) (l : list (thread * op)) : nat :=
  length (filter (fun e => is_swap i e = true) l).

(** Schedules used below, on the state that [main] builds with no argument
    (two windows, 50 and 51, on the shared connection 1000).  [startup]
    creates the threads and enters the event loop; [deliver e] is a turn of
    [event_loop] that finds the event [e] and runs its handler, [n] being
    the number of operations of the handler. *)
Definition startup (threads : nat) : list label :=
  repeat Main_runs (3 * threads + 1).

Definition deliver (e : XEvent) (n : nat) : list label :=
  X_answers (Some e) :: repeat Main_runs (4 + n).

(** Thread 0 takes a released gate and is inside its first frame when a
    second expose releases the gate again; it presents, comes round, finds
    the gate open and presents a second time. *)
Definition two_frames_schedule : list label :=
  startup 2 ++ deliver (Expose 50) 1 ++ repeat (Thread_runs 0) 3
  ++ deliver (Expose 50) 1 ++ repeat (Thread_runs 0) 21.

(** Shutdown, read off the log (latest entry first): whether [ExitFlag] has
    been set; whether thread [i] has taken its gate after that; and whether
    no drawing call of thread [i] follows such a taking of the gate. *)
Definition is_exit (e : thread * op) : bool :=
  match e with (_, set_ExitFlag) => true | _ => false end.

Fixpoint exit_seen (l : list (thread * op)) : bool :=
  match l with
  | [] => false
  | e :: l' => is_exit e || exit_seen l'
  end.

Fixpoint woke_in_shutdown (i : nat) (l : list (thread * op)) : bool :=
  match l with
  | [] => false
  | e :: l' => (is_acquire i e && exit_seen l') || woke_in_shutdown i l'
  end.

Fixpoint quiet_shutdown (i : nat) (l : list (thread * op)) : bool :=
  match l with
  | [] => true
  | e :: l' => negb (is_draw i e && woke_in_shutdown i l') && quiet_shutdown i l'
  end.

(** Thread 0 draws a frame; the exit key is pressed on window 51; thread 0
    takes its released gate and returns, thread 1 returns from the head of
    its loop; [main] joins them,
    releases the resources and returns. *)
Definition shutdown_schedule : list label :=
  startup 2 ++ deliver (Expose 50) 1 ++ repeat (Thread_runs 0) 14
  ++ deliver (KeyPress 51 XK_Escape) 3
  ++ [Main_runs; Thread_runs 0; Thread_runs 0; Thread_runs 1]
  ++ repeat Main_runs 8.








(** ** The texture scalar *)







(** ** Steps and invariants *)

(** What a step of the system can do, as seen from record [i]. *)
Inductive visible (i : nat) (y y' : system) : Prop :=
| v_main (o : op) :
    exec_op MainThread o (shared y) = Some (shared y') ->
    log y' = (MainThread, o) :: log y ->
    visible i y y'
| v_silent :
    shared y' = shared y -> log y' = log y -> visible i y y'
| v_acquire (j : nat) :
    at_pc j (shared y) = Some AtLockReady ->
    gate j (shared y) = Some false ->
    gate i (shared y') = (if decide (j = i) then Some true else gate i (shared y)) ->
    at_pc i (shared y')
    = (if decide (j = i) then Some AtCheckExit else at_pc i (shared y)) ->
    ExitFlag (shared y') = ExitFlag (shared y) ->
    log y' = (RenderThread j, pthread_mutex_lock (M_Ready j)) :: log y ->
    visible i y y'
| v_swap (j : nat) (d w : Z) :
    at_pc j (shared y) = Some AtSwap ->
    gate i (shared y') = gate i (shared y) ->
    at_pc i (shared y')
    = (if decide (j = i) then Some AtUnlock2 else at_pc i (shared y)) ->
    ExitFlag (shared y') = ExitFlag (shared y) ->
    log y' = (RenderThread j, glXSwapBuffers d w) :: log y ->
    visible i y y'
| v_plain (j : nat) (p p' : pc) (ops : list op) :
    at_pc j (shared y) = Some p ->
    p <> AtLockReady -> p <> AtSwap -> p <> Returned ->
    Forall (fun o => plain o = true) ops ->
    (in_body p' = true -> in_body p = true) ->
    (in_body p = false -> Forall (fun o => is_drawing o = false) ops) ->
    (p = AtCheckExit ->
     ops = [] /\ p' = if ExitFlag (shared y) then Returned else AtLock1) ->
    gate i (shared y') = gate i (shared y) ->
    at_pc i (shared y') = (if decide (j = i) then Some p' else at_pc i (shared y)) ->
    ExitFlag (shared y') = ExitFlag (shared y) ->
    log y' = logged (RenderThread j) ops (log y) ->
    visible i y y'.

(** The invariant behind the gate discipline. *)
Definition gate_inv (i : nat) (y : system) : Prop :=
  let m := gate_monitor i (log y) in
  gm_ok m = true
  /\ (gate i (shared y) = Some false -> gm_open m = true)
  /\ (forall p, at_pc i (shared y) = Some p -> in_body p = true -> gm_fresh m = true).

(** The invariant behind the exit of a thread woken during shutdown. *)
Definition shutdown_inv (i : nat) (y : system) : Prop :=
  (exit_seen (log y) = true -> ExitFlag (shared y) = true)
  /\ (woke_in_shutdown i (log y) = true ->
      ExitFlag (shared y) = true
      /\ (at_pc i (shared y) = Some AtCheckExit \/ at_pc i (shared y) = Some Returned))
  /\ quiet_shutdown i (log y) = true.


(** An operation that gives up a context, a window or a connection. *)
Definition releases_resource (o : op) : bool := is_destroy o || is_close o.

(** The invariant behind the order of the shutdown: once a resource has
    been given up every thread has returned, and before an operation that
    gives one up and that [main] has yet to perform, every thread has
    returned or its join is still to come. *)
Definition joined_inv (y : system) : Prop :=
  (forall t o, (t, o) ∈ log y -> releases_resource o = true ->
     forall i p, at_pc i (shared y) = Some p -> p = Returned)
  /\ (forall pre o post, main_ops y = pre ++ o :: post -> releases_resource o = true ->
      forall i p, at_pc i (shared y) = Some p -> p = Returned \/ pthread_join i ∈ pre)
  /\ length (Threads (shared y)) = length (WinThreads (shared y)).

(** The invariant behind the status of a normal shutdown: [main] leaves the
    event loop only with [ExitFlag] set, and then returns 0. *)
Definition returned_inv (y : system) : Prop :=
  match main_at y with
  | MainReturned code => code = 0 /\ ExitFlag (shared y) = true
  | ShuttingDown => ExitFlag (shared y) = true
  | _ => True
  end.

(** Case analysis on the result of [exec_op]. *)
Ltac exec_cases H :=
  cbn in H;
  repeat match type of H with
         | context [acquire ?o _ _] => destruct o; cbn in H
         | context [match ?x with _ => _ end] => destruct x eqn:?; cbn in H
         end;
  try discriminate; try (injection H as <-).


(** ** Who performs what *)

(** The operations of the main thread once the windows exist: it starts
    and joins the threads, polls the connections, writes the event side of
    the records, releases gates, and gives up the resources.  The global
    mutex and the display lock are taken in [event_loop] only, the redraw
    signal is sent outside animate mode only, and the texture flag is set
    only when texturing is on. *)
Definition main_op (g : globals) (o : op) : bool :=
  match o with
  | set_ExitFlag | set_NewSize _ true | set_WinWidth _ _ | set_WinHeight _ _
  | add_Angles _ _ _ | set_MotionStart _ _ _
  | pthread_mutex_unlock (M_Ready _) | pthread_create _ | pthread_join _
  | XPending _ | XNextEvent _ | XCloseDisplay _ | XDestroyWindow _ _
  | glXDestroyContext _ _ | printf _ | usleep _ => true
  | set_MakeNewTexture _ true => Texture g
  | pthread_mutex_lock M_CondMutex | pthread_mutex_unlock M_CondMutex
  | pthread_cond_broadcast => negb (Animate g)
  | pthread_mutex_lock M_Mutex | pthread_mutex_unlock M_Mutex =>
      Locking g && negb (MultiDisplays g)
  | XLockDisplay _ | XUnlockDisplay _ => negb (Locking g) && negb (MultiDisplays g)
  | _ => false
  end.

(** The operations of the render thread of record [i]: it takes its own
    gate, clears the flags of its own record, draws, and waits for the
    redraw signal. *)
Definition render_op (g : globals) (i : nat) (o : op) : bool :=
  match o with
  | set_NewSize k false | set_MakeNewTexture k false | set_Initialized k true
  | pthread_mutex_lock (M_Ready k) => bool_decide (k = i)
  | set_step _ | glBindTexture _ | glGetTexLevelParameteriv_WIDTH
  | glTexSubImage2D _ _ _ _ _ | glTexParameteri_MIN_FILTER_LINEAR
  | glTexParameteri_MAG_FILTER_LINEAR | glTexImage2D _ _ _ | assert_fail
  | glXMakeCurrent _ _ _ | glXSwapBuffers _ _ | glGetString_GL_RENDERER
  | glViewport _ _ _ _ | glFrustum_aspect _ | glClear | glRotatef _ _ _ _
  | gl_call _ | printf _ | usleep _
  | pthread_mutex_lock M_CondMutex | pthread_mutex_unlock M_CondMutex
  | pthread_cond_wait => true
  | draw_object b => bool_decide (b = Texture g)
  | pthread_mutex_lock M_Mutex | pthread_mutex_unlock M_Mutex => Locking g
  | XLockDisplay _ | XUnlockDisplay _ => negb (Locking g) && negb (MultiDisplays g)
  | _ => false
  end.

Definition by_role (g : globals) (e : thread * op) : bool :=
  match e with
  | (MainThread, o) => main_op g o
  | (RenderThread i, o) => render_op g i o
  end.

(** ** The kinds of steps *)

(** Where the main thread goes when it has performed the operations of its
    current statement. *)
Inductive main_next (y : system) : label -> main_pc -> list op -> Prop :=
| n_create (i : nat) :
    main_at y = CreatingThreads i -> (i < NumWinThreads (shared y))%nat ->
    main_next y Main_runs (CreatingThreads (S i))
      [pthread_create i; printf "glthreads: Created thread %p"]
| n_loop (i : nat) :
    main_at y = CreatingThreads i -> ~ (i < NumWinThreads (shared y))%nat ->
    main_next y Main_runs (InEventLoop 0) []
| n_shutdown (w : nat) :
    main_at y = InEventLoop w -> ExitFlag (shared y) = true ->
    main_next y Main_runs ShuttingDown (main_shutdown (shared y) (main_dpy y))
| n_return :
    main_at y = ShuttingDown -> main_next y Main_runs (MainReturned 0) []
| n_poll (w : nat) (e : option XEvent) :
    main_at y = InEventLoop w -> ExitFlag (shared y) = false ->
    main_next y (X_answers e)
      (if MultiDisplays (Globals (shared y))
       then InEventLoop (S w mod NumWinThreads (shared y))%nat else InEventLoop w)
      (if MultiDisplays (Globals (shared y))
       then event_loop_multi (shared y) w e
       else event_loop (shared y) (main_dpy y) e).

(** A step of the system: an operation of the main thread, the main thread
    moving to its next statement, or a step of a render thread. *)
Inductive step_kind (g : globals) (y y' : system) : label -> Prop :=
| k_op (o : op) (ops : list op) :
    main_ops y = o :: ops -> main_op g o = true ->
    exec_op MainThread o (shared y) = Some (shared y') ->
    main_ops y' = ops -> main_at y' = main_at y -> main_dpy y' = main_dpy y ->
    log y' = (MainThread, o) :: log y ->
    step_kind g y y' Main_runs
| k_next (l : label) (p : main_pc) (ops : list op) :
    main_ops y = [] -> main_next y l p ops -> Forall (fun o => main_op g o = true) ops ->
    shared y' = shared y -> main_ops y' = ops -> main_at y' = p ->
    main_dpy y' = main_dpy y -> log y' = log y ->
    step_kind g y y' l
| k_thread (j : nat) (w : wt.winthread) (p p' : pc) (ops : list op) (s' : state) :
    WinThreads (shared y) !! j = Some w -> Threads (shared y) !! j = Some p ->
    draw_loop (shared y) j w p = Some (ops, p') ->
    Forall (fun o => render_op g j o = true) ops ->
    run_ops (RenderThread j) ops (shared y) = Some s' ->
    shared y' = with_Threads (<[j := p']>) s' ->
    main_ops y' = main_ops y -> main_at y' = main_at y -> main_dpy y' = main_dpy y ->
    log y' = logged (RenderThread j) ops (log y) ->
    step_kind g y y' (Thread_runs j).

(** What every execution keeps: the globals, the roles of the operations
    that the main thread has yet to perform, and of those performed. *)
Definition roles_inv (g : globals) (y : system) : Prop :=
  Globals (shared y) = g
  /\ Forall (fun o => main_op g o = true) (main_ops y)
  /\ Forall (fun e => by_role g e = true) (log y).

(** ** Step mode *)

(** The control points of the wait for the redraw signal, and the
    operations on [CondMutex] and [CondVar]. *)
Definition waits (p : pc) : bool :=
  match p with
  | AtCondWait | Waiting | Woken | AtCondUnlock => true
  | _ => false
  end.

Definition is_cond_op (o : op) : bool :=
  match o with
  | pthread_mutex_lock M_CondMutex | pthread_mutex_unlock M_CondMutex
  | pthread_cond_broadcast | pthread_cond_wait => true
  | _ => false
  end.

Definition animate_inv (y : system) : Prop :=
  Forall (fun p => waits p = false) (Threads (shared y))
  /\ Forall (fun e => is_cond_op (snd e) = false) (log y)
  /\ CondMutex (shared y) = None.

(** ** The exit key among the events *)

Definition is_set_exit (o : op) : bool :=
  match o with set_ExitFlag => true | _ => false end.

(** [ExitFlag] is set, or the main thread is about to set it. *)
Definition exit_pending (y : system) : bool :=
  ExitFlag (shared y) || existsb is_set_exit (main_ops y).

(** The windows of the records. *)
Definition windows (s : state) : list Z := wt.Win <$> WinThreads s.

(** ** The handles of the records *)

(** The members of a record that say which connection, window and context
    it stands for, and where it is in the array. *)
Definition handles_of (w : wt.winthread) : Z * nat * Z * Z :=
  (wt.Dpy w, wt.Index w, wt.Win w, wt.Context w).

Definition identities (s : state) : list (Z * nat * Z * Z) :=
  handles_of <$> WinThreads s.

(** The contexts, windows and connections given up so far, the earliest
    first. *)
Definition released (l : list (thread * op)) : list op :=
  filter (fun o => releases_resource o = true) (reverse (snd <$> l)).

Definition shutdown_started (p : main_pc) : bool :=
  match p with
  | ShuttingDown | MainReturned _ => true
  | _ => false
  end.

(** The connections that [main] closes at the end. *)
Definition close_ops (g : globals) (dpy : Z) (ws : list wt.winthread) : list op :=
  if MultiDisplays g then (fun w => XCloseDisplay (wt.Dpy w)) <$> ws
  else [XCloseDisplay dpy].

Definition release_inv (g : globals) (dpy : Z) (ws : list wt.winthread) (y : system) : Prop :=
  identities (shared y) = handles_of <$> ws
  /\ main_dpy y = dpy
  /\ released (log y) ++ filter (fun o => releases_resource o = true) (main_ops y)
     = (if shutdown_started (main_at y) then destroy_ops ws ++ close_ops g dpy ws else [])
  /\ (forall c, main_at y = MainReturned c -> main_ops y = []).

(** ** The slot of [event_loop_multi] *)

(** The number of turns of the event loop in a schedule. *)
Fixpoint polls (ls : list label) : nat :=
  match ls with
  | [] => 0
  | X_answers _ :: ls' => S (polls ls')
  | _ :: ls' => polls ls'
  end.

(** After [c] turns the main thread is at slot [c mod n] of
    [event_loop_multi]. *)
Definition slot_inv (g : globals) (n c : nat) (y : system) : Prop :=
  Globals (shared y) = g /\ NumWinThreads (shared y) = n
  /\ match main_at y with
     | CreatingThreads _ => c = 0%nat
     | InEventLoop w => w = if MultiDisplays g then (c mod n)%nat else 0%nat
     | _ => True
     end.

(** Three turns of [event_loop_multi] that find no event. *)
Definition three_polls : list label :=
  startup 2 ++ [X_answers None; Main_runs; Main_runs; X_answers None; Main_runs; Main_runs;
                X_answers None].

(** ** The display lock *)

(** The lock that [LOCK] and [UNLOCK] work on: [Mutex] with [-l], else the
    lock of [XLockDisplay]. *)
Definition display_lock (g : globals) (s : state) : option thread :=
  if Locking g then Mutex s else DisplayLock s.

Definition takes_lock (g : globals) (o : op) : bool :=
  match o with
  | pthread_mutex_lock M_Mutex => Locking g
  | XLockDisplay _ => negb (Locking g)
  | _ => false
  end.

Definition gives_lock (g : globals) (o : op) : bool :=
  match o with
  | pthread_mutex_unlock M_Mutex => Locking g
  | XUnlockDisplay _ => negb (Locking g)
  | _ => false
  end.

(** The Xlib and GLX calls that the program puts between [LOCK] and
    [UNLOCK]. *)
Definition on_display (o : op) : bool :=
  match o with
  | glXMakeCurrent _ _ _ | glXSwapBuffers _ _ | XPending _ | XNextEvent _ => true
  | _ => false
  end.

(** The control points of [draw_loop] between [LOCK] and [UNLOCK]. *)
Definition in_cs (p : pc) : bool :=
  match p with
  | AtMakeCurrent | AtUnlock1 | AtSwap | AtUnlock2 => true
  | _ => false
  end.

(** A thread that holds the lock or not ([held]) performs [ops]: whether it
    holds the lock afterwards, or [None] when it takes the lock while
    holding it, gives it back or calls on the display without holding it. *)
Fixpoint holds_after (g : globals) (held : bool) (ops : list op) : option bool :=
  match ops with
  | [] => Some held
  | o :: r =>
      if takes_lock g o then (if held then None else holds_after g true r)
      else if gives_lock g o then (if held then holds_after g false r else None)
      else if on_display o then (if held then holds_after g held r else None)
      else holds_after g held r
  end.

(** Operations that neither work on the lock nor call on the display. *)
Definition lock_neutral (g : globals) (o : op) : bool :=
  negb (takes_lock g o || gives_lock g o || on_display o).

(** The lock discipline read off the log, from the oldest entry on: the
    holder of the lock, and whether so far the lock was free whenever it was
    taken, given back by its holder only, and held by the caller at every
    call on the display. *)
Record lock_mon := { lm_ok : bool; lm_owner : option thread }.

Definition lock_step (g : globals) (m : lock_mon) (e : thread * op) : lock_mon :=
  if takes_lock g (snd e) then
    {| lm_ok := lm_ok m && bool_decide (lm_owner m = None); lm_owner := Some (fst e) |}
  else if gives_lock g (snd e) then
    {| lm_ok := lm_ok m && bool_decide (lm_owner m = Some (fst e)); lm_owner := None |}
  else if on_display (snd e) then
    {| lm_ok := lm_ok m && bool_decide (lm_owner m = Some (fst e)); lm_owner := lm_owner m |}
  else m.

Fixpoint lock_monitor (g : globals) (l : list (thread * op)) : lock_mon :=
  match l with
  | [] => {| lm_ok := true; lm_owner := None |}
  | e :: l' => lock_step g (lock_monitor g l') e
  end.

Definition lock_inv (g : globals) (y : system) : Prop :=
  lm_ok (lock_monitor g (log y)) = true
  /\ lm_owner (lock_monitor g (log y)) = display_lock g (shared y)
  /\ (forall i p, at_pc i (shared y) = Some p ->
        bool_decide (display_lock g (shared y) = Some (RenderThread i)) = in_cs p)
  /\ holds_after g (bool_decide (display_lock g (shared y) = Some MainThread)) (main_ops y)
     = Some false.

(** ** Texturing *)

(** The operations that belong to texturing: the calls and the assignment
    of [MakeNewTexture], the request for a new texture, and the textured
    cube. *)
Definition is_texture_op (o : op) : bool :=
  match o with
  | set_step _ | glBindTexture _ | glGetTexLevelParameteriv_WIDTH
  | glTexSubImage2D _ _ _ _ _ | glTexParameteri_MIN_FILTER_LINEAR
  | glTexParameteri_MAG_FILTER_LINEAR | glTexImage2D _ _ _ | assert_fail
  | draw_object true | set_MakeNewTexture _ true => true
  | _ => false
  end.

Definition untextured_inv (y : system) : Prop :=
  Forall (fun w => wt.MakeNewTexture w = false) (WinThreads (shared y))
  /\ step (shared y) = S754_zero false
  /\ TexWidth (shared y) = 0
  /\ Forall (fun e => is_texture_op (snd e) = false) (log y).

(** Operations that keep the width of the texture at 0 or [TEX_SIZE] and
    do not end the process. *)
Definition tex_safe (o : op) : bool :=
  match o with
  | assert_fail => false
  | glTexImage2D w _ _ => w =? TEX_SIZE
  | _ => true
  end.

Definition texture_inv (y : system) : Prop :=
  (TexWidth (shared y) = 0 \/ TexWidth (shared y) = TEX_SIZE)
  /\ Aborted (shared y) = false
  /\ Forall (fun e => tex_safe (snd e) = true) (log y).

(** A frame of thread 0 with texturing on. *)
Definition textured_frame : list label :=
  startup 2 ++ deliver (Expose 50) 1 ++ repeat (Thread_runs 0) 14.

(** ** The records after setup *)

(** The record that [main] and [create_window] leave at index [i]. *)
Definition fresh_record (a : answers) (g : globals) (dpy : Z) (i : nat) : wt.winthread :=
  {| wt.Dpy := if MultiDisplays g then XOpenDisplay_ret a i else dpy;
     wt.Index := i;
     wt.Ready := bool_decide (pthread_mutex_lock_ret a i = 0);
     wt.Win := XCreateWindow_ret a i; wt.Context := glXCreateContext_ret a i;
     wt.AngleX := S754_zero false; wt.AngleY := S754_zero false;
     wt.WinWidth := 700; wt.WinHeight := 700;
     wt.NewSize := true; wt.Initialized := false; wt.MakeNewTexture := false;
     wt.MotionStartX := 0; wt.MotionStartY := 0 |}.

Definition is_context_call (o : op) : bool :=
  match o with glXCreateContext _ _ => true | _ => false end.

(** The context that the context of record [i] is created to share with,
    [0] for none. *)
Definition share_of (g : globals) (ws : list wt.winthread) (i : nat) : Z :=
  if Texture g && bool_decide (0 < i)%nat then from_option wt.Context 0 (ws !! 0%nat) else 0.

(** ** The handlers as functions on the record *)

(** The record [r] of the window after the handler of the event [e], for
    an event other than the exit key, in animate mode. *)
Definition after_event (g : globals) (e : XEvent) (r : wt.winthread) : wt.winthread :=
  match e with
  | ConfigureNotify _ width height =>
      wt.set_Ready false
        (wt.set_WinHeight height (wt.set_WinWidth width (wt.set_NewSize true r)))
  | MotionNotify _ st x y =>
      wt.set_Ready false
        (if any_button st then
           wt.set_MotionStart x y
             (rotate (angle_delta x (wt.MotionStartX r) (wt.WinWidth r))
                     (angle_delta y (wt.MotionStartY r) (wt.WinHeight r)) r)
         else r)
  | ButtonPress _ x y => wt.set_MotionStart x y r
  | ButtonRelease _ | Expose _ => wt.set_Ready false r
  | KeyPress _ K =>
      if ((K =? XK_t) || (K =? XK_T)) && Texture g then wt.set_MakeNewTexture true r else r
  | OtherEvent => r
  end.

(** Two states that differ in the records at most. *)
Definition same_but_records (s s' : state) : Prop :=
  Globals s' = Globals s /\ Threads s' = Threads s /\ ExitFlag s' = ExitFlag s
  /\ step s' = step s /\ Mutex s' = Mutex s /\ CondMutex s' = CondMutex s
  /\ DisplayLock s' = DisplayLock s /\ TexWidth s' = TexWidth s /\ Aborted s' = Aborted s.

(** ** What the main thread reads *)

(** The members of a record that the event handlers and the shutdown
    read. *)
Definition view_of (w : wt.winthread) : Z * Z * Z * Z * Z * Z * Z :=
  (wt.Dpy w, wt.Win w, wt.Context w, wt.MotionStartX w, wt.MotionStartY w,
   wt.WinWidth w, wt.WinHeight w).

Definition views (s : state) : list (Z * Z * Z * Z * Z * Z * Z) :=
  view_of <$> WinThreads s.

(** ** Reaching the end *)

(** Whether [LOCK] and [UNLOCK] lock anything. *)
Definition locks (g : globals) : bool := Locking g || negb (MultiDisplays g).

(** The threads with an index below [k] have been created, the others
    not; all of them have. *)
Definition created_upto (k : nat) (s : state) : Prop :=
  forall i p, at_pc i s = Some p -> (p = NotCreated <-> (k <= i)%nat).

Definition all_created (s : state) : Prop :=
  forall i p, at_pc i s = Some p -> p <> NotCreated.

Definition is_thread_call (o : op) : bool :=
  match o with pthread_create _ | pthread_join _ => true | _ => false end.

(** The operations of the shutdown, for [n] threads. *)
Definition shutdown_op (n : nat) (o : op) : bool :=
  match o with
  | pthread_join i => bool_decide (i < n)%nat
  | _ => releases_resource o
  end.

(** Where the main thread is, and what that says about its pending
    operations and about the threads. *)
Definition phase_inv (y : system) : Prop :=
  match main_at y with
  | CreatingThreads k =>
      (created_upto k (shared y) /\ (main_ops y = [] \/ exists m, main_ops y = [printf m]))
      \/ (exists k' m, k = S k' /\ main_ops y = [pthread_create k'; printf m]
            /\ created_upto k' (shared y) /\ (k' < length (Threads (shared y)))%nat)
  | InEventLoop _ =>
      all_created (shared y) /\ Forall (fun o => is_thread_call o = false) (main_ops y)
  | ShuttingDown =>
      all_created (shared y) /\ ExitFlag (shared y) = true
      /\ Forall (fun o => shutdown_op (length (Threads (shared y))) o = true) (main_ops y)
      /\ (forall i p, at_pc i (shared y) = Some p ->
            p = Returned \/ pthread_join i ∈ main_ops y)
  | MainReturned c =>
      c = 0 /\ main_ops y = []
      /\ forall i p, at_pc i (shared y) = Some p -> p = Returned
  end.

(** Once [ExitFlag] is set, a thread that waits at its gate finds it open,
    or the main thread is about to open it; and the main thread opens
    every gate after it has set the flag. *)
Definition exit_inv (y : system) : Prop :=
  (ExitFlag (shared y) = true ->
   forall i, at_pc i (shared y) = Some AtLockReady ->
     gate i (shared y) = Some false \/ pthread_mutex_unlock (M_Ready i) ∈ main_ops y)
  /\ (forall pre post, main_ops y = pre ++ set_ExitFlag :: post ->
        forall i, (i < NumWinThreads (shared y))%nat ->
          pthread_mutex_unlock (M_Ready i) ∈ post).

(** The holder of the lock in per-connection mode, and that a render
    thread that holds the lock exists. *)
Definition owner_inv (g : globals) (y : system) : Prop :=
  (MultiDisplays g = true -> Locking g = true ->
     forall i p, at_pc i (shared y) = Some p ->
       bool_decide (display_lock g (shared y) = Some (RenderThread i)) = in_cs p)
  /\ (MultiDisplays g = true -> display_lock g (shared y) <> Some MainThread)
  /\ (forall i, display_lock g (shared y) = Some (RenderThread i) ->
        is_Some (at_pc i (shared y))).

(** What the proof that the program can always end relies on. *)
Definition live_inv (g : globals) (n : nat) (y : system) : Prop :=
  roles_inv g y /\ animate_inv y /\ texture_inv y
  /\ (MultiDisplays g = false -> lock_inv g y) /\ owner_inv g y
  /\ phase_inv y /\ exit_inv y
  /\ (exists c, slot_inv g n c y)
  /\ length (Threads (shared y)) = n.

(** The next control point of [draw_loop]. *)
Definition next_pc (exit animate : bool) (p : pc) : pc :=
  match p with
  | AtWhile => if exit then Returned else AtLockReady
  | AtLockReady => AtCheckExit
  | AtCheckExit => if exit then Returned else AtLock1
  | AtLock1 => AtMakeCurrent
  | AtMakeCurrent => AtUnlock1
  | AtUnlock1 => AtNewSize
  | AtNewSize => AtMakeNewTexture
  | AtMakeNewTexture => AtDraw
  | AtDraw => AtLock2
  | AtLock2 => AtSwap
  | AtSwap => AtUnlock2
  | AtUnlock2 => AtAnimate
  | AtAnimate => if animate then AtWhile else AtCondWait
  | AtCondWait => Waiting
  | Woken => AtCondUnlock
  | AtCondUnlock => AtWhile
  | NotCreated | Waiting | Returned => p
  end.

(** The number of steps that a thread at [p] takes to return, once
    [ExitFlag] is set, in animate mode. *)
Definition steps_left (p : pc) : nat :=
  match p with
  | AtLock1 => 11 | AtMakeCurrent => 10 | AtUnlock1 => 9 | AtNewSize => 8
  | AtMakeNewTexture => 7 | AtDraw => 6 | AtLock2 => 5 | AtSwap => 4
  | AtUnlock2 => 3 | AtAnimate => 2 | AtLockReady => 2 | AtWhile => 1
  | AtCheckExit => 1
  | _ => 0
  end.

(** A thread that is running: created, not returned, not waiting for the
    redraw signal. *)
Definition running (p : pc) : bool :=
  match p with
  | NotCreated | Returned | AtCondWait | Waiting | Woken | AtCondUnlock => false
  | _ => true
  end.

(** Operations that can block. *)
Definition blocking (o : op) : bool :=
  match o with
  | pthread_mutex_lock _ | XLockDisplay _ | pthread_create _ | pthread_join _ => true
  | _ => false
  end.

(** What a run of render threads keeps of the main thread. *)
Definition main_kept (y y' : system) : Prop :=
  main_at y' = main_at y /\ main_ops y' = main_ops y /\ main_dpy y' = main_dpy y
  /\ ExitFlag (shared y') = ExitFlag (shared y).

(** ** The first frame of a thread *)

(** The query of the renderer name by the thread of record [i], and the
    number of these queries so far. *)
Definition is_query (i : nat) (e : thread * op) : bool :=
  match e with
  | (RenderThread j, glGetString_GL_RENDERER) => bool_decide (j = i)
  | _ => false
  end.

Definition queries (i : nat) (l : list (thread * op)) : nat :=
  length (filter (fun e => is_query i e = true) l).

Definition initialized (s : state) : list bool := wt.Initialized <$> WinThreads s.

(** Operations that neither query the renderer nor write [Initialized]. *)
Definition init_neutral (o : op) : bool :=
  match o with
  | set_Initialized _ _ | glGetString_GL_RENDERER => false
  | _ => true
  end.

Definition init_inv (y : system) : Prop :=
  forall (i : nat) (b : bool), initialized (shared y) !! i = Some b ->
    queries i (log y) = if b then 1%nat else 0%nat.
(** * Properties *)

(** ** The command line *)

Lemma clamp_threads_spec (n : Z) : clamp_threads n = Z.max 1 (Z.min MAX_WINTHREADS n).
Proof.
  unfold clamp_threads, MAX_WINTHREADS.
  destruct (Z.ltb_spec n 1); [lia|].
  destruct (n >? 100) eqn:E; [apply Z.gtb_lt in E; lia|].
  assert (n <= 100) by (rewrite Z.gtb_ltb in E; apply Z.ltb_ge in E; lia). lia.
Qed.

Lemma parse_args_n (v : string) (rest : list string) (c : cmdline) :
  parse_args ("-n" :: v :: rest) c
  = parse_args rest (set_numThreads (clamp_threads (atoi v)) c).
Proof. reflexivity. Qed.

Lemma create_windows_length a g name dpy k i ws ops ws' :
  create_windows a g name dpy k i ws = (ops, Continue ws') ->
  length ws' = (length ws + k)%nat.
Proof.
  revert i ws ops. induction k as [|k IH]; intros i ws ops; cbn [create_windows].
  - intros [= _ <-]. lia.
  - destruct (MultiDisplays g && _); [discriminate|].
    destruct (create_window _ _ _ _) as [o1 [w|]]; [|discriminate].
    destruct (create_windows a g name dpy k (S i) (ws ++ [w])) as [o2 r] eqn:E.
    intros [= _ ->]. apply IH in E. rewrite length_app in E. cbn in E. lia.
Qed.

(** C7. For every string [v] given to [-n], the thread count that [main]
    uses (the number of records it sets up) is the value [atoi v] clamped
    into [1, MAX_WINTHREADS] = [1, 100]: it is 1 when the parsed value is
    below 1 (as for "0", "-5" and the non-numeric "abc", which parses to 0)
    and 100 when it is above 100. *)
Theorem thread_count_clamped (a : answers) (prog v : string) :
  let n := Z.max 1 (Z.min 100 (atoi v)) in
  (snd (main_args [prog; "-n"; v]) = Some (set_numThreads n initial_cmdline))
  /\ match snd (main_setup a [prog; "-n"; v]) with
     | Continue (_, s) => Z.of_nat (NumWinThreads s) = n
     | _ => True
     end
  /\ (forall rest c, parse_args ("-n" :: v :: rest) c = parse_args rest (set_numThreads n c))
  /\ 1 <= n <= 100
  /\ (if atoi v <? 1 then n = 1 else if 100 <? atoi v then n = 100 else n = atoi v)
  /\ MAX_WINTHREADS = 100
  /\ clamp_threads (atoi "0") = 1 /\ clamp_threads (atoi "-5") = 1
  /\ clamp_threads (atoi "abc") = 1 /\ clamp_threads (atoi "101") = 100.
Proof.
  intros n. subst n.
  assert (E : clamp_threads (atoi v) = Z.max 1 (Z.min 100 (atoi v)))
    by apply clamp_threads_spec.
  assert (A : main_args [prog; "-n"; v]
              = ([], Some (set_numThreads (Z.max 1 (Z.min 100 (atoi v))) initial_cmdline))).
  { unfold main_args. rewrite <- E. reflexivity. }
  split; [|split; [|split; [|split; [|split; [|split]]]]].
  - rewrite A. reflexivity.
  - unfold main_setup. rewrite A.
    cbn [set_numThreads cl_globals initial_cmdline initial_globals MultiDisplays Locking
         negb andb numThreads displayName].
    destruct (XOpenDisplay_ret a 0 =? 0); [exact I|].
    destruct (create_windows _ _ _ _ _ _ _) as [ops [c| |ws]] eqn:C; cbn [snd]; try exact I.
    apply create_windows_length in C. unfold NumWinThreads. cbn [WinThreads initial_state].
    rewrite C. cbn [length]. lia.
  - intros rest c. rewrite parse_args_n, E. reflexivity.
  - lia.
  - destruct (Z.ltb_spec (atoi v) 1); [lia|].
    destruct (Z.ltb_spec 100 (atoi v)); lia.
  - reflexivity.
  - vm_compute. repeat split; reflexivity.
Qed.

Lemma parse_args_option (o : option_arg) (rest : list string) (c : cmdline) :
  parse_args (option_words o ++ rest) c = parse_args rest (option_effect o c).
Proof. destruct o; reflexivity. Qed.

Lemma parse_args_unrecognized (x : string) (post : list string) (c : cmdline) :
  recognized x = false -> parse_args (x :: post) c = None.
Proof.
  unfold recognized. intros H.
  repeat (apply orb_false_elim in H; destruct H as [H ?]).
  cbn [parse_args]. rewrite H. cbn [andb].
  repeat match goal with E : String.eqb _ _ = false |- _ => rewrite E; clear E end.
  reflexivity.
Qed.

Lemma parse_args_options (opts : list option_arg) (x : string) (post : list string) (c : cmdline) :
  recognized x = false ->
  parse_args (mjoin (option_words <$> opts) ++ x :: post) c = None.
Proof.
  intros H. revert c. induction opts as [|o opts IH]; intros c.
  - apply parse_args_unrecognized, H.
  - cbn [fmap list_fmap mjoin list_join]. rewrite <- app_assoc, parse_args_option. apply IH.
Qed.

(** C8. With no argument [main] prints the usage text and goes on with the
    defaults: 2 threads, one shared connection, Xlib's display lock rather
    than the mutex, no texturing.  With an argument that is not one of its
    flags, after any well-formed options, it prints the usage text and
    exits with status 1. *)
Theorem usage_and_defaults (a : answers) (prog : string) (opts : list option_arg)
    (x : string) (post : list string) :
  recognized x = false ->
  main_args [prog] = ([usage], Some initial_cmdline)
  /\ (numThreads initial_cmdline = 2
      /\ MultiDisplays (cl_globals initial_cmdline) = false
      /\ Locking (cl_globals initial_cmdline) = false
      /\ Texture (cl_globals initial_cmdline) = false)
  /\ (forall d, LOCK (cl_globals initial_cmdline) d = [XLockDisplay d])
  /\ (exists ops, fst (main_setup a [prog])
                  = usage :: main_banner initial_globals ++ XInitThreads :: ops)
  /\ match snd (main_setup a [prog]) with
     | Continue (_, s) => NumWinThreads s = 2%nat /\ Globals s = initial_globals
     | Exit code => code = 1 \/ code = -1
     | Abort => False
     end
  /\ main_setup a (prog :: mjoin (option_words <$> opts) ++ x :: post)
     = ([usage; exit 1], Exit 1).
Proof.
  intros Hx. split; [reflexivity|]. split; [repeat split|]. split; [reflexivity|].
  split; [|split].
  - unfold main_setup. cbn [main_args initial_cmdline cl_globals initial_globals
      MultiDisplays Locking negb andb numThreads displayName].
    destruct (XOpenDisplay_ret a 0 =? 0); [eexists; reflexivity|].
    destruct (create_windows _ _ _ _ _ _ _) as [ops [c| |ws]]; eexists; reflexivity.
  - unfold main_setup. cbn [main_args initial_cmdline cl_globals initial_globals
      MultiDisplays Locking negb andb numThreads displayName].
    destruct (XOpenDisplay_ret a 0 =? 0); [right; reflexivity|].
    destruct (create_windows _ _ _ _ _ _ _) as [ops [c| |ws]] eqn:E; cbn [snd].
    + left. revert E. change (Z.to_nat 2) with 2%nat. cbn [create_windows MultiDisplays andb].
      destruct (create_window a 0 _ _) as [o1 [w1|]]; [|intros [= _ <-]; reflexivity].
      destruct (create_window a 1 _ _) as [o2 [w2|]]; intros [= _ <-]; reflexivity.
    + revert E. change (Z.to_nat 2) with 2%nat. cbn [create_windows MultiDisplays andb].
      destruct (create_window a 0 _ _) as [o1 [w1|]]; [|discriminate].
      destruct (create_window a 1 _ _) as [o2 [w2|]]; discriminate.
    + apply create_windows_length in E. split; [exact E|reflexivity].
  - unfold main_setup, main_args.
    destruct (mjoin (option_words <$> opts) ++ x :: post) as [|y l] eqn:E.
    { destruct (mjoin (option_words <$> opts)); discriminate. }
    cbn [tail]. rewrite <- E, parse_args_options by exact Hx. reflexivity.
Qed.

Lemma usage_and_defaults_witness :
  recognized "-x" = false
  /\ main_setup ok_answers ("glthreads" :: mjoin (option_words <$> [arg_p; arg_n "3"]) ++ "-x" :: ["y"])
     = ([usage; exit 1], Exit 1).
Proof.
  split; [reflexivity|].
  apply (usage_and_defaults ok_answers "glthreads" [arg_p; arg_n "3"] "-x" ["y"]).
  reflexivity.
Defined.

(** ** Operations on the records *)

Lemma lookup_on_wt (i j : nat) (f : wt.winthread -> wt.winthread) (s : state) :
  WinThreads (on_wt i f s) !! j
  = if decide (i = j) then f <$> WinThreads s !! j else WinThreads s !! j.
Proof.
  unfold on_wt, with_WinThreads. cbn [WinThreads].
  rewrite list_lookup_alter. destruct (decide (i = j)) as [->|Hne]; reflexivity.
Qed.

Lemma run_ops_app (t : thread) (ops1 ops2 : list op) (s : state) :
  run_ops t (ops1 ++ ops2) s
  = match run_ops t ops1 s with Some s' => run_ops t ops2 s' | None => None end.
Proof.
  revert s. induction ops1 as [|o ops1 IH]; intros s; cbn; [reflexivity|].
  destruct (exec_op t o s); [apply IH|reflexivity].
Qed.

(** Releasing the gates [a .. a + n - 1]. *)
Lemma run_release (t : thread) (n a : nat) (s : state) :
  exists s', run_ops t ((fun k => pthread_mutex_unlock (M_Ready k)) <$> seq a n) s = Some s'
    /\ ExitFlag s' = ExitFlag s /\ Threads s' = Threads s
    /\ forall j, WinThreads s' !! j
         = (if bool_decide (a <= j < a + n)%nat then wt.set_Ready false else id)
           <$> WinThreads s !! j.
Proof.
  revert a s. induction n as [|n IH]; intros a s.
  - exists s. repeat split. intros j. rewrite bool_decide_eq_false_2 by lia.
    destruct (WinThreads s !! j); reflexivity.
  - cbn [seq fmap list_fmap run_ops exec_op].
    destruct (IH (S a) (on_wt a (wt.set_Ready false) s)) as (s' & Hr & He & Ht & Hw).
    exists s'. split; [exact Hr|]. split; [exact He|]. split; [exact Ht|].
    intros j. rewrite Hw, lookup_on_wt.
    destruct (decide (a = j)) as [->|Hne].
    + rewrite bool_decide_eq_false_2 by lia. rewrite bool_decide_eq_true_2 by lia.
      destruct (WinThreads s !! j); reflexivity.
    + destruct (WinThreads s !! j) as [w|]; [|reflexivity]. cbn.
      rewrite (bool_decide_ext (S a <= j < S a + n)%nat (a <= j < a + S n)%nat) by lia.
      reflexivity.
Qed.

Lemma keypress_Escape (s : state) (i : nat) :
  keypress s XK_Escape i
  = (if Animate (Globals s) then []
     else [pthread_mutex_lock M_CondMutex; pthread_cond_broadcast;
           pthread_mutex_unlock M_CondMutex])
    ++ set_ExitFlag
       :: ((fun k => pthread_mutex_unlock (M_Ready k)) <$> seq 0 (NumWinThreads s)).
Proof. unfold keypress. cbn. destruct (Animate (Globals s)); reflexivity. Qed.

(** ** The exit key *)

(** C1. On the exit key (Escape) the key handler does exactly this, in this
    order: in step mode ([Animate] false) it broadcasts the redraw signal
    under [CondMutex]; it sets [ExitFlag]; it unlocks the [Ready] gate of
    each of the [NumWinThreads] records; none of its operations is a drawing
    call.  Run from a state in which [CondMutex] is free, it leaves
    [ExitFlag] set and every gate open.  [event_loop] reaches the handler
    through the record whose window is the event's. *)
Theorem exit_key_effects (s : state) (dpy W : Z) (i : nat) (w : wt.winthread) :
  find_window s W = Some (i, w) ->
  CondMutex s = None ->
  keypress s XK_Escape i
  = (if Animate (Globals s) then []
     else [pthread_mutex_lock M_CondMutex; pthread_cond_broadcast;
           pthread_mutex_unlock M_CondMutex])
    ++ set_ExitFlag
       :: ((fun k => pthread_mutex_unlock (M_Ready k)) <$> seq 0 (NumWinThreads s))
  /\ Forall (fun o => is_drawing o = false) (keypress s XK_Escape i)
  /\ dispatch s (KeyPress W XK_Escape) = keypress s XK_Escape i
  /\ exists s', run_ops MainThread (keypress s XK_Escape i) s = Some s'
       /\ ExitFlag s' = true
       /\ Forall (fun r => wt.Ready r = false) (WinThreads s').
Proof.
  intros Hf Hc. split; [apply keypress_Escape|]. split; [|split].
  - rewrite keypress_Escape. apply Forall_app. split.
    + destruct (Animate (Globals s)); repeat constructor.
    + constructor; [reflexivity|]. apply Forall_fmap, Forall_forall. reflexivity.
  - unfold dispatch. cbn [event_window]. rewrite Hf. reflexivity.
  - rewrite keypress_Escape, run_ops_app.
    set (s1 := if Animate (Globals s) then s else with_Threads (fmap wake) s).
    assert (H1 : run_ops MainThread
                   (if Animate (Globals s) then []
                    else [pthread_mutex_lock M_CondMutex; pthread_cond_broadcast;
                          pthread_mutex_unlock M_CondMutex]) s = Some s1).
    { subst s1. destruct (Animate (Globals s)); [reflexivity|].
      cbn. rewrite Hc. cbn. destruct s; cbn in Hc; subst; reflexivity. }
    rewrite H1. cbn [run_ops exec_op].
    destruct (run_release MainThread (NumWinThreads s) 0 (with_ExitFlag true s1))
      as (s' & Hr & He & _ & Hw).
    assert (Hn : NumWinThreads s = length (WinThreads (with_ExitFlag true s1))).
    { subst s1. destruct (Animate (Globals s)); reflexivity. }
    exists s'. split; [exact Hr|]. split; [rewrite He; reflexivity|].
    apply Forall_lookup. intros j r Hj. pose proof (Hw j) as Hwj. rewrite Hj in Hwj.
    destruct (WinThreads (with_ExitFlag true s1) !! j) as [r0|] eqn:E; [|discriminate].
    apply lookup_lt_Some in E. rewrite bool_decide_eq_true_2 in Hwj by lia.
    injection Hwj as ->. reflexivity.
Qed.

Lemma exit_key_effects_witness :
  exists s', run_ops MainThread (keypress (step_mode (setup_state ["glthreads"])) XK_Escape 1)
               (step_mode (setup_state ["glthreads"])) = Some s'
    /\ ExitFlag s' = true
    /\ Forall (fun r => wt.Ready r = false) (WinThreads s').
Proof.
  eapply (exit_key_effects (step_mode (setup_state ["glthreads"])) 1000 51 1).
  - vm_compute. reflexivity.
  - vm_compute. reflexivity.
Defined.

(** ** Resize events *)

(** C6. A [ConfigureNotify] for window [W] in [event_loop] changes the one
    record whose window is [W] (the first, [i], that the search finds; the
    only one when the windows are distinct): its [NewSize] is set, its width
    and height are the event's, its gate is released, its other fields are
    kept.  Every other record is unchanged, so a [NewSize] that was false
    stays false. *)
Theorem resize_only_its_unit (s : state) (W width height : Z) (i : nat) (r : wt.winthread) :
  find_window s W = Some (i, r) ->
  CondMutex s = None ->
  exists s' r',
    run_ops MainThread (dispatch s (ConfigureNotify W width height)) s = Some s'
    /\ WinThreads s !! i = Some r /\ wt.Win r = W
    /\ (NoDup (wt.Win <$> WinThreads s) ->
        forall j u, WinThreads s !! j = Some u -> wt.Win u = W -> j = i)
    /\ WinThreads s' !! i = Some r'
    /\ r' = wt.set_Ready false
              (wt.set_WinHeight height (wt.set_WinWidth width (wt.set_NewSize true r)))
    /\ (wt.NewSize r' = true /\ wt.WinWidth r' = width /\ wt.WinHeight r' = height
        /\ wt.Ready r' = false)
    /\ (forall j, j <> i -> WinThreads s' !! j = WinThreads s !! j)
    /\ (forall j u, j <> i -> WinThreads s !! j = Some u -> wt.NewSize u = false ->
        exists u', WinThreads s' !! j = Some u' /\ wt.NewSize u' = false)
    /\ ExitFlag s' = ExitFlag s.
Proof.
  intros Hf Hc. pose proof Hf as Hf'. unfold find_window in Hf'.
  apply list_find_Some in Hf' as (Hi & HW & Hfirst).
  set (r' := wt.set_Ready false
               (wt.set_WinHeight height (wt.set_WinWidth width (wt.set_NewSize true r)))).
  set (s1 := on_wt i (wt.set_WinHeight height)
               (on_wt i (wt.set_WinWidth width) (on_wt i (wt.set_NewSize true) s))).
  set (s2 := if Animate (Globals s) then s1 else with_Threads (fmap wake) s1).
  exists (on_wt i (wt.set_Ready false) s2), r'.
  assert (Hl : forall j, WinThreads (on_wt i (wt.set_Ready false) s2) !! j
                 = if decide (i = j) then Some r' else WinThreads s !! j).
  { intros j. rewrite lookup_on_wt.
    assert (E : WinThreads s2 = WinThreads s1)
      by (subst s2; destruct (Animate (Globals s)); reflexivity).
    rewrite E. subst s1. rewrite !lookup_on_wt.
    destruct (decide (i = j)) as [<-|]; [|reflexivity]. rewrite Hi. reflexivity. }
  split; [|split; [exact Hi|split; [exact HW|split; [|split; [|split; [reflexivity|split;
    [repeat split|split; [|split]]]]]]]].
  - unfold dispatch. cbn [event_window]. rewrite Hf. cbn [handle].
    unfold resize. rewrite <- app_assoc. cbn [app run_ops exec_op].
    fold s1. rewrite run_ops_app.
    assert (H2 : run_ops MainThread (if negb (Animate (Globals s)) then signal_redraw else []) s1
                 = Some s2).
    { subst s2. destruct (Animate (Globals s)); [reflexivity|].
      cbn. rewrite Hc. cbn. destruct s; cbn in Hc; subst; reflexivity. }
    rewrite H2. reflexivity.
  - intros Hnd j u Hj Hu.
    eapply NoDup_lookup; [exact Hnd| |].
    + rewrite list_lookup_fmap, Hj. cbn. rewrite Hu. reflexivity.
    + rewrite list_lookup_fmap, Hi. cbn. rewrite HW. reflexivity.
  - rewrite Hl. destruct (decide (i = i)); [reflexivity|congruence].
  - intros j Hj. rewrite Hl. destruct (decide (i = j)); [congruence|reflexivity].
  - intros j u Hj Hu Hn. exists u. rewrite Hl.
    destruct (decide (i = j)); [congruence|]. split; assumption.
  - subst s2 s1. destruct (Animate (Globals s)); reflexivity.
Qed.

Lemma resize_only_its_unit_witness :
  exists s' r',
    run_ops MainThread (dispatch (setup_state ["glthreads"]) (ConfigureNotify 51 640 480))
      (setup_state ["glthreads"]) = Some s'
    /\ WinThreads s' !! 1%nat = Some r'
    /\ (wt.NewSize r', wt.WinWidth r', wt.WinHeight r', wt.Ready r') = (true, 640, 480, false).
Proof.
  destruct (resize_only_its_unit (setup_state ["glthreads"]) 51 640 480 1
              {| wt.Dpy := 1000; wt.Index := 1; wt.Ready := true; wt.Win := 51;
                 wt.Context := 81; wt.AngleX := S754_zero false;
                 wt.AngleY := S754_zero false; wt.WinWidth := 700; wt.WinHeight := 700;
                 wt.NewSize := true; wt.Initialized := false; wt.MakeNewTexture := false;
                 wt.MotionStartX := 0; wt.MotionStartY := 0 |})
    as (s' & r' & Hr & _ & _ & _ & Hl & -> & _).
  - vm_compute. reflexivity.
  - vm_compute. reflexivity.
  - exists s'. eexists. split; [exact Hr|]. split; [exact Hl|]. reflexivity.
Defined.

(** ** The texture scalar: exact roundings *)




















(** ** Texture regeneration *)






(** ** Steps of the running program *)

Lemma gate_on_wt (i j : nat) (f : wt.winthread -> wt.winthread) (s : state) :
  (forall w, wt.Ready (f w) = wt.Ready w) ->
  gate j (on_wt i f s) = gate j s.
Proof.
  intros Hf. unfold gate. rewrite lookup_on_wt.
  destruct (decide (i = j)); [|reflexivity].
  destruct (WinThreads s !! j) as [w|]; [|reflexivity]. cbn. rewrite Hf. reflexivity.
Qed.

Lemma gate_set_Ready (i j : nat) (b : bool) (s : state) :
  gate j (on_wt i (wt.set_Ready b) s)
  = if decide (i = j) then (fun _ => b) <$> gate j s else gate j s.
Proof.
  unfold gate. rewrite lookup_on_wt. destruct (decide (i = j)); [|reflexivity].
  destruct (WinThreads s !! j); reflexivity.
Qed.

(** What a plain operation leaves alone. *)
Lemma exec_plain (t : thread) (o : op) (s s' : state) :
  plain o = true -> exec_op t o s = Some s' ->
  ExitFlag s' = ExitFlag s /\ Threads s' = Threads s /\ forall j, gate j s' = gate j s.
Proof.
  intros Hp H.
  destruct o as [ | | | | | | | | |[]|[]| | | | | | | | | | | | | | | | | | | | | | | | | | | | | | | | | | | | | | | | ];
    try discriminate Hp; exec_cases H;
    (split; [reflexivity|split; [reflexivity|]]); intros j;
    try reflexivity; apply gate_on_wt; intros []; reflexivity.
Qed.

Lemma run_plain (t : thread) (ops : list op) (s s' : state) :
  Forall (fun o => plain o = true) ops -> run_ops t ops s = Some s' ->
  ExitFlag s' = ExitFlag s /\ Threads s' = Threads s /\ forall j, gate j s' = gate j s.
Proof.
  revert s. induction ops as [|o ops IH]; intros s Hp H; cbn in H.
  - injection H as <-. repeat split.
  - inversion Hp as [|? ? Ho Hops]; subst.
    destruct (exec_op t o s) as [s1|] eqn:E; [|discriminate].
    destruct (exec_plain _ _ _ _ Ho E) as (E1 & E2 & E3).
    destruct (IH _ Hops H) as (F1 & F2 & F3).
    split; [congruence|split; [congruence|]]. intros j. rewrite F3. apply E3.
Qed.

(** What any operation does to the gate of record [i], to the control point
    of its thread and to [ExitFlag]. *)
Lemma exec_view (i : nat) (t : thread) (o : op) (s s' : state) :
  exec_op t o s = Some s' ->
  (gate i s' = match o with
               | pthread_mutex_lock (M_Ready k) =>
                   if decide (k = i) then Some true else gate i s
               | pthread_mutex_unlock (M_Ready k) =>
                   if decide (k = i) then (fun _ => false) <$> gate i s else gate i s
               | _ => gate i s
               end)
  /\ (at_pc i s' = match o with
                   | pthread_cond_broadcast => wake <$> at_pc i s
                   | pthread_create k =>
                       if decide (k = i) then Some AtWhile else at_pc i s
                   | _ => at_pc i s
                   end)
  /\ (ExitFlag s' = match o with set_ExitFlag => true | _ => ExitFlag s end)
  /\ (match o with
      | pthread_mutex_lock (M_Ready k) => k = i -> gate i s = Some false
      | pthread_create k => k = i -> at_pc i s = Some NotCreated
      | _ => True
      end).
Proof.
  intros H.
  destruct o as [ | | | | | | | | |[| |k]|[| |k]| | |k| | | | | | | | | | | | | | | | | | | | | | | | | | | | | | | | | | | | | ];
    exec_cases H; cbn;
    repeat split; try reflexivity;
    try (apply gate_on_wt; intros []; reflexivity).
  - rewrite gate_set_Ready. destruct (decide (k = i)) as [->|].
    + unfold gate. rewrite Heqo. reflexivity.
    + reflexivity.
  - intros ->. unfold gate. rewrite Heqo. cbn. congruence.
  - apply gate_set_Ready.
  - unfold at_pc. cbn. apply list_lookup_fmap.
  - unfold at_pc. cbn. rewrite list_lookup_insert.
    destruct (decide (k = i)) as [->|].
    + rewrite decide_True; [reflexivity|]. split; [reflexivity|].
      eapply lookup_lt_Some. eassumption.
    + rewrite decide_False; [reflexivity|]. intros [? _]. contradiction.
  - intros ->. assumption.
Qed.

Lemma LOCK_plain (g : globals) (d : Z) :
  Forall (fun o => plain o = true) (LOCK g d)
  /\ Forall (fun o => is_drawing o = false) (LOCK g d).
Proof.
  unfold LOCK. destruct (Locking g); [|destruct (MultiDisplays g)];
    split; repeat constructor.
Qed.

Lemma UNLOCK_plain (g : globals) (d : Z) :
  Forall (fun o => plain o = true) (UNLOCK g d)
  /\ Forall (fun o => is_drawing o = false) (UNLOCK g d).
Proof.
  unfold UNLOCK. destruct (Locking g); [|destruct (MultiDisplays g)];
    split; repeat constructor.
Qed.

Lemma MakeNewTexture_plain (s : state) :
  Forall (fun o => plain o = true) (MakeNewTexture s).
Proof.
  unfold MakeNewTexture.
  destruct (TexWidth s =? 0); [|destruct (TexWidth s =? TEX_SIZE)]; repeat constructor.
Qed.

(** The steps of [draw_loop]: the gate is taken at [AtLockReady] only, the
    present issued at [AtSwap] only, drawing calls inside the body only,
    and the body is entered through the gate only. *)
Lemma draw_loop_ops (s : state) (i : nat) (w : wt.winthread) (p p' : pc) (ops : list op) :
  draw_loop s i w p = Some (ops, p') ->
  (p = AtLockReady /\ ops = [pthread_mutex_lock (M_Ready i)] /\ p' = AtCheckExit)
  \/ (p = AtSwap /\ ops = [glXSwapBuffers (wt.Dpy w) (wt.Win w)] /\ p' = AtUnlock2)
  \/ (p <> AtLockReady /\ p <> AtSwap /\ p <> Returned
      /\ Forall (fun o => plain o = true) ops
      /\ (in_body p' = true -> in_body p = true)
      /\ (in_body p = false -> Forall (fun o => is_drawing o = false) ops)
      /\ (p = AtCheckExit ->
          ops = [] /\ p' = if ExitFlag s then Returned else AtLock1)).
Proof.
  intros H.
  unfold draw_loop in H. destruct p; cbv beta iota zeta in H; try discriminate;
    try (injection H as <- <-; left; repeat split; fail);
    try (injection H as <- <-; right; left; repeat split; fail);
    right; right.
  - (* AtWhile *) injection H as <- <-.
    repeat split; try discriminate; try constructor.
    destruct (ExitFlag s); discriminate.
  - (* AtCheckExit *) injection H as <- <-.
    repeat split; try discriminate; constructor.
  - (* AtLock1 *) injection H as <- <-.
    repeat split; try discriminate. apply LOCK_plain.
  - (* AtMakeCurrent *) injection H as <- <-.
    repeat split; try discriminate.
    constructor; [reflexivity|]. destruct (wt.Initialized w); cbn; [constructor|].
    repeat constructor. apply Forall_app. split; [|repeat constructor].
    destruct (Texture (Globals s)); [apply MakeNewTexture_plain|constructor].
  - (* AtUnlock1 *) injection H as <- <-.
    repeat split; try discriminate. apply UNLOCK_plain.
  - (* AtNewSize *) injection H as <- <-.
    repeat split; try discriminate.
    constructor; [reflexivity|]. destruct (wt.NewSize w); repeat constructor.
  - (* AtMakeNewTexture *) injection H as <- <-.
    repeat split; try discriminate.
    destruct (wt.MakeNewTexture w); [|constructor].
    change (Forall (fun o => plain o = true)
              (MakeNewTexture s ++ [set_MakeNewTexture i false])).
    apply Forall_app. split; [apply MakeNewTexture_plain|repeat constructor].
  - (* AtDraw *) injection H as <- <-.
    repeat split; try discriminate. repeat constructor.
  - (* AtLock2 *) injection H as <- <-.
    repeat split; try discriminate. apply LOCK_plain.
  - (* AtUnlock2 *) injection H as <- <-.
    repeat split; try discriminate; try intros _; apply UNLOCK_plain.
  - (* AtAnimate *) destruct (Animate (Globals s)); injection H as <- <-;
      repeat split; try discriminate; repeat constructor.
  - (* AtCondWait *) injection H as <- <-.
    repeat split; try discriminate; repeat constructor.
  - (* Woken *) injection H as <- <-.
    repeat split; try discriminate; repeat constructor.
  - (* AtCondUnlock *) injection H as <- <-.
    repeat split; try discriminate; repeat constructor.
Qed.

Lemma at_pc_insert (i j : nat) (p' : pc) (s : state) :
  at_pc i (with_Threads (<[j := p']>) s)
  = if decide (j = i) then (fun _ => p') <$> at_pc i s else at_pc i s.
Proof.
  unfold at_pc. cbn. rewrite list_lookup_insert.
  destruct (decide (j = i)) as [->|].
  - destruct (Threads s !! i) eqn:E.
    + rewrite decide_True; [reflexivity|]. split; [reflexivity|].
      eapply lookup_lt_Some, E.
    + rewrite decide_False; [reflexivity|]. intros [_ Hlt].
      apply lookup_ge_None in E. lia.
  - rewrite decide_False; [reflexivity|]. intros [? _]. contradiction.
Qed.

Lemma logged_cons (t : thread) (o : op) (ops : list op) (l : list (thread * op)) :
  logged t (o :: ops) l = logged t ops ((t, o) :: l).
Proof.
  unfold logged. cbn [fmap list_fmap]. rewrite reverse_cons, <- app_assoc. reflexivity.
Qed.

Lemma sys_step_visible (i : nat) (l : label) (y y' : system) :
  sys_step l y = Some y' -> visible i y y'.
Proof.
  unfold sys_step. destruct (Aborted (shared y)); [discriminate|].
  destruct l as [|e|j].
  - unfold main_step. destruct (main_ops y) as [|o ops].
    + destruct (main_at y) as [k|w| |c].
      * destruct (bool_decide _); intros [= <-]; apply v_silent; reflexivity.
      * destruct (ExitFlag (shared y)); [|discriminate].
        intros [= <-]; apply v_silent; reflexivity.
      * intros [= <-]; apply v_silent; reflexivity.
      * discriminate.
    + destruct (exec_op MainThread o (shared y)) as [s'|] eqn:E; [|discriminate].
      intros [= <-]. eapply v_main; [exact E|reflexivity].
  - unfold poll_step. destruct (main_ops y); [|discriminate].
    destruct (main_at y); try discriminate.
    destruct (ExitFlag (shared y)); [discriminate|].
    destruct (MultiDisplays (Globals (shared y))); intros [= <-];
      apply v_silent; reflexivity.
  - unfold thread_step.
    destruct (WinThreads (shared y) !! j) as [w|] eqn:Hw; [|discriminate].
    destruct (Threads (shared y) !! j) as [p|] eqn:Hp; [|discriminate].
    destruct (draw_loop (shared y) j w p) as [[ops p']|] eqn:Hd; [|discriminate].
    destruct (run_ops (RenderThread j) ops (shared y)) as [s'|] eqn:Hr; [|discriminate].
    intros [= <-]. cbn [shared log].
    apply draw_loop_ops in Hd as [(-> & -> & ->)|[(-> & -> & ->)|
      (N1 & N2 & N3 & Hpl & Hin & Hdr & Hce)]].
    + cbn [run_ops] in Hr.
      destruct (exec_op (RenderThread j) (pthread_mutex_lock (M_Ready j)) (shared y))
        as [s1|] eqn:E; [|discriminate].
      injection Hr as ->.
      pose proof (exec_view i _ _ _ _ E) as (G & P & X & _).
      pose proof (exec_view j _ _ _ _ E) as (_ & _ & _ & Gj).
      cbn in G, P, X, Gj.
      apply (v_acquire i y _ j); cbn [shared log].
      * exact Hp.
      * apply Gj. reflexivity.
      * exact G.
      * rewrite at_pc_insert, P. destruct (decide (j = i)) as [->|]; [|reflexivity].
        unfold at_pc. rewrite Hp. reflexivity.
      * exact X.
      * reflexivity.
    + cbn in Hr. injection Hr as <-.
      apply (v_swap i y _ j (wt.Dpy w) (wt.Win w)); cbn [shared log].
      * exact Hp.
      * reflexivity.
      * rewrite at_pc_insert. destruct (decide (j = i)) as [->|]; [|reflexivity].
        unfold at_pc. rewrite Hp. reflexivity.
      * reflexivity.
      * reflexivity.
    + destruct (run_plain _ _ _ _ Hpl Hr) as (X & T & G).
      apply (v_plain i y _ j p p' ops); cbn [shared log]; try assumption.
      * apply G.
      * rewrite at_pc_insert. unfold at_pc. rewrite T.
        destruct (decide (j = i)) as [->|]; [|reflexivity]. rewrite Hp. reflexivity.
      * reflexivity.
Qed.

Lemma run_invariant (I : system -> Prop) :
  (forall l y y', I y -> sys_step l y = Some y' -> I y') ->
  forall ls y y', I y -> run ls y = Some y' -> I y'.
Proof.
  intros Hstep ls. induction ls as [|l ls IH]; intros y y' Hy H; cbn in H.
  - injection H as <-. exact Hy.
  - destruct (sys_step l y) as [y1|] eqn:E; [|discriminate].
    eapply IH; [|exact H]. eapply Hstep; eassumption.
Qed.

(** Consequences of [exec_view] for an arbitrary operation. *)
Lemma exec_effects (i : nat) (t : thread) (o : op) (s s' : state) :
  exec_op t o s = Some s' ->
  (ExitFlag s = true -> ExitFlag s' = true)
  /\ (ExitFlag s' = true -> ExitFlag s = true \/ o = set_ExitFlag)
  /\ (gate i s' = Some false -> gate i s = Some false \/ is_release i (t, o) = true)
  /\ (is_release i (t, o) = false -> gate i s = Some true -> gate i s' = Some true)
  /\ (forall p', at_pc i s' = Some p' ->
        exists p, at_pc i s = Some p
          /\ (p' = p \/ (p = Waiting /\ p' = Woken) \/ (p = NotCreated /\ p' = AtWhile))).
Proof.
  intros H. destruct (exec_view i t o s s' H) as (G & P & X & C).
  split; [|split; [|split; [|split]]].
  - intros E. rewrite X. destruct o; try exact E; reflexivity.
  - intros E. rewrite X in E. destruct o; try (left; exact E). right. reflexivity.
  - intros E. rewrite G in E. destruct o as [ | | | | | | | | |[| |k]|[| |k]| | | | | | | | | | | | | | | | | | | | | | | | | | | | | | | | | | | | | | | | ];
      try (left; exact E); cbn.
    + destruct (decide (k = i)); [discriminate|left; exact E].
    + destruct (decide (k = i)) as [->|]; [right; apply bool_decide_eq_true_2; reflexivity|].
      left. exact E.
  - intros R E. rewrite G. destruct o as [ | | | | | | | | |[| |k]|[| |k]| | | | | | | | | | | | | | | | | | | | | | | | | | | | | | | | | | | | | | | | ];
      try exact E; cbn in R.
    + destruct (decide (k = i)); [reflexivity|exact E].
    + apply bool_decide_eq_false_1 in R. destruct (decide (k = i)); [contradiction|exact E].
  - intros p' E. rewrite P in E.
    destruct o as [ | | | | | | | | | | | | |k| | | | | | | | | | | | | | | | | | | | | | | | | | | | | | | | | | | | | ];
      try (exists p'; split; [exact E|left; reflexivity]).
    + destruct (at_pc i s) as [p|]; [|discriminate]. cbn in E. injection E as <-.
      exists p. split; [reflexivity|]. destruct p; cbn; auto.
    + destruct (decide (k = i)) as [->|].
      * injection E as <-. exists NotCreated. split; [apply C; reflexivity|]. auto.
      * exists p'. split; [exact E|left; reflexivity].
Qed.

Lemma gate_step_plain (i j : nat) (m : gate_mon) (o : op) :
  plain o = true -> gate_step i m (RenderThread j, o) = m.
Proof.
  intros Hp. unfold gate_step.
  destruct o as [ | | | | | | | | |[]|[]| | | | | | | | | | | | | | | | | | | | | | | | | | | | | | | | | | | | | | | | ];
    try discriminate Hp; cbn; rewrite ?andb_false_r; reflexivity.
Qed.

Lemma gate_monitor_plain (i j : nat) (ops : list op) (l : list (thread * op)) :
  Forall (fun o => plain o = true) ops ->
  gate_monitor i (logged (RenderThread j) ops l) = gate_monitor i l.
Proof.
  revert l. induction ops as [|o ops IH]; intros l Hp; [reflexivity|].
  inversion Hp as [|? ? Ho Hops]; subst.
  rewrite logged_cons, IH by exact Hops. cbn [gate_monitor].
  apply gate_step_plain, Ho.
Qed.

Lemma gate_step_main (i : nat) (m : gate_mon) (o : op) :
  gate_step i m (MainThread, o)
  = if is_release i (MainThread, o)
    then {| gm_ok := gm_ok m; gm_open := true; gm_fresh := gm_fresh m |}
    else m.
Proof. unfold gate_step. destruct (is_release i (MainThread, o)); reflexivity. Qed.

Lemma gate_inv_step (i : nat) (l : label) (y y' : system) :
  gate_inv i y -> sys_step l y = Some y' -> gate_inv i y'.
Proof.
  intros (Hok & Hopen & Hfresh) Hs. unfold gate_inv.
  destruct (sys_step_visible i l y y' Hs)
    as [o E L| E L| j Pj Gj G P X L| j d w Pj G P X L| j p p' ops Pj N1 N2 N3 Hpl Hin Hdr Hce G P X L];
    rewrite L.
  - destruct (exec_effects i _ _ _ _ E) as (_ & _ & Go & _ & Pc).
    cbn [gate_monitor]. rewrite gate_step_main.
    destruct (is_release i (MainThread, o)) eqn:R; cbn.
    + split; [exact Hok|]. split; [reflexivity|].
      intros p' Hp' Hb. destruct (Pc p' Hp') as (p & Hp & [->|[[-> ->]|[-> ->]]]);
        try discriminate. eapply Hfresh; eassumption.
    + split; [exact Hok|]. split.
      * intros Hg. destruct (Go Hg) as [Hg'|]; [auto|congruence].
      * intros p' Hp' Hb. destruct (Pc p' Hp') as (p & Hp & [->|[[-> ->]|[-> ->]]]);
          try discriminate. eapply Hfresh; eassumption.
  - rewrite E. repeat split; assumption.
  - cbn [gate_monitor]. unfold gate_step. cbn [is_release is_acquire is_swap is_present].
    destruct (decide (j = i)) as [->|Hne].
    + rewrite !bool_decide_eq_true_2 by reflexivity. cbn.
      rewrite Hok, (Hopen Gj). split; [reflexivity|]. split; [|reflexivity].
      rewrite G. discriminate.
    + rewrite (bool_decide_eq_false_2 (j = i)) by exact Hne. cbn.
      rewrite G, P. repeat split; assumption.
  - cbn [gate_monitor]. unfold gate_step. cbn [is_release is_acquire is_swap is_present].
    destruct (decide (j = i)) as [->|Hne].
    + rewrite !bool_decide_eq_true_2 by reflexivity. cbn.
      rewrite Hok, (Hfresh AtSwap Pj eq_refl), G. split; [reflexivity|].
      split; [exact Hopen|]. rewrite P. intros p [= <-]. discriminate.
    + rewrite (bool_decide_eq_false_2 (j = i)) by exact Hne. cbn.
      rewrite G, P. repeat split; assumption.
  - rewrite gate_monitor_plain by exact Hpl. rewrite G, P.
    split; [exact Hok|]. split; [exact Hopen|].
    destruct (decide (j = i)) as [->|Hne]; [|exact Hfresh].
    intros q [= <-] Hb. eapply Hfresh; [exact Pj|]. apply Hin, Hb.
Qed.

(** ** Shutdown *)

Lemma precedes_app (P Q : op -> bool) (l1 l2 : list op) :
  Forall (fun o => Q o = false) l1 -> Forall (fun o => P o = false) l2 ->
  precedes P Q (l1 ++ l2).
Proof.
  intros H1 H2 a b x y Ha Hb HP HQ.
  destruct (decide (b < length l1)%nat) as [Hlt|Hge].
  - rewrite lookup_app_l in Hb by exact Hlt.
    rewrite Forall_lookup in H1. rewrite (H1 _ _ Hb) in HQ. discriminate.
  - destruct (decide (a < length l1)%nat) as [Hlt|Hge']; [lia|].
    rewrite lookup_app_r in Ha by lia.
    rewrite Forall_lookup in H2. rewrite (H2 _ _ Ha) in HP. discriminate.
Qed.

Lemma destroy_ops_cons (u : wt.winthread) (ws : list wt.winthread) :
  destroy_ops (u :: ws)
  = glXDestroyContext (wt.Dpy u) (wt.Context u)
    :: XDestroyWindow (wt.Dpy u) (wt.Win u) :: destroy_ops ws.
Proof. reflexivity. Qed.

Lemma destroy_ops_lookup (ws : list wt.winthread) (i : nat) (w : wt.winthread) :
  ws !! i = Some w ->
  destroy_ops ws !! (2 * i)%nat = Some (glXDestroyContext (wt.Dpy w) (wt.Context w))
  /\ destroy_ops ws !! (2 * i + 1)%nat = Some (XDestroyWindow (wt.Dpy w) (wt.Win w)).
Proof.
  revert i. induction ws as [|u ws IH]; intros i Hi; [discriminate|].
  rewrite destroy_ops_cons. destruct i as [|i]; cbn in Hi.
  - injection Hi as ->. split; reflexivity.
  - destruct (IH i Hi) as [H1 H2].
    replace (2 * S i)%nat with (S (S (2 * i))) by lia.
    replace (S (S (2 * i)) + 1)%nat with (S (S (2 * i + 1))) by lia.
    split; assumption.
Qed.

Lemma destroy_ops_length (ws : list wt.winthread) :
  length (destroy_ops ws) = (2 * length ws)%nat.
Proof.
  induction ws as [|u ws IH]; [reflexivity|].
  rewrite destroy_ops_cons. cbn [length]. rewrite IH. lia.
Qed.

Lemma destroy_ops_kind (ws : list wt.winthread) :
  Forall (fun o => is_destroy o = true) (destroy_ops ws).
Proof.
  induction ws as [|u ws IH]; [constructor|].
  rewrite destroy_ops_cons. repeat constructor. exact IH.
Qed.

Lemma exec_join (t : thread) (i : nat) (s s' : state) :
  exec_op t (pthread_join i) s = Some s' -> Threads s !! i = Some Returned /\ s' = s.
Proof.
  cbn. destruct (Threads s !! i) as [[]|]; try discriminate.
  intros [= <-]. split; reflexivity.
Qed.

Lemma exec_lengths (t : thread) (o : op) (s s' : state) :
  exec_op t o s = Some s' ->
  length (Threads s') = length (Threads s)
  /\ length (WinThreads s') = length (WinThreads s).
Proof.
  intros H. destruct o; try (match goal with m : mutex |- _ => destruct m end);
    exec_cases H; cbn; rewrite ?length_alter, ?length_insert, ?length_fmap; split; reflexivity.
Qed.

Lemma run_lengths (t : thread) (ops : list op) (s s' : state) :
  run_ops t ops s = Some s' ->
  length (Threads s') = length (Threads s)
  /\ length (WinThreads s') = length (WinThreads s).
Proof.
  revert s. induction ops as [|o ops IH]; intros s H; cbn in H.
  - injection H as <-. split; reflexivity.
  - destruct (exec_op t o s) as [s1|] eqn:E; [|discriminate].
    destruct (exec_lengths _ _ _ _ E) as [A B]. destruct (IH _ H) as [C D].
    split; congruence.
Qed.

(** A thread that has returned stays so; a thread that has not is still
    covered by the join that waits for it. *)
Lemma exec_joined (t : thread) (o : op) (s s' : state) (P : nat -> Prop) :
  exec_op t o s = Some s' ->
  (forall i p, at_pc i s = Some p -> p = Returned \/ P i) ->
  forall i p, at_pc i s' = Some p -> p = Returned \/ P i.
Proof.
  intros H Q i p' Hp'.
  destruct (exec_effects i _ _ _ _ H) as (_ & _ & _ & _ & Pc).
  destruct (Pc p' Hp') as (p & Hp & [->|[[-> ->]|[-> ->]]]).
  - eapply Q, Hp.
  - destruct (Q _ _ Hp) as [|]; [discriminate|auto].
  - destruct (Q _ _ Hp) as [|]; [discriminate|auto].
Qed.

Lemma run_joined (t : thread) (ops : list op) (s s' : state) (P : nat -> Prop) :
  run_ops t ops s = Some s' ->
  (forall i p, at_pc i s = Some p -> p = Returned \/ P i) ->
  forall i p, at_pc i s' = Some p -> p = Returned \/ P i.
Proof.
  revert s. induction ops as [|o ops IH]; intros s H Q; cbn in H.
  - injection H as <-. exact Q.
  - destruct (exec_op t o s) as [s1|] eqn:E; [|discriminate].
    eapply IH; [exact H|]. eapply exec_joined; eassumption.
Qed.

Lemma split_after_prefix (P : op -> bool) (l1 l2 pre post : list op) (o : op) :
  pre ++ o :: post = l1 ++ l2 -> Forall (fun x => P x = false) l1 -> P o = true ->
  exists pre2, pre = l1 ++ pre2.
Proof.
  revert pre. induction l1 as [|x l1 IH]; intros pre E H1 Ho.
  - exists pre. reflexivity.
  - inversion H1 as [|? ? Hx H1']; subst. destruct pre as [|y pre]; cbn in E.
    + injection E as -> _. congruence.
    + injection E as -> E. destruct (IH pre E H1' Ho) as [pre2 ->].
      exists pre2. reflexivity.
Qed.

Lemma no_release_in (ops pre post : list op) (o : op) :
  Forall (fun x => releases_resource x = false) ops ->
  ops = pre ++ o :: post -> releases_resource o = true -> False.
Proof.
  intros H -> Ho. apply Forall_app in H as [_ H].
  inversion H; subst. congruence.
Qed.

Lemma keypress_no_release (s : state) (K : Z) (k : nat) :
  Forall (fun x => releases_resource x = false) (keypress s K k).
Proof.
  unfold keypress, release_all.
  destruct (K =? XK_Escape).
  - apply Forall_app. split; [destruct (Animate _); repeat constructor|].
    constructor; [reflexivity|]. apply Forall_fmap, Forall_forall. reflexivity.
  - destruct (_ || _); [|destruct (_ || _)];
      repeat (destruct (Texture _) || destruct (Animate _)); repeat constructor.
Qed.

Lemma handle_no_release (s : state) (i : nat) (w : wt.winthread) (e : XEvent) :
  Forall (fun x => releases_resource x = false) (handle s i w e).
Proof.
  destruct e; cbn [handle]; try (repeat constructor; fail).
  - unfold resize. destruct (Animate _); repeat constructor.
  - unfold motion. destruct (any_button _); repeat constructor.
  - apply keypress_no_release.
Qed.

Lemma event_loops_no_release (s : state) (d : Z) (w : nat) (e : option XEvent) :
  Forall (fun x => releases_resource x = false) (event_loop s d e)
  /\ Forall (fun x => releases_resource x = false) (event_loop_multi s w e).
Proof.
  assert (HL : forall g d0, Forall (fun x => releases_resource x = false) (LOCK g d0)).
  { intros g d0. unfold LOCK. destruct (Locking g); [|destruct (MultiDisplays g)];
      repeat constructor. }
  assert (HU : forall g d0, Forall (fun x => releases_resource x = false) (UNLOCK g d0)).
  { intros g d0. unfold UNLOCK. destruct (Locking g); [|destruct (MultiDisplays g)];
      repeat constructor. }
  split.
  - unfold event_loop. apply Forall_app. split; [apply HL|].
    constructor; [reflexivity|]. destruct e as [e|].
    + constructor; [reflexivity|]. apply Forall_app. split; [apply HU|].
      unfold dispatch. destruct (event_window e); [|constructor].
      destruct (find_window _ _) as [[i r]|]; [apply handle_no_release|constructor].
    + apply Forall_app. split; [apply HU|repeat constructor].
  - unfold event_loop_multi. destruct (WinThreads s !! w) as [r|]; [|constructor].
    constructor; [reflexivity|]. apply Forall_app. split; [|repeat constructor].
    destruct e as [e|]; [|constructor].
    constructor; [reflexivity|]. apply handle_no_release.
Qed.

Lemma main_shutdown_joins (s : state) (d : Z) (pre post : list op) (o : op) (i : nat) :
  main_shutdown s d = pre ++ o :: post -> releases_resource o = true ->
  (i < length (WinThreads s))%nat -> pthread_join i ∈ pre.
Proof.
  intros E Ho Hi. unfold main_shutdown, clean_up in E. rewrite <- app_assoc in E.
  symmetry in E.
  destruct (split_after_prefix releases_resource _ _ _ _ _ E) as [pre2 ->]; [|exact Ho|].
  - apply Forall_fmap, Forall_forall. reflexivity.
  - apply elem_of_app. left. apply list_elem_of_fmap. exists i. split; [reflexivity|].
    apply elem_of_seq. unfold NumWinThreads. lia.
Qed.

Lemma joined_inv_step (l : label) (y y' : system) :
  joined_inv y -> sys_step l y = Some y' -> joined_inv y'.
Proof.
  intros (H1 & H2 & H3). unfold sys_step.
  destruct (Aborted (shared y)); [discriminate|]. destruct l as [|e|j].
  - unfold main_step. destruct (main_ops y) as [|o ops] eqn:Eo.
    + destruct (main_at y) as [k|w| |c].
      * destruct (bool_decide _); intros [= <-]; (split; [exact H1|split; [|exact H3]]);
          cbn [main_goto main_ops shared]; intros pre o post E Ho; exfalso.
        -- eapply no_release_in; [|exact E|exact Ho]. repeat constructor.
        -- destruct pre; discriminate.
      * destruct (ExitFlag (shared y)); [|discriminate]. intros [= <-].
        split; [exact H1|split; [|exact H3]]. cbn [main_goto main_ops shared].
        intros pre o post E Ho i p Hp. right.
        eapply main_shutdown_joins; [exact E|exact Ho|].
        rewrite <- H3. eapply lookup_lt_Some, Hp.
      * intros [= <-]. split; [exact H1|split; [|exact H3]].
        cbn [main_goto main_ops shared]. intros pre o post E. destruct pre; discriminate.
      * discriminate.
    + destruct (exec_op MainThread o (shared y)) as [s'|] eqn:E; [|discriminate].
      intros [= <-]. unfold joined_inv. cbn [shared log main_ops].
      destruct (exec_lengths _ _ _ _ E) as [L1 L2].
      split; [|split; [|congruence]].
      * intros t o1 Hin Ho1 i p' Hp'.
        destruct (exec_joined _ _ _ _ (fun _ => False) E) with (i := i) (p := p')
          as [|[]]; [|exact Hp'|assumption].
        intros i0 p0 Hp0. left. apply elem_of_cons in Hin as [[= -> ->]|Hin].
        -- destruct (H2 [] o ops eq_refl Ho1 i0 p0 Hp0) as [|Hj]; [assumption|].
           apply elem_of_nil in Hj. contradiction.
        -- eapply H1; eassumption.
      * intros pre o1 post Eops Ho1.
        apply (exec_joined _ _ _ _ (fun i => pthread_join i ∈ pre) E).
        intros i p Hp.
        destruct (H2 (o :: pre) o1 post ltac:(rewrite Eops; reflexivity) Ho1 i p Hp)
          as [|Hj]; [left; assumption|].
        apply elem_of_cons in Hj as [<-|Hj]; [|right; exact Hj].
        left. apply exec_join in E as [E _]. unfold at_pc in Hp. congruence.
  - unfold poll_step. destruct (main_ops y) eqn:Eo; [|discriminate].
    destruct (main_at y); try discriminate.
    destruct (ExitFlag (shared y)); [discriminate|].
    destruct (event_loops_no_release (shared y) (main_dpy y) w e) as [N1 N2].
    destruct (MultiDisplays (Globals (shared y))); intros [= <-];
      (split; [exact H1|split; [|exact H3]]); cbn [main_goto main_ops shared];
      intros pre o post E Ho; exfalso;
      (eapply no_release_in; [|exact E|exact Ho]); assumption.
  - unfold thread_step.
    destruct (WinThreads (shared y) !! j) as [w|] eqn:Hw; [|discriminate].
    destruct (Threads (shared y) !! j) as [p|] eqn:Hp; [|discriminate].
    destruct (draw_loop (shared y) j w p) as [[ops p']|] eqn:Hd; [|discriminate].
    destruct (run_ops (RenderThread j) ops (shared y)) as [s'|] eqn:Hr; [|discriminate].
    intros [= <-]. unfold joined_inv. cbn [shared log main_ops].
    assert (Np : p <> Returned) by (intros ->; discriminate Hd).
    assert (Nr : Forall (fun o => releases_resource o = false) ops).
    { apply draw_loop_ops in Hd as [(_ & -> & _)|[(_ & -> & _)|(_ & _ & _ & Hpl & _)]];
        [repeat constructor|repeat constructor|].
      eapply Forall_impl; [exact Hpl|]. intros []; try discriminate; reflexivity. }
    destruct (run_lengths _ _ _ _ Hr) as [L1 L2].
    split; [|split].
    + intros t o Hin Ho. exfalso. unfold logged in Hin.
      apply elem_of_app in Hin as [Hin|Hin].
      * apply elem_of_reverse, list_elem_of_fmap in Hin as (o' & [= -> ->] & Hin).
        rewrite Forall_forall in Nr. rewrite (Nr _ Hin) in Ho. discriminate.
      * apply Np. eapply H1; [exact Hin|exact Ho|exact Hp].
    + intros pre o post E Ho i q Hq. rewrite at_pc_insert in Hq.
      destruct (decide (j = i)) as [->|Hne].
      * right. destruct (H2 pre o post E Ho i p Hp) as [|]; [contradiction|assumption].
      * eapply (run_joined _ _ _ _ (fun i => pthread_join i ∈ pre) Hr); [|exact Hq].
        intros i0 p0. apply (H2 pre o post E Ho).
    + cbn. rewrite length_insert. congruence.
Qed.

(** The order of the operations of [main_shutdown], by position. *)
Lemma main_shutdown_order (s : state) (dpy : Z) :
  let ops := main_shutdown s dpy in
  let n := NumWinThreads s in
  precedes is_join is_destroy ops
  /\ precedes is_join is_close ops
  /\ precedes is_destroy is_close ops
  /\ (forall i, (i < n)%nat -> ops !! i = Some (pthread_join i))
  /\ (forall i w, WinThreads s !! i = Some w ->
        ops !! (n + 2 * i)%nat = Some (glXDestroyContext (wt.Dpy w) (wt.Context w))
        /\ ops !! (n + 2 * i + 1)%nat = Some (XDestroyWindow (wt.Dpy w) (wt.Win w)))
  /\ (if MultiDisplays (Globals s)
      then forall i w, WinThreads s !! i = Some w ->
             ops !! (3 * n + i)%nat = Some (XCloseDisplay (wt.Dpy w))
      else ops !! (3 * n)%nat = Some (XCloseDisplay dpy))
  /\ length ops = (3 * n + (if MultiDisplays (Globals s) then n else 1))%nat
  /\ (forall t i s0 s1, exec_op t (pthread_join i) s0 = Some s1 ->
        Threads s0 !! i = Some Returned /\ s1 = s0)
  /\ (forall y w, shared y = s -> main_dpy y = dpy -> main_ops y = [] ->
        main_at y = InEventLoop w -> ExitFlag s = true ->
        main_step y = Some (main_goto ShuttingDown ops y)
        /\ main_step (main_goto ShuttingDown [] y)
           = Some (main_goto (MainReturned 0) [] y)).
Proof.
  intros ops n. subst ops n. unfold main_shutdown, clean_up, NumWinThreads.
  fold (destroy_ops (WinThreads s)).
  set (joins := pthread_join <$> seq 0 (length (WinThreads s))).
  set (closes := if MultiDisplays (Globals s)
                 then (fun w => XCloseDisplay (wt.Dpy w)) <$> WinThreads s
                 else [XCloseDisplay dpy]).
  assert (Lj : length joins = length (WinThreads s))
    by (subst joins; rewrite length_fmap, length_seq; reflexivity).
  assert (Kj : Forall (fun o => is_join o = true) joins)
    by (subst joins; apply Forall_fmap, Forall_forall; reflexivity).
  assert (Kc : Forall (fun o => is_close o = true) closes).
  { subst closes. destruct (MultiDisplays (Globals s)).
    - apply Forall_fmap, Forall_forall. reflexivity.
    - repeat constructor. }
  pose proof (destroy_ops_kind (WinThreads s)) as Kd.
  pose proof (destroy_ops_length (WinThreads s)) as Ld.
  split; [|split; [|split; [|split; [|split; [|split; [|split; [|split]]]]]]].
  - rewrite <- app_assoc. apply precedes_app.
    + eapply Forall_impl; [exact Kj|]. intros [] ?; try discriminate; reflexivity.
    + apply Forall_app. split.
      * eapply Forall_impl; [exact Kd|]. intros [] ?; try discriminate; reflexivity.
      * eapply Forall_impl; [exact Kc|]. intros [] ?; try discriminate; reflexivity.
  - rewrite <- app_assoc. apply precedes_app.
    + eapply Forall_impl; [exact Kj|]. intros [] ?; try discriminate; reflexivity.
    + apply Forall_app. split.
      * eapply Forall_impl; [exact Kd|]. intros [] ?; try discriminate; reflexivity.
      * eapply Forall_impl; [exact Kc|]. intros [] ?; try discriminate; reflexivity.
  - apply precedes_app.
    + apply Forall_app. split.
      * eapply Forall_impl; [exact Kj|]. intros [] ?; try discriminate; reflexivity.
      * eapply Forall_impl; [exact Kd|]. intros [] ?; try discriminate; reflexivity.
    + eapply Forall_impl; [exact Kc|]. intros [] ?; try discriminate; reflexivity.
  - intros i Hi. rewrite <- app_assoc, lookup_app_l by lia.
    subst joins. rewrite list_lookup_fmap, lookup_seq_lt by exact Hi. reflexivity.
  - intros i w Hi. pose proof (lookup_lt_Some _ _ _ Hi) as Hlt.
    destruct (destroy_ops_lookup _ _ _ Hi) as [H1 H2].
    assert (Hk : forall k x, destroy_ops (WinThreads s) !! k = Some x ->
              ((joins ++ destroy_ops (WinThreads s)) ++ closes)
                !! (length (WinThreads s) + k)%nat = Some x).
    { intros k x Hk. apply lookup_app_l_Some. rewrite lookup_app_r by lia.
      replace (length (WinThreads s) + k - length joins)%nat with k by lia. exact Hk. }
    split; [apply Hk, H1|].
    replace (length (WinThreads s) + 2 * i + 1)%nat
      with (length (WinThreads s) + (2 * i + 1))%nat by lia.
    apply Hk, H2.
  - subst closes. destruct (MultiDisplays (Globals s)).
    + intros i w Hi. rewrite lookup_app_r by (rewrite length_app; lia).
      rewrite length_app, Lj, Ld.
      replace (3 * length (WinThreads s) + i
               - (length (WinThreads s) + 2 * length (WinThreads s)))%nat with i by lia.
      rewrite list_lookup_fmap, Hi. reflexivity.
    + rewrite lookup_app_r by (rewrite length_app; lia).
      rewrite length_app, Lj, Ld.
      replace (3 * length (WinThreads s)
               - (length (WinThreads s) + 2 * length (WinThreads s)))%nat with 0%nat by lia.
      reflexivity.
  - rewrite !length_app, Lj, Ld. subst closes.
    destruct (MultiDisplays (Globals s)); [rewrite length_fmap|]; cbn; lia.
  - intros t i s0 s1. apply exec_join.
  - intros y w Hs Hd Ho Ha He. split.
    + unfold main_step. rewrite Ho, Ha, Hs, He, Hd. reflexivity.
    + reflexivity.
Qed.

Lemma initial_joined_inv (g : globals) (dpy : Z) (ws : list wt.winthread) :
  joined_inv (boot dpy (initial_state g ws)).
Proof.
  unfold joined_inv. cbn. split; [|split].
  - intros t o Hin. apply elem_of_nil in Hin. contradiction.
  - intros pre o post E. destruct pre; discriminate.
  - apply length_fmap.
Qed.

(** C5. When the event loop has returned, [main] performs, in this order:
    a [pthread_join] for every thread, which returns only once that thread
    has returned; then for each record its context's destruction followed
    by its window's; then the closing of every connection (each record's in
    per-connection mode, else the shared one); then it returns 0.  So every
    join comes before every destruction and every destruction before every
    close, and in every execution, once a context, a window or a connection
    has been given up, every render thread has returned. *)
Theorem shutdown_order (g : globals) (dpy : Z) (ws : list wt.winthread)
    (ls : list label) (y : system) :
  run ls (boot dpy (initial_state g ws)) = Some y ->
  (forall t o, (t, o) ∈ log y -> releases_resource o = true ->
     Forall (fun p => p = Returned) (Threads (shared y)))
  /\ (forall s d,
        let ops := main_shutdown s d in
        let n := NumWinThreads s in
        precedes is_join is_destroy ops
        /\ precedes is_join is_close ops
        /\ precedes is_destroy is_close ops
        /\ (forall i, (i < n)%nat -> ops !! i = Some (pthread_join i))
        /\ (forall i w, WinThreads s !! i = Some w ->
              ops !! (n + 2 * i)%nat = Some (glXDestroyContext (wt.Dpy w) (wt.Context w))
              /\ ops !! (n + 2 * i + 1)%nat = Some (XDestroyWindow (wt.Dpy w) (wt.Win w)))
        /\ (if MultiDisplays (Globals s)
            then forall i w, WinThreads s !! i = Some w ->
                   ops !! (3 * n + i)%nat = Some (XCloseDisplay (wt.Dpy w))
            else ops !! (3 * n)%nat = Some (XCloseDisplay d))
        /\ length ops = (3 * n + (if MultiDisplays (Globals s) then n else 1))%nat)
  /\ (forall t i s0 s1, exec_op t (pthread_join i) s0 = Some s1 ->
        Threads s0 !! i = Some Returned /\ s1 = s0)
  /\ (forall y0 w, main_ops y0 = [] -> main_at y0 = InEventLoop w ->
        ExitFlag (shared y0) = true ->
        main_step y0
        = Some (main_goto ShuttingDown (main_shutdown (shared y0) (main_dpy y0)) y0)
        /\ main_step (main_goto ShuttingDown [] y0)
           = Some (main_goto (MainReturned 0) [] y0)).
Proof.
  intros Hrun. split; [|split; [|split]].
  - assert (H : joined_inv y).
    { eapply (run_invariant joined_inv); [|apply initial_joined_inv|exact Hrun].
      intros l y1 y2. apply joined_inv_step. }
    destruct H as (H1 & _ & _). intros t o Hin Ho.
    apply Forall_lookup. intros i p Hp. eapply H1; eassumption.
  - intros s d. destruct (main_shutdown_order s d)
      as (A1 & A2 & A3 & A4 & A5 & A6 & A7 & _).
    exact (conj A1 (conj A2 (conj A3 (conj A4 (conj A5 (conj A6 A7)))))).
  - intros t i s0 s1. apply exec_join.
  - intros y0 w Ho Ha He. destruct (main_shutdown_order (shared y0) (main_dpy y0))
      as (_ & _ & _ & _ & _ & _ & _ & _ & H).
    apply (H y0 w); auto.
Qed.

Lemma shutdown_order_witness :
  exists y, run shutdown_schedule (boot 1000 (setup_state ["glthreads"])) = Some y
    /\ (MainThread, XCloseDisplay 1000) ∈ log y
    /\ Forall (fun p => p = Returned) (Threads (shared y)).
Proof.
  destruct (run shutdown_schedule (boot 1000 (setup_state ["glthreads"])))
    as [y|] eqn:E; [|vm_compute in E; discriminate].
  exists y. split; [reflexivity|].
  assert (Hin : (MainThread, XCloseDisplay 1000) ∈ log y).
  { vm_compute in E. injection E as <-. cbn [log]. apply list_elem_of_here. }
  split; [exact Hin|].
  destruct (shutdown_order initial_globals 1000 (WinThreads (setup_state ["glthreads"]))
              shutdown_schedule y E) as [H _].
  exact (H _ _ Hin eq_refl).
Defined.


(** ** Exit codes *)

Lemma create_window_ok (a : answers) (i : nat) (d sh : Z) :
  create_ok a i = true -> exists ops w, create_window a i d sh = (ops, Some w).
Proof.
  unfold create_ok, create_window. intros H.
  repeat (apply andb_prop in H; destruct H as [H ?]).
  repeat match goal with E : negb _ = true |- _ =>
    apply negb_true_iff in E; rewrite E; clear E end.
  eexists _, _. reflexivity.
Qed.

Lemma create_window_fail (a : answers) (i : nat) (d sh : Z) :
  create_ok a i = false -> exists ops, create_window a i d sh = (ops, None).
Proof.
  unfold create_ok, create_window. intros H.
  destruct (glXChooseVisual_ret a i =? 0); [eexists; reflexivity|].
  destruct (XCreateWindow_ret a i =? 0); [eexists; reflexivity|].
  destruct (glXCreateContext_ret a i =? 0); [eexists; reflexivity|].
  destruct (pthread_mutex_init_ret a i =? -1); [eexists; reflexivity|].
  destruct (pthread_mutex_lock_ret a i =? -1); [eexists; reflexivity|].
  discriminate.
Qed.

(** The window loop when the records before position [j] are set up and
    record [i + j] is not: by [Error] if a check of [create_window] fails,
    by [assert] if its own connection cannot be opened. *)
Lemma create_windows_stops (a : answers) (g : globals) (name : option string) (dpy : Z)
    (j k i : nat) (ws : list wt.winthread) :
  (j < k)%nat ->
  (forall m, (m < j)%nat ->
     create_ok a (i + m) = true
     /\ (MultiDisplays g = true -> XOpenDisplay_ret a (i + m) <> 0)) ->
  (MultiDisplays g = true -> XOpenDisplay_ret a (i + j) = 0 ->
   snd (create_windows a g name dpy k i ws) = Abort)
  /\ ((MultiDisplays g = true -> XOpenDisplay_ret a (i + j) <> 0) ->
      create_ok a (i + j) = false ->
      snd (create_windows a g name dpy k i ws) = Exit 1).
Proof.
  revert k i ws. induction j as [|j IH]; intros k i ws Hk Hok.
  - destruct k as [|k]; [lia|]. rewrite Nat.add_0_r. cbn [create_windows]. split.
    + intros Hm H0. rewrite Hm, H0. reflexivity.
    + intros Hd Hf.
      assert (E : MultiDisplays g
                  && ((if MultiDisplays g then XOpenDisplay_ret a i else dpy) =? 0) = false).
      { destruct (MultiDisplays g); [|reflexivity]. cbn. apply Z.eqb_neq, Hd. reflexivity. }
      rewrite E.
      destruct (create_window_fail a i
                  (if MultiDisplays g then XOpenDisplay_ret a i else dpy)
                  (if Texture g && bool_decide (0 < i)%nat
                   then from_option wt.Context 0 (ws !! 0%nat) else 0) Hf) as [ops ->].
      reflexivity.
  - destruct k as [|k]; [lia|]. cbn [create_windows].
    destruct (Hok 0%nat ltac:(lia)) as [Hc Hd]. rewrite Nat.add_0_r in Hc, Hd.
    assert (E : MultiDisplays g
                && ((if MultiDisplays g then XOpenDisplay_ret a i else dpy) =? 0) = false).
    { destruct (MultiDisplays g); [|reflexivity]. cbn. apply Z.eqb_neq, Hd. reflexivity. }
    rewrite E.
    destruct (create_window_ok a i
                (if MultiDisplays g then XOpenDisplay_ret a i else dpy)
                (if Texture g && bool_decide (0 < i)%nat
                 then from_option wt.Context 0 (ws !! 0%nat) else 0) Hc) as (ops & w & ->).
    destruct (IH k (S i) (ws ++ [w]) ltac:(lia)) as [IH1 IH2].
    { intros m Hm. replace (S i + m)%nat with (i + S m)%nat by lia. apply Hok. lia. }
    replace (S i + j)%nat with (i + S j)%nat in IH1, IH2 by lia.
    destruct (create_windows a g name dpy k (S i) (ws ++ [w])) as [ops' r].
    cbn [snd] in *. split; assumption.
Qed.

(** [ExitFlag] is never cleared. *)
Lemma run_exit_mono (t : thread) (ops : list op) (s s' : state) :
  run_ops t ops s = Some s' -> ExitFlag s = true -> ExitFlag s' = true.
Proof.
  revert s. induction ops as [|o ops IH]; intros s H E; cbn in H.
  - injection H as <-. exact E.
  - destruct (exec_op t o s) as [s1|] eqn:X; [|discriminate].
    eapply IH; [exact H|]. destruct (exec_effects 0 _ _ _ _ X) as (M & _). auto.
Qed.

Lemma returned_inv_step (l : label) (y y' : system) :
  returned_inv y -> sys_step l y = Some y' -> returned_inv y'.
Proof.
  unfold returned_inv, sys_step. intros H.
  destruct (Aborted (shared y)); [discriminate|]. destruct l as [|e|j].
  - unfold main_step. destruct (main_ops y) as [|o ops].
    + destruct (main_at y) as [k|w| |c].
      * destruct (bool_decide _); intros [= <-]; exact I.
      * destruct (ExitFlag (shared y)) eqn:E; [|discriminate]. intros [= <-]. exact E.
      * intros [= <-]. split; [reflexivity|exact H].
      * discriminate.
    + destruct (exec_op MainThread o (shared y)) as [s'|] eqn:X; [|discriminate].
      intros [= <-]. cbn [main_at shared].
      destruct (exec_effects 0 _ _ _ _ X) as (M & _).
      destruct (main_at y); try exact I; [auto|]. destruct H as [-> H]. auto.
  - unfold poll_step. destruct (main_ops y); [|discriminate].
    destruct (main_at y); try discriminate.
    destruct (ExitFlag (shared y)); [discriminate|].
    destruct (MultiDisplays (Globals (shared y))); intros [= <-]; exact I.
  - unfold thread_step.
    destruct (WinThreads (shared y) !! j); [|discriminate].
    destruct (Threads (shared y) !! j); [|discriminate].
    destruct (draw_loop _ _ _ _) as [[ops p']|]; [|discriminate].
    destruct (run_ops (RenderThread j) ops (shared y)) as [s'|] eqn:R; [|discriminate].
    intros [= <-]. cbn [main_at shared]. pose proof (run_exit_mono _ _ _ _ R) as M.
    destruct (main_at y); try exact I; [auto|]. destruct H as [-> H]. auto.
Qed.

(** C4, as the code has it.  [main] returns 0 after a normal shutdown.  A
    failed check of [create_window] (no visual, no window, no context, or -1
    from the initialisation or the locking of the gate) ends the process
    through [Error] with status 1.  A display that cannot be opened does
    not: with the shared connection [main] returns -1, and in per-connection
    mode the [assert] on the record's connection aborts the process.  In
    every execution, when [main] has returned from the shutdown, it has
    returned 0 and [ExitFlag] is set. *)
Theorem setup_exit_codes (a : answers) (argv : list string) (c : cmdline) (k : nat) :
  snd (main_args argv) = Some c ->
  (k < Z.to_nat (numThreads c))%nat ->
  (forall m, (m < k)%nat ->
     create_ok a m = true
     /\ (MultiDisplays (cl_globals c) = true -> XOpenDisplay_ret a m <> 0)) ->
  (MultiDisplays (cl_globals c) = false -> XOpenDisplay_ret a 0 = 0 ->
   snd (main_setup a argv) = Exit (-1))
  /\ (MultiDisplays (cl_globals c) = true -> XOpenDisplay_ret a k = 0 ->
      snd (main_setup a argv) = Abort)
  /\ ((if MultiDisplays (cl_globals c) then XOpenDisplay_ret a k else XOpenDisplay_ret a 0) <> 0 ->
      create_ok a k = false ->
      snd (main_setup a argv) = Exit 1)
  /\ (create_ok a k = false <->
      glXChooseVisual_ret a k = 0 \/ XCreateWindow_ret a k = 0
      \/ glXCreateContext_ret a k = 0
      \/ pthread_mutex_init_ret a k = -1 \/ pthread_mutex_lock_ret a k = -1)
  /\ (forall y, main_step (main_goto ShuttingDown [] y)
                = Some (main_goto (MainReturned 0) [] y))
  /\ (forall g d ws ls y code,
        run ls (boot d (initial_state g ws)) = Some y ->
        main_at y = MainReturned code -> code = 0 /\ ExitFlag (shared y) = true).
Proof.
  intros Ha Hk Hok.
  destruct (create_windows_stops a (cl_globals c) (displayName c)
              (if negb (MultiDisplays (cl_globals c)) then XOpenDisplay_ret a 0 else 0)
              k (Z.to_nat (numThreads c)) 0 [] Hk Hok) as [Hab Hex].
  cbn [Nat.add] in Hab, Hex.
  unfold main_setup. destruct (main_args argv) as [ops0 [c'|]]; cbn [snd] in Ha;
    [injection Ha as ->|discriminate].
  split; [|split; [|split; [|split; [|split]]]].
  - intros Hm H0. rewrite Hm, H0. reflexivity.
  - intros Hm H0. rewrite Hm. cbn [negb andb]. rewrite Hm in Hab.
    cbn [negb] in Hab. specialize (Hab eq_refl H0).
    destruct (create_windows _ _ _ _ _ _ _) as [ops r]. cbn [snd] in Hab. subst r.
    reflexivity.
  - intros Hd Hf. destruct (MultiDisplays (cl_globals c)) eqn:Hm; cbn [negb andb] in *.
    + specialize (Hex (fun _ => Hd) Hf).
      destruct (create_windows _ _ _ _ _ _ _) as [ops r]. cbn [snd] in Hex. subst r.
      reflexivity.
    + apply Z.eqb_neq in Hd. rewrite Hd.
      specialize (Hex ltac:(discriminate) Hf).
      destruct (create_windows _ _ _ _ _ _ _) as [ops r]. cbn [snd] in Hex. subst r.
      reflexivity.
  - unfold create_ok. rewrite !andb_false_iff, !negb_false_iff, !Z.eqb_eq. tauto.
  - reflexivity.
  - intros g d ws ls y code Hrun Hat.
    assert (H : returned_inv y).
    { assert (H0 : returned_inv (boot d (initial_state g ws))) by exact I.
      eapply (run_invariant returned_inv); [|exact H0|exact Hrun].
      intros l y1 y2. apply returned_inv_step. }
    unfold returned_inv in H. rewrite Hat in H. exact H.
Qed.

Lemma setup_exit_codes_witness :
  snd (main_setup no_visual ["glthreads"; "-n"; "3"]) = Exit 1.
Proof.
  apply (setup_exit_codes no_visual ["glthreads"; "-n"; "3"]
           (set_numThreads 3 initial_cmdline) 1).
  - reflexivity.
  - vm_compute. lia.
  - intros m Hm. assert (m = 0%nat) as -> by lia. split; [reflexivity|discriminate].
  - vm_compute. discriminate.
  - reflexivity.
Defined.

(** What the specification says in C4 of a display that cannot be opened
    does not hold: [main]
    then returns -1, which is not the status 1 (the parent sees 255). *)
Lemma unreachable_display_status :
  snd (main_setup no_display ["glthreads"]) = Exit (-1)
  /\ Z.land (-1) 255 = 255
  /\ snd (main_setup no_display ["glthreads"; "-p"]) = Abort.
Proof. repeat split. Qed.

(** ** The gate and the presents *)

Lemma initial_gate_inv (g : globals) (dpy : Z) (ws : list wt.winthread) (i : nat) :
  Forall (fun w => wt.Ready w = true) ws ->
  gate_inv i (boot dpy (initial_state g ws)).
Proof.
  intros Hws. unfold gate_inv. cbn. split; [reflexivity|]. split.
  - unfold gate. cbn. intros H.
    destruct (ws !! i) as [w|] eqn:E; [|discriminate].
    rewrite Forall_lookup in Hws. cbn in H. rewrite (Hws _ _ E) in H. discriminate.
  - unfold at_pc. cbn. intros p H. rewrite list_lookup_fmap in H.
    destruct (ws !! i); [|discriminate]. injection H as <-. discriminate.
Qed.

(** C10, as the code has it.  In either mode an iteration of [draw_loop]
    starts by locking the gate of its record, which [create_window] leaves
    locked and which blocks while it is locked.  Along every execution, each
    present of a thread follows a locking of its gate by that thread with no
    other present of it in between, and each such locking follows a release
    of the gate with no other locking in between: a frame needs a release of
    the gate since the thread last took it. *)
Theorem presents_need_gate (g : globals) (dpy : Z) (ws : list wt.winthread) (i : nat)
    (ls : list label) (y : system) :
  Forall (fun w => wt.Ready w = true) ws ->
  run ls (boot dpy (initial_state g ws)) = Some y ->
  gm_ok (gate_monitor i (log y)) = true
  /\ (forall s w, draw_loop s i w AtWhile
                  = Some ([], if ExitFlag s then Returned else AtLockReady)
                  /\ draw_loop s i w AtLockReady
                     = Some ([pthread_mutex_lock (M_Ready i)], AtCheckExit))
  /\ (forall t s, gate i s = Some true ->
        exec_op t (pthread_mutex_lock (M_Ready i)) s = None)
  /\ (forall a d sh ops w, create_window a i d sh = (ops, Some w) ->
        pthread_mutex_lock_ret a i = 0 -> wt.Ready w = true).
Proof.
  intros Hws Hrun. split; [|split; [|split]].
  - assert (H : gate_inv i y).
    { eapply (run_invariant (gate_inv i)); [|apply initial_gate_inv, Hws|exact Hrun].
      intros l y1 y2. apply gate_inv_step. }
    apply H.
  - intros s w. split; reflexivity.
  - intros t s H. unfold gate in H. cbn.
    destruct (WinThreads s !! i) as [w|]; [|reflexivity].
    cbn in H. injection H as ->. reflexivity.
  - intros a d sh ops w H H0. unfold create_window in H.
    repeat match type of H with
           | (if ?c then _ else _) = _ => destruct c; [discriminate|]
           end.
    injection H as _ <-. cbn. apply bool_decide_eq_true_2, H0.
Qed.

Lemma presents_need_gate_witness :
  exists y, run two_frames_schedule (boot 1000 (setup_state ["glthreads"])) = Some y
    /\ gm_ok (gate_monitor 0 (log y)) = true.
Proof.
  destruct (run two_frames_schedule (boot 1000 (setup_state ["glthreads"])))
    as [y|] eqn:E; [|vm_compute in E; discriminate].
  exists y. split; [reflexivity|].
  apply (presents_need_gate initial_globals 1000
           (WinThreads (setup_state ["glthreads"])) 0 two_frames_schedule y).
  - vm_compute. repeat constructor.
  - exact E.
Defined.

(** C10 as the specification words it does not hold: in this execution the
    second present
    of thread 0 comes with no release of its gate since its first present
    (the release came before, while the thread was inside the first
    frame); the gate discipline of the theorem above holds. *)
Lemma present_without_release_since_last :
  (presents 0 ∘ log) <$> run two_frames_schedule (boot 1000 (setup_state ["glthreads"]))
  = Some 2%nat
  /\ (rp_ok ∘ release_monitor 0 ∘ log)
       <$> run two_frames_schedule (boot 1000 (setup_state ["glthreads"]))
     = Some false
  /\ (gm_ok ∘ gate_monitor 0 ∘ log)
       <$> run two_frames_schedule (boot 1000 (setup_state ["glthreads"]))
     = Some true.
Proof. vm_compute. repeat split. Qed.

(** ** Waking during shutdown *)

Lemma shutdown_monitors_plain (i : nat) (t : thread) (ops : list op) (l : list (thread * op)) :
  Forall (fun o => plain o = true) ops ->
  exit_seen (logged t ops l) = exit_seen l
  /\ woke_in_shutdown i (logged t ops l) = woke_in_shutdown i l
  /\ (woke_in_shutdown i l = false ->
      quiet_shutdown i (logged t ops l) = quiet_shutdown i l).
Proof.
  revert l. induction ops as [|o ops IH]; intros l Hp; [repeat split|].
  inversion Hp as [|? ? Ho Hops]; subst. rewrite logged_cons.
  destruct (IH ((t, o) :: l) Hops) as (E1 & E2 & E3).
  assert (A1 : is_exit (t, o) = false) by (destruct o; try discriminate Ho; reflexivity).
  assert (A2 : is_acquire i (t, o) = false).
  { destruct t; [reflexivity|]. destruct o; try reflexivity.
    match goal with m : mutex |- _ => destruct m end;
      try reflexivity; discriminate Ho. }
  cbn [exit_seen woke_in_shutdown quiet_shutdown] in E1, E2, E3.
  rewrite A1, A2 in *. cbn in E1, E2, E3.
  split; [exact E1|]. split; [exact E2|].
  intros W. rewrite (E3 W), W, andb_false_r. reflexivity.
Qed.

Lemma quiet_other_thread (i j : nat) (ops : list op) (l : list (thread * op)) :
  j <> i -> quiet_shutdown i (logged (RenderThread j) ops l) = quiet_shutdown i l.
Proof.
  intros Hne. revert l. induction ops as [|o ops IH]; intros l; [reflexivity|].
  rewrite logged_cons, IH. cbn [quiet_shutdown is_draw].
  rewrite bool_decide_eq_false_2 by exact Hne. reflexivity.
Qed.

Lemma shutdown_inv_step (i : nat) (l : label) (y y' : system) :
  shutdown_inv i y -> sys_step l y = Some y' -> shutdown_inv i y'.
Proof.
  intros (Hx & Hw & Hq) Hs. unfold shutdown_inv.
  destruct (sys_step_visible i l y y' Hs)
    as [o E L| E L| j Pj Gj G P X L| j d w Pj G P X L| j p p' ops Pj N1 N2 N3 Hpl Hin Hdr Hce G P X L];
    rewrite L.
  - destruct (exec_effects i _ _ _ _ E) as (Xm & _ & _ & _ & _).
    destruct (exec_view i _ _ _ _ E) as (_ & Pv & Xv & Cv).
    cbn [exit_seen woke_in_shutdown quiet_shutdown is_acquire is_draw].
    cbn [andb orb negb]. split; [|split; [|exact Hq]].
    + intros H. apply orb_true_iff in H as [H|H]; [|auto].
      rewrite Xv. destruct o; try discriminate H. reflexivity.
    + intros W. destruct (Hw W) as (Ex & Hp). split; [auto|].
      rewrite Pv.
      destruct o; try exact Hp.
      * destruct Hp as [Hp|Hp]; rewrite Hp; cbn; auto.
      * match goal with |- context [decide (?k = i)] =>
          destruct (decide (k = i)) as [->|]; [|exact Hp] end.
        specialize (Cv eq_refl). destruct Hp as [Hp|Hp]; congruence.
  - rewrite E. repeat split; try assumption; apply Hw; assumption.
  - cbn [exit_seen woke_in_shutdown quiet_shutdown is_exit is_acquire is_draw is_drawing].
    rewrite andb_false_r, X. cbn [orb negb andb]. split; [exact Hx|]. split; [|exact Hq].
    destruct (decide (j = i)) as [->|Hne].
    + rewrite !bool_decide_eq_true_2 by reflexivity. cbn [andb]. rewrite P.
      intros W. split; [|left; reflexivity].
      apply orb_true_iff in W as [W|W]; [auto|apply Hw, W].
    + rewrite (bool_decide_eq_false_2 (j = i)) by exact Hne. cbn [andb orb]. rewrite P.
      exact Hw.
  - cbn [exit_seen woke_in_shutdown quiet_shutdown is_exit is_acquire is_draw is_drawing].
    rewrite X. cbn [orb]. split; [exact Hx|].
    destruct (decide (j = i)) as [->|Hne].
    + rewrite bool_decide_eq_true_2 by reflexivity. cbn [andb].
      destruct (woke_in_shutdown i (log y)) eqn:W.
      * destruct (Hw eq_refl) as (_ & [Hp|Hp]); congruence.
      * split; [discriminate|]. exact Hq.
    + rewrite (bool_decide_eq_false_2 (j = i)) by exact Hne. cbn [andb negb]. rewrite P.
      split; [exact Hw|exact Hq].
  - destruct (shutdown_monitors_plain i (RenderThread j) ops (log y) Hpl) as (E1 & E2 & E3).
    rewrite E1, E2, X. split; [exact Hx|].
    destruct (woke_in_shutdown i (log y)) eqn:W.
    + destruct (Hw eq_refl) as (Ex & Hp). rewrite P.
      destruct (decide (j = i)) as [->|Hne].
      * assert (p = AtCheckExit) as -> by (destruct Hp as [Hp|Hp]; congruence).
        destruct (Hce eq_refl) as [-> ->]. rewrite Ex. cbn [logged]. 
        split; [|exact Hq]. intros _. split; [reflexivity|right; reflexivity].
      * split; [intros _; split; assumption|].
        rewrite quiet_other_thread by exact Hne. exact Hq.
    + split; [discriminate|]. rewrite (E3 eq_refl). exact Hq.
Qed.

(** C2. A render thread that takes its gate after [ExitFlag] has been set
    (as when the exit-key handler has released the gate) finds [ExitFlag]
    set at the test that follows, leaves the loop there and returns: in the
    log no drawing call and no present of that thread follows such a taking
    of the gate. *)
Theorem shutdown_wake_exits (y0 : system) (i : nat) (ls : list label) (y : system) :
  log y0 = [] ->
  run ls y0 = Some y ->
  quiet_shutdown i (log y) = true
  /\ (woke_in_shutdown i (log y) = true ->
      ExitFlag (shared y) = true
      /\ (at_pc i (shared y) = Some AtCheckExit \/ at_pc i (shared y) = Some Returned))
  /\ (forall s w, ExitFlag s = true -> draw_loop s i w AtCheckExit = Some ([], Returned))
  /\ (forall s w, draw_loop s i w Returned = None)
  /\ (forall o, is_present o = true -> is_drawing o = true).
Proof.
  intros Hl Hrun.
  assert (H : shutdown_inv i y).
  { eapply (run_invariant (shutdown_inv i)); [| |exact Hrun].
    - intros l y1 y2. apply shutdown_inv_step.
    - unfold shutdown_inv. rewrite Hl. cbn. repeat split; discriminate. }
  destruct H as (_ & Hw & Hq).
  split; [exact Hq|]. split; [exact Hw|]. split; [|split].
  - intros s w E. cbn. rewrite E. reflexivity.
  - reflexivity.
  - intros []; try discriminate; reflexivity.
Qed.

Lemma shutdown_wake_exits_witness :
  exists y, run shutdown_schedule (boot 1000 (setup_state ["glthreads"])) = Some y
    /\ quiet_shutdown 0 (log y) = true
    /\ woke_in_shutdown 0 (log y) = true
    /\ main_at y = MainReturned 0.
Proof.
  destruct (run shutdown_schedule (boot 1000 (setup_state ["glthreads"])))
    as [y|] eqn:E; [|vm_compute in E; discriminate].
  exists y. split; [reflexivity|]. split.
  - apply (shutdown_wake_exits (boot 1000 (setup_state ["glthreads"])) 0
             shutdown_schedule y eq_refl E).
  - vm_compute in E. injection E as <-. split; reflexivity.
Defined.

(** ** The step key *)











(** ** Roles of the threads *)

Lemma exec_Globals (t : thread) (o : op) (s s' : state) :
  exec_op t o s = Some s' -> Globals s' = Globals s.
Proof.
  intros H. destruct o; try (match goal with m : mutex |- _ => destruct m end);
    exec_cases H; reflexivity.
Qed.

Lemma run_Globals (t : thread) (ops : list op) (s s' : state) :
  run_ops t ops s = Some s' -> Globals s' = Globals s.
Proof.
  revert s. induction ops as [|o ops IH]; intros s H; cbn in H.
  - injection H as <-. reflexivity.
  - destruct (exec_op t o s) as [s1|] eqn:E; [|discriminate].
    rewrite (IH _ H). eapply exec_Globals, E.
Qed.

Lemma MakeNewTexture_role (s : state) (g : globals) (i : nat) :
  Forall (fun o => render_op g i o = true) (MakeNewTexture s).
Proof.
  unfold MakeNewTexture.
  destruct (TexWidth s =? 0); [|destruct (TexWidth s =? TEX_SIZE)]; repeat constructor.
Qed.

Lemma draw_loop_role (s : state) (i : nat) (w : wt.winthread) (p p' : pc) (ops : list op) :
  draw_loop s i w p = Some (ops, p') ->
  Forall (fun o => render_op (Globals s) i o = true) ops.
Proof.
  intros H. unfold draw_loop in H.
  assert (HL : forall d, Forall (fun o => render_op (Globals s) i o = true) (LOCK (Globals s) d)).
  { intros d. unfold LOCK. destruct (Locking (Globals s)) eqn:L;
      [|destruct (MultiDisplays (Globals s)) eqn:M]; repeat constructor; cbn;
      rewrite ?L, ?M; reflexivity. }
  assert (HU : forall d, Forall (fun o => render_op (Globals s) i o = true) (UNLOCK (Globals s) d)).
  { intros d. unfold UNLOCK. destruct (Locking (Globals s)) eqn:L;
      [|destruct (MultiDisplays (Globals s)) eqn:M]; repeat constructor; cbn;
      rewrite ?L, ?M; reflexivity. }
  assert (Hi : bool_decide (i = i) = true) by (apply bool_decide_eq_true_2; reflexivity).
  destruct p; cbv beta iota zeta in H; try discriminate.
  - injection H as <- <-. constructor.
  - injection H as <- <-. repeat constructor. exact Hi.
  - injection H as <- <-. constructor.
  - injection H as <- <-. apply HL.
  - injection H as <- <-. constructor; [reflexivity|].
    destruct (wt.Initialized w); cbn; [constructor|].
    repeat constructor. apply Forall_app. split; [|repeat constructor; exact Hi].
    destruct (Texture (Globals s)); [apply MakeNewTexture_role|constructor].
  - injection H as <- <-. apply HU.
  - injection H as <- <-. constructor; [reflexivity|].
    destruct (wt.NewSize w); repeat constructor. exact Hi.
  - injection H as <- <-. destruct (wt.MakeNewTexture w); [|constructor].
    change (Forall (fun o => render_op (Globals s) i o = true)
              (MakeNewTexture s ++ [set_MakeNewTexture i false])).
    apply Forall_app. split; [apply MakeNewTexture_role|repeat constructor; exact Hi].
  - injection H as <- <-. repeat constructor. cbn.
    apply bool_decide_eq_true_2. reflexivity.
  - injection H as <- <-. apply HL.
  - injection H as <- <-. repeat constructor.
  - injection H as <- <-. apply HU.
  - destruct (Animate (Globals s)) eqn:A; injection H as <- <-; repeat constructor.
  - injection H as <- <-. repeat constructor.
  - injection H as <- <-. repeat constructor.
  - injection H as <- <-. repeat constructor.
Qed.

Lemma keypress_role (s : state) (K : Z) (i : nat) :
  Forall (fun o => main_op (Globals s) o = true) (keypress s K i).
Proof.
  unfold keypress, release_all, signal_redraw.
  destruct (K =? XK_Escape).
  - apply Forall_app. split.
    + destruct (Animate (Globals s)) eqn:A; repeat constructor; cbn; rewrite A; reflexivity.
    + constructor; [reflexivity|]. apply Forall_fmap, Forall_forall. reflexivity.
  - destruct (_ || _); [|destruct (_ || _)].
    + destruct (Texture (Globals s)) eqn:T; [|constructor].
      constructor; [exact T|].
      destruct (Animate (Globals s)) eqn:A; repeat constructor; cbn; rewrite A; reflexivity.
    + destruct (Animate (Globals s)) eqn:A; repeat constructor; cbn; rewrite A; reflexivity.
    + constructor.
Qed.

Lemma handle_role (s : state) (i : nat) (w : wt.winthread) (e : XEvent) :
  Forall (fun o => main_op (Globals s) o = true) (handle s i w e).
Proof.
  destruct e; cbn [handle]; try (repeat constructor; fail).
  - unfold resize, signal_redraw.
    destruct (Animate (Globals s)) eqn:A; repeat constructor; cbn; rewrite A; reflexivity.
  - unfold motion. destruct (any_button _); repeat constructor.
  - apply keypress_role.
Qed.

Lemma event_loop_role (s : state) (d : Z) (e : option XEvent) :
  MultiDisplays (Globals s) = false ->
  Forall (fun o => main_op (Globals s) o = true) (event_loop s d e).
Proof.
  intros M.
  assert (HL : Forall (fun o => main_op (Globals s) o = true) (LOCK (Globals s) d)).
  { unfold LOCK. rewrite M. destruct (Locking (Globals s)) eqn:L;
      repeat constructor; cbn; rewrite L, M; reflexivity. }
  assert (HU : Forall (fun o => main_op (Globals s) o = true) (UNLOCK (Globals s) d)).
  { unfold UNLOCK. rewrite M. destruct (Locking (Globals s)) eqn:L;
      repeat constructor; cbn; rewrite L, M; reflexivity. }
  unfold event_loop. apply Forall_app. split; [exact HL|].
  constructor; [reflexivity|]. destruct e as [e|].
  - constructor; [reflexivity|]. apply Forall_app. split; [exact HU|].
    unfold dispatch. destruct (event_window e); [|constructor].
    destruct (find_window _ _) as [[i r]|]; [apply handle_role|constructor].
  - apply Forall_app. split; [exact HU|repeat constructor].
Qed.

Lemma event_loop_multi_role (s : state) (w : nat) (e : option XEvent) :
  Forall (fun o => main_op (Globals s) o = true) (event_loop_multi s w e).
Proof.
  unfold event_loop_multi. destruct (WinThreads s !! w) as [r|]; [|constructor].
  constructor; [reflexivity|]. apply Forall_app. split; [|repeat constructor].
  destruct e as [e|]; [|constructor].
  constructor; [reflexivity|]. apply handle_role.
Qed.

Lemma main_shutdown_role (s : state) (d : Z) (g : globals) :
  Forall (fun o => main_op g o = true) (main_shutdown s d).
Proof.
  unfold main_shutdown, clean_up. fold (destroy_ops (WinThreads s)).
  apply Forall_app. split; [apply Forall_app; split|].
  - apply Forall_fmap, Forall_forall. reflexivity.
  - eapply Forall_impl; [apply destroy_ops_kind|]. intros [] ?; try discriminate; reflexivity.
  - destruct (MultiDisplays (Globals s)); [|repeat constructor].
    apply Forall_fmap, Forall_forall. reflexivity.
Qed.

Lemma main_next_role (y : system) (l : label) (p : main_pc) (ops : list op) :
  main_next y l p ops -> Forall (fun o => main_op (Globals (shared y)) o = true) ops.
Proof.
  intros [i A B|i A B|w A B|A|w e A B].
  - repeat constructor.
  - constructor.
  - apply main_shutdown_role.
  - constructor.
  - destruct (MultiDisplays (Globals (shared y))) eqn:M.
    + apply event_loop_multi_role.
    + apply event_loop_role, M.
Qed.

(** Every step of the system is of one of the three kinds. *)
Lemma sys_step_kind (l : label) (y y' : system) :
  sys_step l y = Some y' ->
  Forall (fun o => main_op (Globals (shared y)) o = true) (main_ops y) ->
  step_kind (Globals (shared y)) y y' l /\ Aborted (shared y) = false.
Proof.
  unfold sys_step. destruct (Aborted (shared y)); [discriminate|].
  intros H Hops. split; [|reflexivity]. destruct l as [|e|j].
  - unfold main_step in H. destruct (main_ops y) as [|o ops] eqn:Eo.
    + assert (K : forall p ops, main_next y Main_runs p ops ->
                  step_kind (Globals (shared y)) y (main_goto p ops y) Main_runs).
      { intros p ops N. eapply k_next; try reflexivity; [exact Eo|exact N|].
        eapply main_next_role, N. }
      destruct (main_at y) as [k|w| |c] eqn:Ea.
      * destruct (bool_decide _) eqn:B; injection H as <-; apply K.
        -- apply n_create; [exact Ea|]. apply bool_decide_eq_true in B. exact B.
        -- apply (n_loop y k); [exact Ea|]. apply bool_decide_eq_false in B. exact B.
      * destruct (ExitFlag (shared y)) eqn:X; [|discriminate]. injection H as <-.
        apply K. eapply n_shutdown; [exact Ea|exact X].
      * injection H as <-. apply K. apply n_return. exact Ea.
      * discriminate.
    + destruct (exec_op MainThread o (shared y)) as [s'|] eqn:E; [|discriminate].
      injection H as <-. inversion Hops; subst.
      eapply k_op; try reflexivity; assumption.
  - unfold poll_step in H. destruct (main_ops y) eqn:Eo; [|discriminate].
    destruct (main_at y) eqn:Ea; try discriminate.
    destruct (ExitFlag (shared y)) eqn:X; [discriminate|].
    pose proof (n_poll y w e Ea X) as N. pose proof (main_next_role _ _ _ _ N) as R.
    destruct (MultiDisplays (Globals (shared y))); injection H as <-;
      (eapply k_next; try reflexivity; [exact Eo|exact N|exact R]).
  - unfold thread_step in H.
    destruct (WinThreads (shared y) !! j) as [w|] eqn:Hw; [|discriminate].
    destruct (Threads (shared y) !! j) as [p|] eqn:Hp; [|discriminate].
    destruct (draw_loop (shared y) j w p) as [[ops p']|] eqn:Hd; [|discriminate].
    destruct (run_ops (RenderThread j) ops (shared y)) as [s'|] eqn:Hr; [|discriminate].
    injection H as <-.
    eapply k_thread; try reflexivity; try eassumption.
    eapply draw_loop_role, Hd.
Qed.

Lemma logged_Forall (P : thread * op -> Prop) (t : thread) (ops : list op)
    (l : list (thread * op)) :
  Forall (fun o => P (t, o)) ops -> Forall P l -> Forall P (logged t ops l).
Proof.
  intros H1 H2. unfold logged. apply Forall_app. split; [|exact H2].
  apply Forall_reverse, Forall_fmap. exact H1.
Qed.

Lemma roles_inv_step (g : globals) (l : label) (y y' : system) :
  roles_inv g y -> sys_step l y = Some y' ->
  roles_inv g y' /\ step_kind g y y' l /\ Aborted (shared y) = false.
Proof.
  intros (G & Hops & Hlog) Hs. subst g.
  destruct (sys_step_kind l y y' Hs Hops) as [K A].
  split; [|split; assumption].
  destruct K as [o ops Eo Ro E Eo' Ea Ed L|l p ops Eo N R Es Eo' Ea Ed L
                |j w p p' ops s' Hw Hp Hd R Hr Es Eo' Ea Ed L]; unfold roles_inv.
  - rewrite L, Eo'. split; [eapply exec_Globals, E|].
    rewrite Eo in Hops. inversion Hops; subst.
    split; [assumption|]. constructor; assumption.
  - rewrite L, Eo', Es. repeat split; assumption.
  - rewrite L, Eo', Es. cbn [Globals with_Threads].
    split; [eapply run_Globals, Hr|]. split; [exact Hops|].
    apply logged_Forall; assumption.
Qed.

Lemma initial_roles_inv (g : globals) (dpy : Z) (ws : list wt.winthread) :
  roles_inv g (boot dpy (initial_state g ws)).
Proof. repeat split; constructor. Qed.

Lemma run_roles (g : globals) (ls : list label) (y y' : system) :
  roles_inv g y -> run ls y = Some y' -> roles_inv g y'.
Proof.
  apply (run_invariant (roles_inv g)). intros l y1 y2 H Hs.
  eapply roles_inv_step; eassumption.
Qed.

(** X1. Once the windows exist, every operation of every execution is in
    the role of its thread.  The main thread issues no GL or GLX drawing
    call and takes no gate.  The render thread of record [j] never sets
    [ExitFlag], releases no gate, gives up no context, window or
    connection, starts and joins no thread, takes no gate but its own, and
    writes to no record but its own: there it only clears [NewSize] and
    [MakeNewTexture] and sets [Initialized]. *)
Theorem threads_keep_their_roles (g : globals) (dpy : Z) (ws : list wt.winthread)
    (ls : list label) (y : system) :
  run ls (boot dpy (initial_state g ws)) = Some y ->
  Forall (fun e => by_role g e = true) (log y)
  /\ (forall o, (MainThread, o) ∈ log y ->
        is_drawing o = false /\ forall k, o <> pthread_mutex_lock (M_Ready k))
  /\ (forall j o, (RenderThread j, o) ∈ log y ->
        o <> set_ExitFlag
        /\ (forall k, o <> pthread_mutex_unlock (M_Ready k))
        /\ releases_resource o = false
        /\ (forall k, o <> pthread_create k /\ o <> pthread_join k)
        /\ (forall k, o = pthread_mutex_lock (M_Ready k) -> k = j)
        /\ (forall k b, o = set_NewSize k b -> k = j /\ b = false)
        /\ (forall k b, o = set_MakeNewTexture k b -> k = j /\ b = false)
        /\ (forall k b, o = set_Initialized k b -> k = j /\ b = true)
        /\ (forall k v, o <> set_WinWidth k v /\ o <> set_WinHeight k v)
        /\ (forall k a b, o <> add_Angles k a b)
        /\ (forall k a b, o <> set_MotionStart k a b)).
Proof.
  intros Hrun.
  destruct (run_roles g ls _ _ (initial_roles_inv g dpy ws) Hrun) as (_ & _ & H).
  split; [exact H|]. rewrite Forall_forall in H. split.
  - intros o Hin. specialize (H _ Hin). cbn in H. split.
    + destruct o; try reflexivity; discriminate H.
    + intros k ->. discriminate H.
  - intros j o Hin. specialize (H _ Hin). cbn in H.
    split; [intros ->; discriminate H|].
    split; [intros k ->; discriminate H|].
    split; [destruct o; try reflexivity; discriminate H|].
    split; [intros k; split; intros ->; discriminate H|].
    split; [intros k ->; apply bool_decide_eq_true in H; exact H|].
    split; [intros k [] ->; [discriminate H|]; apply bool_decide_eq_true in H; auto|].
    split; [intros k [] ->; [discriminate H|]; apply bool_decide_eq_true in H; auto|].
    split; [intros k [] ->; [|discriminate H]; apply bool_decide_eq_true in H; auto|].
    split; [intros k v; split; intros ->; discriminate H|].
    split; intros k a b ->; discriminate H.
Qed.

Lemma threads_keep_their_roles_witness :
  exists y, run shutdown_schedule (boot 1000 (setup_state ["glthreads"])) = Some y
    /\ Forall (fun e => by_role initial_globals e = true) (log y)
    /\ (RenderThread 0, glXSwapBuffers 1000 50) ∈ log y.
Proof.
  destruct (run shutdown_schedule (boot 1000 (setup_state ["glthreads"])))
    as [y|] eqn:E; [|vm_compute in E; discriminate].
  exists y. split; [reflexivity|].
  destruct (threads_keep_their_roles initial_globals 1000
              (WinThreads (setup_state ["glthreads"])) shutdown_schedule y E) as [H _].
  split; [exact H|].
  vm_compute in E. injection E as <-. cbn [log].
  repeat (apply list_elem_of_here || apply list_elem_of_further).
Defined.

(** ** Step mode *)

(** What every branch of the argument loop keeps, the loop keeps. *)
Lemma parse_args_keeps (P : cmdline -> Prop) :
  (forall c, P c -> P (set_MultiDisplays c)) ->
  (forall c, P c -> P (set_Locking c)) ->
  (forall c, P c -> P (set_Texture c)) ->
  (forall v c, P c -> P (set_displayName v c)) ->
  (forall v c, P c -> P (set_numThreads (clamp_threads (atoi v)) c)) ->
  forall args c c', P c -> parse_args args c = Some c' -> P c'.
Proof.
  intros Hp Hl Ht Hd Hn args.
  remember (length args) as n eqn:Hlen. revert args Hlen.
  induction (lt_wf n) as [n _ IH]. intros args -> c c' Hc H.
  destruct args as [|a rest]; [injection H as <-; exact Hc|].
  cbn [parse_args] in H.
  destruct (String.eqb a "-display" && negb (bool_decide (rest = []))).
  { destruct rest as [|v rest']; [discriminate|].
    eapply (IH (length rest') ltac:(cbn; lia) rest' eq_refl); [|exact H]. auto. }
  destruct (String.eqb a "-p").
  { eapply (IH (length rest) ltac:(cbn; lia) rest eq_refl); [|exact H]. auto. }
  destruct (String.eqb a "-l").
  { eapply (IH (length rest) ltac:(cbn; lia) rest eq_refl); [|exact H]. auto. }
  destruct (String.eqb a "-t").
  { eapply (IH (length rest) ltac:(cbn; lia) rest eq_refl); [|exact H]. auto. }
  destruct (String.eqb a "-n" && negb (bool_decide (rest = []))); [|discriminate].
  destruct rest as [|v rest']; [discriminate|].
  eapply (IH (length rest') ltac:(cbn; lia) rest' eq_refl); [|exact H]. auto.
Qed.

Lemma main_args_keeps (P : cmdline -> Prop) (argv : list string) (c : cmdline) :
  (forall c, P c -> P (set_MultiDisplays c)) ->
  (forall c, P c -> P (set_Locking c)) ->
  (forall c, P c -> P (set_Texture c)) ->
  (forall v c, P c -> P (set_displayName v c)) ->
  (forall v c, P c -> P (set_numThreads (clamp_threads (atoi v)) c)) ->
  P initial_cmdline -> snd (main_args argv) = Some c -> P c.
Proof.
  intros Hp Hl Ht Hd Hn H0 H. unfold main_args in H.
  assert (K : snd (match parse_args (tail argv) initial_cmdline with
                   | Some c => ([], Some c)
                   | None => ([usage; exit 1], None)
                   end) = Some c -> P c).
  { destruct (parse_args (tail argv) initial_cmdline) as [c1|] eqn:E; [|discriminate].
    intros [= <-]. eapply (parse_args_keeps P); eassumption. }
  destruct argv as [|a [|b r]]; [apply K, H| |apply K, H].
  injection H as <-. exact H0.
Qed.

(** The state in which [main] starts the threads. *)
Lemma main_setup_Continue (a : answers) (argv : list string) (d : Z) (s : state) :
  snd (main_setup a argv) = Continue (d, s) ->
  exists c ops ws,
    snd (main_args argv) = Some c
    /\ d = (if MultiDisplays (cl_globals c) then 0 else XOpenDisplay_ret a 0)
    /\ (MultiDisplays (cl_globals c) = false -> d <> 0)
    /\ create_windows a (cl_globals c) (displayName c) d (Z.to_nat (numThreads c)) 0 []
       = (ops, Continue ws)
    /\ s = initial_state (cl_globals c) ws.
Proof.
  unfold main_setup. destruct (main_args argv) as [ops0 [c|]]; [|discriminate].
  cbn [snd]. destruct (MultiDisplays (cl_globals c)) eqn:M; cbn [negb andb].
  - destruct (create_windows _ _ _ _ _ _ _) as [ops [code| |ws]] eqn:E; try discriminate.
    intros [= <- <-]. exists c, ops, ws. rewrite M. repeat split; [discriminate|exact E].
  - destruct (XOpenDisplay_ret a 0 =? 0) eqn:Z0; [discriminate|].
    destruct (create_windows _ _ _ _ _ _ _) as [ops [code| |ws]] eqn:E; try discriminate.
    intros [= <- <-]. exists c, ops, ws. rewrite M.
    repeat split; [intros _; apply Z.eqb_neq, Z0|exact E].
Qed.

Lemma main_setup_Animate (a : answers) (argv : list string) (d : Z) (s : state) :
  snd (main_setup a argv) = Continue (d, s) ->
  Animate (Globals s) = true /\ exists ws, s = initial_state (Globals s) ws.
Proof.
  intros H. destruct (main_setup_Continue _ _ _ _ H) as (c & ops & ws & Hc & _ & _ & _ & ->).
  cbn [Globals initial_state]. split; [|exists ws; reflexivity].
  apply (main_args_keeps (fun c => Animate (cl_globals c) = true) argv c); auto.
Qed.

Lemma exec_no_cond (t : thread) (o : op) (s s' : state) :
  is_cond_op o = false -> exec_op t o s = Some s' -> CondMutex s' = CondMutex s.
Proof.
  intros Hc H. destruct o; try (match goal with m : mutex |- _ => destruct m end);
    try discriminate Hc; exec_cases H; reflexivity.
Qed.

Lemma run_no_cond (t : thread) (ops : list op) (s s' : state) :
  Forall (fun o => is_cond_op o = false) ops -> run_ops t ops s = Some s' ->
  CondMutex s' = CondMutex s.
Proof.
  revert s. induction ops as [|o ops IH]; intros s Hc H; cbn in H.
  - injection H as <-. reflexivity.
  - inversion Hc; subst. destruct (exec_op t o s) as [s1|] eqn:E; [|discriminate].
    rewrite (IH _ ltac:(assumption) H). eapply exec_no_cond; eassumption.
Qed.

(** What the operations of a render thread leave alone. *)
Lemma exec_render (g : globals) (i : nat) (t : thread) (o : op) (s s' : state) :
  render_op g i o = true -> exec_op t o s = Some s' ->
  Threads s' = Threads s /\ ExitFlag s' = ExitFlag s
  /\ forall j, j <> i -> WinThreads s' !! j = WinThreads s !! j.
Proof.
  intros Hr H.
  destruct o; try (match goal with m : mutex |- _ => destruct m end);
    try discriminate Hr; try (match goal with b : bool |- _ => destruct b end);
    try discriminate Hr; cbn in Hr; try apply bool_decide_eq_true in Hr; subst;
    exec_cases H; (split; [reflexivity|split; [reflexivity|]]); intros j Hj;
    try reflexivity; rewrite lookup_on_wt; rewrite decide_False by congruence; reflexivity.
Qed.

Lemma run_render (g : globals) (i : nat) (t : thread) (ops : list op) (s s' : state) :
  Forall (fun o => render_op g i o = true) ops -> run_ops t ops s = Some s' ->
  Threads s' = Threads s /\ ExitFlag s' = ExitFlag s
  /\ forall j, j <> i -> WinThreads s' !! j = WinThreads s !! j.
Proof.
  revert s. induction ops as [|o ops IH]; intros s Hr H; cbn in H.
  - injection H as <-. repeat split.
  - inversion Hr as [|? ? Ho Hops]; subst.
    destruct (exec_op t o s) as [s1|] eqn:E; [|discriminate].
    destruct (exec_render _ _ _ _ _ _ Ho E) as (E1 & E2 & E3).
    destruct (IH _ Hops H) as (F1 & F2 & F3).
    split; [congruence|split; [congruence|]]. intros j Hj. rewrite F3, E3; auto.
Qed.

Lemma draw_loop_animate (s : state) (i : nat) (w : wt.winthread) (p p' : pc) (ops : list op) :
  Animate (Globals s) = true -> waits p = false ->
  draw_loop s i w p = Some (ops, p') ->
  waits p' = false /\ Forall (fun o => is_cond_op o = false) ops.
Proof.
  intros A Hp H. unfold draw_loop in H. rewrite A in H.
  assert (HL : forall d, Forall (fun o => is_cond_op o = false) (LOCK (Globals s) d)).
  { intros d. unfold LOCK. destruct (Locking _); [|destruct (MultiDisplays _)];
      repeat constructor. }
  assert (HU : forall d, Forall (fun o => is_cond_op o = false) (UNLOCK (Globals s) d)).
  { intros d. unfold UNLOCK. destruct (Locking _); [|destruct (MultiDisplays _)];
      repeat constructor. }
  assert (HT : Forall (fun o => is_cond_op o = false) (MakeNewTexture s)).
  { unfold MakeNewTexture.
    destruct (TexWidth s =? 0); [|destruct (TexWidth s =? TEX_SIZE)]; repeat constructor. }
  destruct p; cbv beta iota zeta in H; try discriminate; injection H as <- <-;
    (split; [try reflexivity|]); try (repeat constructor; fail); try apply HL; try apply HU.
  - destruct (ExitFlag s); reflexivity.
  - destruct (ExitFlag s); reflexivity.
  - constructor; [reflexivity|]. destruct (wt.Initialized w); cbn; [constructor|].
    repeat constructor. apply Forall_app. split; [|repeat constructor].
    destruct (Texture (Globals s)); [exact HT|constructor].
  - constructor; [reflexivity|]. destruct (wt.NewSize w); repeat constructor.
  - destruct (wt.MakeNewTexture w); [|constructor].
    change (Forall (fun o => is_cond_op o = false)
              (MakeNewTexture s ++ [set_MakeNewTexture i false])).
    apply Forall_app. split; [exact HT|repeat constructor].
Qed.

Lemma animate_inv_step (g : globals) (l : label) (y y' : system) :
  Animate g = true -> Globals (shared y) = g ->
  step_kind g y y' l -> animate_inv y -> animate_inv y'.
Proof.
  intros A G K (H1 & H2 & H3). unfold animate_inv.
  destruct K as [o ops Eo Ro E Eo' Ea Ed L|l p ops Eo N R Es Eo' Ea Ed L
                |j w p p' ops s' Hw Hp Hd R Hr Es Eo' Ea Ed L]; rewrite L.
  - assert (C : is_cond_op o = false).
    { destruct o; try (match goal with m : mutex |- _ => destruct m end);
        try reflexivity; cbn in Ro; rewrite ?A in Ro; discriminate Ro. }
    split; [|split].
    + apply Forall_lookup. intros i p' Hp'.
      destruct (exec_effects i _ _ _ _ E) as (_ & _ & _ & _ & Pc).
      rewrite Forall_lookup in H1.
      destruct (Pc p' Hp') as (p & Hp & [->|[[-> ->]|[-> ->]]]).
      * eapply H1, Hp.
      * specialize (H1 _ _ Hp). discriminate H1.
      * reflexivity.
    + constructor; assumption.
    + rewrite (exec_no_cond _ _ _ _ C E). exact H3.
  - rewrite Es. repeat split; assumption.
  - rewrite Es. cbn [Threads CondMutex with_Threads].
    rewrite Forall_lookup in H1. pose proof (H1 _ _ Hp) as Wp.
    destruct (draw_loop_animate _ _ _ _ _ _ ltac:(rewrite G; exact A) Wp Hd) as [Wp' C].
    destruct (run_render _ _ _ _ _ _ R Hr) as (T & _ & _).
    split; [|split].
    + rewrite T. apply Forall_lookup. intros i q Hq.
      apply list_lookup_insert_Some in Hq as [(_ & <- & _)|[_ Hq]]; [exact Wp'|].
      eapply H1, Hq.
    + apply logged_Forall; [|exact H2]. exact C.
    + rewrite (run_no_cond _ _ _ _ C Hr). exact H3.
Qed.

(** X2. [Animate] is never assigned: whatever the command line, the
    program that [main] starts runs in animate mode, and stays there.  No
    render thread ever reaches the wait for the redraw signal, the redraw
    signal is never sent, [CondMutex] is never taken, and every key other
    than Escape, [t] and [T] (among them the keys [a] and [s] of the usage
    text) does nothing. *)
Theorem step_mode_unreachable (a : answers) (argv : list string) (d : Z) (s : state)
    (ls : list label) (y : system) :
  snd (main_setup a argv) = Continue (d, s) ->
  run ls (boot d s) = Some y ->
  Animate (Globals (shared y)) = true
  /\ Forall (fun p => waits p = false) (Threads (shared y))
  /\ Forall (fun e => is_cond_op (snd e) = false) (log y)
  /\ CondMutex (shared y) = None
  /\ (forall K i, K <> XK_Escape -> K <> XK_t -> K <> XK_T ->
        keypress (shared y) K i = []).
Proof.
  intros Hs Hrun. destruct (main_setup_Animate _ _ _ _ Hs) as [A [ws Ews]].
  set (g := Globals s) in *. rewrite Ews in Hrun.
  assert (H : roles_inv g y /\ animate_inv y).
  { eapply (run_invariant (fun y => roles_inv g y /\ animate_inv y)); [| |exact Hrun].
    - intros l y1 y2 [R I] St.
      destruct (roles_inv_step g l y1 y2 R St) as (R' & K & _).
      split; [exact R'|]. eapply animate_inv_step; try eassumption. apply R.
    - split; [apply initial_roles_inv|]. repeat split; [|constructor].
      cbn. apply Forall_fmap, Forall_forall. reflexivity. }
  destruct H as [(G & _ & _) (H1 & H2 & H3)].
  rewrite G. split; [exact A|]. split; [exact H1|]. split; [exact H2|]. split; [exact H3|].
  intros K i N1 N2 N3. unfold keypress. rewrite G, A.
  apply Z.eqb_neq in N1, N2, N3. rewrite N1, N2, N3. cbn.
  destruct (_ || _); [|destruct (Texture g)]; reflexivity.
Qed.

Lemma step_mode_unreachable_witness :
  exists y, run two_frames_schedule (boot 1000 (setup_state ["glthreads"])) = Some y
    /\ Forall (fun p => waits p = false) (Threads (shared y))
    /\ keypress (shared y) XK_s 0 = [].
Proof.
  destruct (run two_frames_schedule (boot 1000 (setup_state ["glthreads"])))
    as [y|] eqn:E; [|vm_compute in E; discriminate].
  exists y. split; [reflexivity|].
  destruct (step_mode_unreachable ok_answers ["glthreads"] 1000 (setup_state ["glthreads"])
              two_frames_schedule y eq_refl E) as (_ & H & _ & _ & K).
  split; [exact H|]. apply K; discriminate.
Defined.

(** ** The handles of the records *)

Lemma exec_identities (t : thread) (o : op) (s s' : state) :
  exec_op t o s = Some s' -> identities s' = identities s.
Proof.
  intros H. unfold identities.
  assert (K : forall i f, (forall w, handles_of (f w) = handles_of w) ->
            handles_of <$> WinThreads (on_wt i f s) = handles_of <$> WinThreads s).
  { intros i f Hf. cbn. rewrite (list_fmap_alter handles_of f id).
    - apply list_alter_id. reflexivity.
    - apply Forall_forall. intros w _. apply Hf. }
  destruct o; try (match goal with m : mutex |- _ => destruct m end);
    exec_cases H; try reflexivity; apply K; intros []; reflexivity.
Qed.

Lemma run_identities (t : thread) (ops : list op) (s s' : state) :
  run_ops t ops s = Some s' -> identities s' = identities s.
Proof.
  revert s. induction ops as [|o ops IH]; intros s H; cbn in H.
  - injection H as <-. reflexivity.
  - destruct (exec_op t o s) as [s1|] eqn:E; [|discriminate].
    rewrite (IH _ H). eapply exec_identities, E.
Qed.

Lemma step_identities (g : globals) (l : label) (y y' : system) :
  step_kind g y y' l -> identities (shared y') = identities (shared y).
Proof.
  intros [o ops Eo Ro E Eo' Ea Ed L|l0 p ops Eo N R Es Eo' Ea Ed L
         |j w p p' ops s' Hw Hp Hd R Hr Es Eo' Ea Ed L].
  - eapply exec_identities, E.
  - rewrite Es. reflexivity.
  - rewrite Es. unfold identities. cbn [WinThreads with_Threads].
    eapply run_identities, Hr.
Qed.

Lemma windows_identities (s : state) :
  windows s = (fun h => snd (fst h)) <$> identities s.
Proof.
  unfold windows, identities. rewrite <- list_fmap_compose. reflexivity.
Qed.

(** ** The exit key among the events *)

Lemma existsb_Exists {A : Type} (P : A -> bool) (l : list A) :
  existsb P l = true <-> Exists (fun x => P x = true) l.
Proof.
  induction l as [|x l IH]; cbn.
  - split; [discriminate|]. intros H. inversion H.
  - rewrite orb_true_iff, IH, Exists_cons. reflexivity.
Qed.

Lemma Exists_not_Forall {A : Type} (P : A -> bool) (l : list A) :
  Forall (fun x => P x = false) l -> Exists (fun x => P x = true) l -> False.
Proof.
  intros H E. apply Exists_exists in E as (x & Hin & Hx).
  rewrite Forall_forall in H. rewrite (H _ Hin) in Hx. discriminate.
Qed.

Lemma keypress_set_exit (s : state) (K : Z) (i : nat) :
  Exists (fun o => is_set_exit o = true) (keypress s K i) -> K = XK_Escape.
Proof.
  unfold keypress, signal_redraw. destruct (K =? XK_Escape) eqn:E.
  - intros _. apply Z.eqb_eq, E.
  - intros H. exfalso. revert H. apply Exists_not_Forall.
    destruct (_ || _); [|destruct (_ || _)];
      repeat (destruct (Texture _) || destruct (Animate _)); repeat constructor.
Qed.

Lemma handle_set_exit (s : state) (i : nat) (w : wt.winthread) (e : XEvent) :
  Exists (fun o => is_set_exit o = true) (handle s i w e) ->
  exists W, e = KeyPress W XK_Escape.
Proof.
  destruct e as [W wd ht|W st x y|W x y|W|W|W K|]; cbn [handle]; intros H.
  - exfalso. revert H. apply Exists_not_Forall. unfold resize, signal_redraw.
    destruct (Animate _); repeat constructor.
  - exfalso. revert H. apply Exists_not_Forall. unfold motion.
    destruct (any_button _); repeat constructor.
  - exfalso. revert H. apply Exists_not_Forall. repeat constructor.
  - exfalso. revert H. apply Exists_not_Forall. repeat constructor.
  - exfalso. revert H. apply Exists_not_Forall. repeat constructor.
  - apply keypress_set_exit in H as ->. exists W. reflexivity.
  - inversion H.
Qed.

Lemma find_window_windows (s : state) (W : Z) (i : nat) (r : wt.winthread) :
  find_window s W = Some (i, r) -> WinThreads s !! i = Some r /\ wt.Win r = W /\ W ∈ windows s.
Proof.
  intros H. apply list_find_Some in H as (H1 & H2 & _).
  split; [exact H1|]. split; [exact H2|].
  unfold windows. apply list_elem_of_fmap. exists r. split; [auto|].
  eapply list_elem_of_lookup_2, H1.
Qed.

Lemma main_shutdown_no_exit (s : state) (d : Z) :
  Forall (fun o => is_set_exit o = false) (main_shutdown s d).
Proof.
  unfold main_shutdown, clean_up. fold (destroy_ops (WinThreads s)).
  apply Forall_app. split; [apply Forall_app; split|].
  - apply Forall_fmap, Forall_forall. reflexivity.
  - eapply Forall_impl; [apply destroy_ops_kind|]. intros [] ?; try discriminate; reflexivity.
  - destruct (MultiDisplays (Globals s)); [|repeat constructor].
    apply Forall_fmap, Forall_forall. reflexivity.
Qed.

Lemma main_next_set_exit (y : system) (l : label) (p : main_pc) (ops : list op) :
  main_next y l p ops -> Exists (fun o => is_set_exit o = true) ops ->
  exists W, l = X_answers (Some (KeyPress W XK_Escape))
    /\ (MultiDisplays (Globals (shared y)) = false -> W ∈ windows (shared y)).
Proof.
  assert (HL : forall g d, Forall (fun x => is_set_exit x = false) (LOCK g d)).
  { intros g d. unfold LOCK. destruct (Locking g); [|destruct (MultiDisplays g)];
      repeat constructor. }
  assert (HU : forall g d, Forall (fun x => is_set_exit x = false) (UNLOCK g d)).
  { intros g d. unfold UNLOCK. destruct (Locking g); [|destruct (MultiDisplays g)];
      repeat constructor. }
  intros [i A B|i A B|w A B|A|w e A B] H.
  - exfalso. revert H. apply Exists_not_Forall. repeat constructor.
  - inversion H.
  - exfalso. revert H. apply Exists_not_Forall, main_shutdown_no_exit.
  - inversion H.
  - destruct (MultiDisplays (Globals (shared y))) eqn:M.
    + unfold event_loop_multi in H.
      destruct (WinThreads (shared y) !! w) as [r|]; [|inversion H].
      apply Exists_cons in H as [H|H]; [discriminate H|].
      apply Exists_app in H as [H|H]; [|exfalso; revert H; apply Exists_not_Forall;
                                          repeat constructor].
      destruct e as [e|]; [|inversion H].
      apply Exists_cons in H as [H|H]; [discriminate H|].
      apply handle_set_exit in H as [W ->]. exists W. split; [reflexivity|discriminate].
    + unfold event_loop in H.
      apply Exists_app in H as [H|H]; [exfalso; revert H; apply Exists_not_Forall, HL|].
      apply Exists_cons in H as [H|H]; [discriminate H|].
      destruct e as [e|].
      * apply Exists_cons in H as [H|H]; [discriminate H|].
        apply Exists_app in H as [H|H]; [exfalso; revert H; apply Exists_not_Forall, HU|].
        unfold dispatch in H. destruct (event_window e) as [W|] eqn:EW; [|inversion H].
        destruct (find_window (shared y) W) as [[i r]|] eqn:F; [|inversion H].
        apply handle_set_exit in H as [W' ->]. cbn in EW. injection EW as ->.
        exists W. split; [reflexivity|]. intros _. eapply find_window_windows, F.
      * exfalso. revert H. apply Exists_not_Forall.
        apply Forall_app. split; [apply HU|repeat constructor].
Qed.

Lemma step_exit_pending (g : globals) (l : label) (y y' : system) :
  step_kind g y y' l -> exit_pending y = false -> exit_pending y' = true ->
  exists W, l = X_answers (Some (KeyPress W XK_Escape))
    /\ (MultiDisplays (Globals (shared y)) = false -> W ∈ windows (shared y)).
Proof.
  unfold exit_pending.
  intros [o ops Eo Ro E Eo' Ea Ed L|l0 p ops Eo N R Es Eo' Ea Ed L
         |j w p p' ops s' Hw Hp Hd R Hr Es Eo' Ea Ed L] H0 H1.
  - exfalso. rewrite Eo in H0. cbn in H0.
    apply orb_false_iff in H0 as [X H0]. apply orb_false_iff in H0 as [Ho H0].
    rewrite Eo', H0, orb_false_r in H1.
    destruct (exec_effects 0 _ _ _ _ E) as (_ & Hx & _).
    destruct (Hx H1) as [?| ->]; [congruence|discriminate Ho].
  - rewrite Es, Eo' in H1. apply orb_false_iff in H0 as [X _]. rewrite X in H1.
    cbn in H1. apply existsb_Exists in H1. eapply main_next_set_exit; eassumption.
  - exfalso. rewrite Es, Eo' in H1. cbn [ExitFlag with_Threads] in H1.
    destruct (run_render _ _ _ _ _ _ R Hr) as (_ & X & _). rewrite X in H1. congruence.
Qed.

Lemma run_exit_pending (g : globals) (ls : list label) (y y' : system) :
  roles_inv g y -> exit_pending y = false -> run ls y = Some y' ->
  exit_pending y' = true ->
  exists W, X_answers (Some (KeyPress W XK_Escape)) ∈ ls
    /\ (MultiDisplays g = false -> W ∈ windows (shared y)).
Proof.
  revert y. induction ls as [|l ls IH]; intros y R H0 Hrun H1; cbn in Hrun.
  - injection Hrun as <-. congruence.
  - destruct (sys_step l y) as [y1|] eqn:St; [|discriminate].
    destruct (roles_inv_step g l y y1 R St) as (R1 & K & _).
    destruct (exit_pending y1) eqn:P1.
    + destruct (step_exit_pending g l y y1 K H0 P1) as (W & -> & HW).
      exists W. split; [apply list_elem_of_here|]. destruct R as [G _]. rewrite <- G. exact HW.
    + destruct (IH y1 R1 P1 Hrun H1) as (W & Hin & HW).
      exists W. split; [apply list_elem_of_further, Hin|].
      intros M. rewrite windows_identities, <- (step_identities g l y y1 K),
        <- windows_identities. apply HW, M.
Qed.

(** X3. Only the Escape key ends the program.  In every execution in
    which [ExitFlag] is set, a key event with the key symbol Escape has been
    taken from a connection; in shared mode its window is the window of one
    of the records (a key pressed on any other window is ignored).  No other
    key, no other event and no render thread sets the flag. *)
Theorem exit_only_by_Escape (g : globals) (dpy : Z) (ws : list wt.winthread)
    (ls : list label) (y : system) :
  run ls (boot dpy (initial_state g ws)) = Some y ->
  ExitFlag (shared y) = true ->
  exists W, X_answers (Some (KeyPress W XK_Escape)) ∈ ls
    /\ (MultiDisplays g = false -> exists i r, ws !! i = Some r /\ wt.Win r = W).
Proof.
  intros Hrun X.
  destruct (run_exit_pending g ls _ y (initial_roles_inv g dpy ws) eq_refl Hrun)
    as (W & Hin & HW).
  { unfold exit_pending. rewrite X. reflexivity. }
  exists W. split; [exact Hin|]. intros M. specialize (HW M).
  unfold windows in HW. cbn in HW.
  apply list_elem_of_fmap in HW as (r & -> & Hr).
  apply list_elem_of_lookup_1 in Hr as [i Hi]. exists i, r. auto.
Qed.

Lemma exit_only_by_Escape_witness :
  exists W, X_answers (Some (KeyPress W XK_Escape)) ∈ shutdown_schedule
    /\ (MultiDisplays initial_globals = false ->
        exists i r, WinThreads (setup_state ["glthreads"]) !! i = Some r /\ wt.Win r = W).
Proof.
  destruct (run shutdown_schedule (boot 1000 (setup_state ["glthreads"])))
    as [y|] eqn:E; [|vm_compute in E; discriminate].
  apply (exit_only_by_Escape initial_globals 1000 (WinThreads (setup_state ["glthreads"]))
           shutdown_schedule y E).
  vm_compute in E. injection E as <-. reflexivity.
Defined.

(** ** The slot of [event_loop_multi] *)

Lemma step_lengths (g : globals) (l : label) (y y' : system) :
  step_kind g y y' l ->
  Globals (shared y') = Globals (shared y)
  /\ NumWinThreads (shared y') = NumWinThreads (shared y)
  /\ length (Threads (shared y')) = length (Threads (shared y)).
Proof.
  unfold NumWinThreads.
  intros [o ops Eo Ro E Eo' Ea Ed L|l0 p ops Eo N R Es Eo' Ea Ed L
         |j w p p' ops s' Hw Hp Hd R Hr Es Eo' Ea Ed L].
  - destruct (exec_lengths _ _ _ _ E) as [A B].
    split; [eapply exec_Globals, E|]. split; assumption.
  - rewrite Es. repeat split.
  - rewrite Es. cbn [Globals WinThreads Threads with_Threads].
    destruct (run_lengths _ _ _ _ Hr) as [A B]. rewrite length_insert.
    split; [eapply run_Globals, Hr|]. split; assumption.
Qed.

Lemma slot_inv_step (g : globals) (n c : nat) (l : label) (y y' : system) :
  step_kind g y y' l -> slot_inv g n c y ->
  slot_inv g n (polls [l] + c) y'.
Proof.
  intros K (G & Hn & H). destruct (step_lengths g l y y' K) as (G' & Hn' & _).
  unfold slot_inv. rewrite G', Hn'. split; [exact G|]. split; [exact Hn|].
  destruct K as [o ops Eo Ro E Eo' Ea Ed L|l0 p ops Eo N R Es Eo' Ea Ed L
                |j w p p' ops s' Hw Hp Hd R Hr Es Eo' Ea Ed L].
  - rewrite Ea. exact H.
  - rewrite Ea. destruct N as [i A B|i A B|w A B|A|w e A B]; rewrite A in H; cbn [polls].
    + exact H.
    + subst c. destruct (MultiDisplays g); [|reflexivity]. cbn.
      symmetry. apply Nat.Div0.mod_0_l.
    + exact I.
    + exact I.
    + rewrite G, Hn. destruct (MultiDisplays g); [|exact H]. subst w.
      replace (S (c mod n)) with (c mod n + 1)%nat by lia.
      rewrite Nat.Div0.add_mod_idemp_l. f_equal. lia.
  - rewrite Ea. exact H.
Qed.

Lemma run_slot_inv (g : globals) (n : nat) (ls : list label) (c : nat) (y y' : system) :
  roles_inv g y -> slot_inv g n c y -> run ls y = Some y' ->
  slot_inv g n (polls ls + c) y'.
Proof.
  revert c y. induction ls as [|l ls IH]; intros c y R H Hrun; cbn in Hrun.
  - injection Hrun as <-. exact H.
  - destruct (sys_step l y) as [y1|] eqn:St; [|discriminate].
    destruct (roles_inv_step g l y y1 R St) as (R1 & K & _).
    pose proof (IH _ _ R1 (slot_inv_step g n c l y y1 K H) Hrun) as H1.
    replace (polls (l :: ls) + c)%nat with (polls ls + (polls [l] + c))%nat; [exact H1|].
    destruct l; cbn; lia.
Qed.

(** X4. [event_loop_multi] polls the connections in turn.  In
    per-connection mode, after [c] turns of the event loop the main thread
    is at slot [c mod NumWinThreads]: the slot is always the index of a
    record, and every record is polled once in [NumWinThreads] turns.  In
    shared mode the slot is not used and stays 0. *)
Theorem slots_in_turn (g : globals) (dpy : Z) (ws : list wt.winthread)
    (ls : list label) (y : system) (w : nat) :
  run ls (boot dpy (initial_state g ws)) = Some y ->
  ws <> [] ->
  main_at y = InEventLoop w ->
  w = (if MultiDisplays g then (polls ls mod length ws)%nat else 0%nat)
  /\ (w < NumWinThreads (shared y))%nat.
Proof.
  intros Hrun Hws Ha.
  assert (H0 : slot_inv g (length ws) 0 (boot dpy (initial_state g ws)))
    by (repeat split).
  pose proof (run_slot_inv g (length ws) ls 0 _ y (initial_roles_inv g dpy ws) H0 Hrun)
    as (_ & Hn & H).
  rewrite Ha, Nat.add_0_r in H. split; [exact H|]. rewrite Hn.
  assert (0 < length ws)%nat by (destruct ws; [contradiction|cbn; lia]).
  subst w. destruct (MultiDisplays g); [|assumption].
  apply Nat.mod_upper_bound. lia.
Qed.

Lemma slots_in_turn_witness :
  exists y, run three_polls (boot 0 (setup_state ["glthreads"; "-p"])) = Some y
    /\ main_at y = InEventLoop 1
    /\ (1 < NumWinThreads (shared y))%nat.
Proof.
  destruct (run three_polls (boot 0 (setup_state ["glthreads"; "-p"])))
    as [y|] eqn:E; [|vm_compute in E; discriminate].
  exists y. split; [reflexivity|].
  assert (Ha : main_at y = InEventLoop 1).
  { vm_compute in E. injection E as <-. reflexivity. }
  split; [exact Ha|].
  apply (slots_in_turn (Globals (setup_state ["glthreads"; "-p"])) 0
           (WinThreads (setup_state ["glthreads"; "-p"])) three_polls y 1 E);
    [discriminate|exact Ha].
Defined.

(** ** What the shutdown gives up *)

Lemma filter_none {A : Type} (P : A -> bool) (l : list A) :
  Forall (fun x => P x = false) l -> filter (fun x => P x = true) l = [].
Proof.
  induction 1 as [|x l Hx _ IH]; [reflexivity|].
  rewrite filter_cons_False; [exact IH|]. congruence.
Qed.

Lemma filter_all {A : Type} (P : A -> bool) (l : list A) :
  Forall (fun x => P x = true) l -> filter (fun x => P x = true) l = l.
Proof.
  induction 1 as [|x l Hx _ IH]; [reflexivity|].
  rewrite filter_cons_True by exact Hx. rewrite IH. reflexivity.
Qed.

Lemma released_cons (t : thread) (o : op) (l : list (thread * op)) :
  released ((t, o) :: l)
  = released l ++ filter (fun o => releases_resource o = true) [o].
Proof.
  unfold released. cbn [fmap list_fmap snd]. rewrite reverse_cons, filter_app. reflexivity.
Qed.

Lemma released_logged (t : thread) (ops : list op) (l : list (thread * op)) :
  Forall (fun o => releases_resource o = false) ops ->
  released (logged t ops l) = released l.
Proof.
  revert l. induction ops as [|o ops IH]; intros l H; [reflexivity|].
  inversion H as [|? ? Ho Hops]; subst.
  rewrite logged_cons, IH by exact Hops. rewrite released_cons.
  rewrite filter_cons_False by congruence. apply app_nil_r.
Qed.

Lemma render_no_release (g : globals) (i : nat) (ops : list op) :
  Forall (fun o => render_op g i o = true) ops ->
  Forall (fun o => releases_resource o = false) ops.
Proof.
  intros H. eapply Forall_impl; [exact H|].
  intros o Ho. destruct o; try reflexivity; discriminate Ho.
Qed.

Lemma destroy_ops_handles (l1 l2 : list wt.winthread) :
  handles_of <$> l1 = handles_of <$> l2 ->
  destroy_ops l1 = destroy_ops l2
  /\ (fun w => XCloseDisplay (wt.Dpy w)) <$> l1 = (fun w => XCloseDisplay (wt.Dpy w)) <$> l2
  /\ length l1 = length l2.
Proof.
  revert l2. induction l1 as [|u l1 IH]; intros [|v l2] H; try discriminate.
  - repeat split.
  - cbn [fmap list_fmap] in H. injection H as Hd Hi Hw Hc H.
    destruct (IH _ H) as (A & B & C). rewrite !destroy_ops_cons, A.
    rewrite !fmap_cons, B. cbn [length]. rewrite Hd, Hw, Hc, C. repeat split.
Qed.

Lemma main_shutdown_released (s : state) (d : Z) :
  filter (fun o => releases_resource o = true) (main_shutdown s d)
  = destroy_ops (WinThreads s) ++ close_ops (Globals s) d (WinThreads s).
Proof.
  unfold main_shutdown, clean_up. fold (destroy_ops (WinThreads s)).
  fold (close_ops (Globals s) d (WinThreads s)).
  rewrite !filter_app. rewrite filter_none.
  - cbn [app]. f_equal; apply filter_all.
    + eapply Forall_impl; [apply destroy_ops_kind|]. intros o H.
      unfold releases_resource. rewrite H. reflexivity.
    + unfold close_ops. destruct (MultiDisplays (Globals s)); [|repeat constructor].
      apply Forall_fmap, Forall_forall. reflexivity.
  - apply Forall_fmap, Forall_forall. reflexivity.
Qed.

Lemma release_inv_step (g : globals) (dpy : Z) (ws : list wt.winthread)
    (l : label) (y y' : system) :
  Globals (shared y) = g ->
  step_kind g y y' l -> release_inv g dpy ws y -> release_inv g dpy ws y'.
Proof.
  intros G K (H1 & H2 & H3 & H4). unfold release_inv.
  rewrite (step_identities g l y y' K).
  destruct K as [o ops Eo Ro E Eo' Ea Ed L|l0 p ops Eo N R Es Eo' Ea Ed L
                |j w p p' ops s' Hw Hp Hd R Hr Es Eo' Ea Ed L];
    rewrite Ed, L, Eo', Ea; (split; [exact H1|split; [exact H2|]]).
  - rewrite Eo in H3. rewrite released_cons, <- app_assoc, <- filter_app. cbn [app].
    split; [exact H3|]. intros c Hc. rewrite (H4 c Hc) in Eo. discriminate.
  - rewrite Eo in H3. cbn in H3. rewrite app_nil_r in H3.
    destruct N as [i A B|i A B|w A B|A|w e A B]; rewrite A in H3; cbn in H3;
      cbn [shutdown_started]; rewrite H3.
    + split; [reflexivity|discriminate].
    + split; [reflexivity|discriminate].
    + split; [|discriminate]. cbn [app]. rewrite main_shutdown_released, G, H2.
      destruct (destroy_ops_handles (WinThreads (shared y)) ws H1) as (A1 & A2 & _).
      rewrite A1. unfold close_ops. rewrite A2. reflexivity.
    + split; [apply app_nil_r|reflexivity].
    + split; [|destruct (MultiDisplays _); discriminate]. cbn [app].
      destruct (event_loops_no_release (shared y) (main_dpy y) w e) as [N1 N2].
      destruct (MultiDisplays (Globals (shared y))); apply filter_none; assumption.
  - rewrite released_logged by (eapply render_no_release, R). split; assumption.
Qed.

(** X5. Nothing is given up before the shutdown, nothing twice, and
    nothing is left.  In every execution the connection, index, window and
    context of every record stay as [main] set them up; the contexts,
    windows and connections given up so far are a prefix of the list that
    has, for each record in turn, its context and then its window, and then
    the connections (each record's in per-connection mode, else the shared
    one); before the shutdown that prefix is empty, and when [main] has
    returned it is the whole list. *)
Theorem resources_released_once (g : globals) (dpy : Z) (ws : list wt.winthread)
    (ls : list label) (y : system) :
  run ls (boot dpy (initial_state g ws)) = Some y ->
  identities (shared y) = handles_of <$> ws
  /\ (exists rest, released (log y) ++ rest = destroy_ops ws ++ close_ops g dpy ws)
  /\ (shutdown_started (main_at y) = false -> released (log y) = [])
  /\ (forall c, main_at y = MainReturned c ->
        released (log y) = destroy_ops ws ++ close_ops g dpy ws).
Proof.
  intros Hrun.
  assert (H : roles_inv g y /\ release_inv g dpy ws y).
  { eapply (run_invariant (fun y => roles_inv g y /\ release_inv g dpy ws y));
      [| |exact Hrun].
    - intros l y1 y2 [R I] St.
      destruct (roles_inv_step g l y1 y2 R St) as (R' & K & _).
      split; [exact R'|]. apply (release_inv_step g dpy ws l y1 y2); [apply R|exact K|exact I].
    - split; [apply initial_roles_inv|]. repeat split. }
  destruct H as [_ (H1 & H2 & H3 & H4)]. split; [exact H1|].
  split; [|split].
  - destruct (shutdown_started (main_at y)).
    + eexists. exact H3.
    + apply app_eq_nil in H3 as [-> _]. eexists. reflexivity.
  - intros S. rewrite S in H3. apply app_eq_nil in H3 as [-> _]. reflexivity.
  - intros c Hc. rewrite Hc, (H4 c Hc) in H3. cbn in H3.
    rewrite app_nil_r in H3. exact H3.
Qed.

Lemma resources_released_once_witness :
  exists y, run shutdown_schedule (boot 1000 (setup_state ["glthreads"])) = Some y
    /\ released (log y)
       = [glXDestroyContext 1000 80; XDestroyWindow 1000 50;
          glXDestroyContext 1000 81; XDestroyWindow 1000 51; XCloseDisplay 1000].
Proof.
  destruct (run shutdown_schedule (boot 1000 (setup_state ["glthreads"])))
    as [y|] eqn:E; [|vm_compute in E; discriminate].
  exists y. split; [reflexivity|].
  destruct (resources_released_once initial_globals 1000
              (WinThreads (setup_state ["glthreads"])) shutdown_schedule y E)
    as (_ & _ & _ & H).
  apply (H 0). vm_compute in E. injection E as <-. reflexivity.
Defined.

(** ** The display lock *)

Lemma exec_display_lock (g : globals) (t : thread) (o : op) (s s' : state) :
  exec_op t o s = Some s' ->
  if takes_lock g o then display_lock g s = None /\ display_lock g s' = Some t
  else if gives_lock g o then display_lock g s' = None
  else display_lock g s' = display_lock g s.
Proof.
  intros H. unfold display_lock.
  destruct o; try (match goal with m : mutex |- _ => destruct m end);
    cbn [takes_lock gives_lock]; destruct (Locking g); cbn [negb];
    exec_cases H; cbn; auto.
Qed.

(** One operation of a thread that follows the discipline. *)
Lemma exec_holds (g : globals) (t : thread) (o : op) (r : list op) (s s' : state)
    (m : lock_mon) (h' : bool) :
  exec_op t o s = Some s' ->
  holds_after g (bool_decide (display_lock g s = Some t)) (o :: r) = Some h' ->
  lm_ok m = true -> lm_owner m = display_lock g s ->
  holds_after g (bool_decide (display_lock g s' = Some t)) r = Some h'
  /\ lm_ok (lock_step g m (t, o)) = true
  /\ lm_owner (lock_step g m (t, o)) = display_lock g s'
  /\ (forall t', t' <> t ->
        bool_decide (display_lock g s' = Some t') = bool_decide (display_lock g s = Some t')).
Proof.
  intros E H Hok Hown. pose proof (exec_display_lock g t o s s' E) as D.
  cbn [holds_after] in H. unfold lock_step. cbn [fst snd].
  destruct (takes_lock g o).
  - destruct D as [D0 D1]. rewrite D0 in H. rewrite D1, Hok, Hown, D0.
    rewrite bool_decide_eq_false_2 in H by discriminate.
    rewrite !bool_decide_eq_true_2 by reflexivity.
    repeat split; [exact H|]. intros t' Ht.
    rewrite !bool_decide_eq_false_2; [reflexivity|discriminate|congruence].
  - destruct (gives_lock g o).
    + destruct (bool_decide (display_lock g s = Some t)) eqn:B; [|discriminate].
      apply bool_decide_eq_true in B. rewrite D, Hok, Hown, B.
      rewrite bool_decide_eq_false_2 by discriminate.
      rewrite bool_decide_eq_true_2 by reflexivity.
      repeat split; [exact H|]. intros t' Ht.
      rewrite !bool_decide_eq_false_2; [reflexivity|congruence|discriminate].
    + rewrite D. destruct (on_display o).
      * destruct (bool_decide (display_lock g s = Some t)) eqn:B; [|discriminate].
        cbn [lm_ok lm_owner]. rewrite Hok, Hown, B. repeat split; exact H.
      * repeat split; assumption.
Qed.

Lemma run_holds (g : globals) (t : thread) (ops : list op) (s s' : state)
    (l : list (thread * op)) (h' : bool) :
  run_ops t ops s = Some s' ->
  holds_after g (bool_decide (display_lock g s = Some t)) ops = Some h' ->
  lm_ok (lock_monitor g l) = true -> lm_owner (lock_monitor g l) = display_lock g s ->
  bool_decide (display_lock g s' = Some t) = h'
  /\ lm_ok (lock_monitor g (logged t ops l)) = true
  /\ lm_owner (lock_monitor g (logged t ops l)) = display_lock g s'
  /\ (forall t', t' <> t ->
        bool_decide (display_lock g s' = Some t') = bool_decide (display_lock g s = Some t')).
Proof.
  revert s l. induction ops as [|o ops IH]; intros s l Hr H Hok Hown; cbn in Hr.
  - injection Hr as <-. cbn in H. injection H as <-. repeat split; assumption.
  - destruct (exec_op t o s) as [s1|] eqn:E; [|discriminate].
    destruct (exec_holds g t o ops s s1 _ h' E H Hok Hown) as (H1 & Hok1 & Hown1 & Hoth).
    rewrite logged_cons.
    destruct (IH s1 ((t, o) :: l) Hr H1 Hok1 Hown1) as (A & B & C & D).
    split; [exact A|]. split; [exact B|]. split; [exact C|].
    intros t' Ht. rewrite D, Hoth by exact Ht. reflexivity.
Qed.

Lemma holds_after_neutral (g : globals) (h : bool) (ops : list op) :
  Forall (fun o => lock_neutral g o = true) ops -> holds_after g h ops = Some h.
Proof.
  induction 1 as [|o ops Ho _ IH]; [reflexivity|].
  cbn [holds_after]. unfold lock_neutral in Ho.
  apply negb_true_iff, orb_false_iff in Ho as [Ho Hd].
  apply orb_false_iff in Ho as [Ht Hg]. rewrite Ht, Hg, Hd. exact IH.
Qed.

Lemma holds_after_app (g : globals) (h : bool) (ops1 ops2 : list op) :
  holds_after g h (ops1 ++ ops2)
  = match holds_after g h ops1 with
    | Some h1 => holds_after g h1 ops2
    | None => None
    end.
Proof.
  revert h. induction ops1 as [|o ops1 IH]; intros h; [reflexivity|].
  cbn [app holds_after].
  destruct (takes_lock g o); [destruct h; [reflexivity|apply IH]|].
  destruct (gives_lock g o); [destruct h; [apply IH|reflexivity]|].
  destruct (on_display o); [destruct h; [apply IH|reflexivity]|]. apply IH.
Qed.

Lemma LOCK_holds (g : globals) (d : Z) :
  locks g = true -> holds_after g false (LOCK g d) = Some true.
Proof.
  unfold locks, LOCK. destruct (Locking g) eqn:L; [|destruct (MultiDisplays g)];
    cbn; rewrite ?L; try reflexivity; discriminate.
Qed.

Lemma UNLOCK_holds (g : globals) (d : Z) :
  locks g = true -> holds_after g true (UNLOCK g d) = Some false.
Proof.
  unfold locks, UNLOCK. destruct (Locking g) eqn:L; [|destruct (MultiDisplays g)];
    cbn; rewrite ?L; try reflexivity; discriminate.
Qed.

Lemma shared_locks (g : globals) : MultiDisplays g = false -> locks g = true.
Proof. intros M. unfold locks. rewrite M. apply orb_true_r. Qed.

Lemma MakeNewTexture_neutral (g : globals) (s : state) :
  Forall (fun o => lock_neutral g o = true) (MakeNewTexture s).
Proof.
  unfold MakeNewTexture.
  destruct (TexWidth s =? 0); [|destruct (TexWidth s =? TEX_SIZE)]; repeat constructor.
Qed.

(** The steps of [draw_loop] follow the discipline. *)
Lemma draw_loop_holds (s : state) (i : nat) (w : wt.winthread) (p p' : pc) (ops : list op) :
  locks (Globals s) = true ->
  draw_loop s i w p = Some (ops, p') ->
  holds_after (Globals s) (in_cs p) ops = Some (in_cs p').
Proof.
  intros M H. unfold draw_loop in H.
  destruct p; cbv beta iota zeta in H; try discriminate;
    try (injection H as <- <-; first [apply LOCK_holds, M|apply UNLOCK_holds, M|reflexivity]).
  - injection H as <- <-. destruct (ExitFlag s); reflexivity.
  - injection H as <- <-. destruct (ExitFlag s); reflexivity.
  - injection H as <- <-. cbn [holds_after takes_lock gives_lock on_display in_cs].
    apply holds_after_neutral. destruct (wt.Initialized w); cbn; [constructor|].
    repeat constructor. apply Forall_app. split; [|repeat constructor].
    destruct (Texture (Globals s)); [apply MakeNewTexture_neutral|constructor].
  - injection H as <- <-. apply holds_after_neutral.
    constructor; [reflexivity|]. destruct (wt.NewSize w); repeat constructor.
  - injection H as <- <-. apply holds_after_neutral.
    destruct (wt.MakeNewTexture w); [|constructor].
    change (Forall (fun o => lock_neutral (Globals s) o = true)
              (MakeNewTexture s ++ [set_MakeNewTexture i false])).
    apply Forall_app. split; [apply MakeNewTexture_neutral|repeat constructor].
  - destruct (Animate (Globals s)); injection H as <- <-; reflexivity.
Qed.

Lemma handle_neutral (s : state) (g : globals) (i : nat) (w : wt.winthread) (e : XEvent) :
  Forall (fun o => lock_neutral g o = true) (handle s i w e).
Proof.
  destruct e; cbn [handle]; try (repeat constructor; fail).
  - unfold resize, signal_redraw. destruct (Animate _); repeat constructor.
  - unfold motion. destruct (any_button _); repeat constructor.
  - unfold keypress, release_all, signal_redraw. destruct (_ =? XK_Escape).
    + apply Forall_app. split; [destruct (Animate _); repeat constructor|].
      constructor; [reflexivity|]. apply Forall_fmap, Forall_forall. reflexivity.
    + destruct (_ || _); [|destruct (_ || _)];
        repeat (destruct (Texture _) || destruct (Animate _)); repeat constructor.
Qed.

Lemma main_next_holds (y : system) (l : label) (p : main_pc) (ops : list op) :
  MultiDisplays (Globals (shared y)) = false ->
  main_next y l p ops -> holds_after (Globals (shared y)) false ops = Some false.
Proof.
  intros M [i A B|i A B|w A B|A|w e A B].
  - reflexivity.
  - reflexivity.
  - apply holds_after_neutral. unfold main_shutdown, clean_up.
    fold (destroy_ops (WinThreads (shared y))). rewrite M.
    apply Forall_app. split; [apply Forall_app; split|repeat constructor].
    + apply Forall_fmap, Forall_forall. reflexivity.
    + eapply Forall_impl; [apply destroy_ops_kind|]. intros [] ?; try discriminate; reflexivity.
  - reflexivity.
  - rewrite M. unfold event_loop.
    rewrite holds_after_app, (LOCK_holds _ _ (shared_locks _ M)).
    cbn [app holds_after takes_lock gives_lock on_display].
    destruct e as [e|]; cbn [app holds_after takes_lock gives_lock on_display].
    + rewrite holds_after_app, (UNLOCK_holds _ _ (shared_locks _ M)). apply holds_after_neutral.
      unfold dispatch. destruct (event_window e); [|constructor].
      destruct (find_window _ _) as [[k r]|]; [apply handle_neutral|constructor].
    + rewrite holds_after_app, (UNLOCK_holds _ _ (shared_locks _ M)). reflexivity.
Qed.

Lemma in_cs_moved (p p' : pc) :
  p' = p \/ (p = Waiting /\ p' = Woken) \/ (p = NotCreated /\ p' = AtWhile) ->
  in_cs p' = in_cs p.
Proof. intros [->|[[-> ->]|[-> ->]]]; reflexivity. Qed.

Lemma lock_inv_step (g : globals) (l : label) (y y' : system) :
  MultiDisplays g = false -> Globals (shared y) = g ->
  step_kind g y y' l -> lock_inv g y -> lock_inv g y'.
Proof.
  intros M G K (Hok & Hown & Hcs & Hm). unfold lock_inv.
  destruct K as [o ops Eo Ro E Eo' Ea Ed L|l0 p ops Eo N R Es Eo' Ea Ed L
                |j w p p' ops s' Hw Hp Hd R Hr Es Eo' Ea Ed L]; rewrite L, Eo'.
  - rewrite Eo in Hm. cbn [lock_monitor].
    destruct (exec_holds g MainThread o ops _ _ _ false E Hm Hok Hown) as (A & B & C & D).
    split; [exact B|]. split; [exact C|]. split; [|exact A].
    intros i p' Hp'. destruct (exec_effects i _ _ _ _ E) as (_ & _ & _ & _ & Pc).
    destruct (Pc p' Hp') as (p & Hp & Hmv).
    rewrite D by discriminate. rewrite (in_cs_moved _ _ Hmv). apply Hcs, Hp.
  - rewrite Es. split; [exact Hok|]. split; [exact Hown|]. split; [exact Hcs|].
    rewrite Eo in Hm. cbn in Hm. injection Hm as ->. subst g.
    eapply main_next_holds; eassumption.
  - rewrite Es. unfold display_lock in *. cbn [Mutex DisplayLock with_Threads].
    fold (display_lock g s'). fold (display_lock g (shared y)) in Hok, Hown, Hcs, Hm.
    pose proof (draw_loop_holds _ _ _ _ _ _ ltac:(rewrite G; apply shared_locks, M) Hd) as Hh.
    rewrite G, <- (Hcs j p Hp) in Hh.
    destruct (run_holds g _ ops _ _ (log y) _ Hr Hh Hok Hown) as (A & B & C & D).
    destruct (run_render _ _ _ _ _ _ R Hr) as (T & _ & _).
    split; [exact B|]. split; [exact C|]. split.
    + intros i q Hq. unfold at_pc in Hq. cbn [Threads with_Threads] in Hq. rewrite T in Hq.
      apply list_lookup_insert_Some in Hq as [(<- & <- & _)|[Hne Hq]]; [exact A|].
      rewrite D by congruence. apply Hcs, Hq.
    + rewrite D by discriminate. exact Hm.
Qed.



(** ** Texturing *)

Lemma exec_untextured (t : thread) (o : op) (s s' : state) :
  is_texture_op o = false -> exec_op t o s = Some s' ->
  (Forall (fun w => wt.MakeNewTexture w = false) (WinThreads s) ->
   Forall (fun w => wt.MakeNewTexture w = false) (WinThreads s'))
  /\ step s' = step s /\ TexWidth s' = TexWidth s.
Proof.
  intros Hn H.
  destruct o; try (match goal with m : mutex |- _ => destruct m end);
    try (match goal with b : bool |- _ => destruct b end);
    try discriminate Hn; exec_cases H; cbn;
    (split; [|split; reflexivity]); intros F; try exact F;
    apply Forall_alter; try exact F; intros [] _ Hx; exact Hx || reflexivity.
Qed.

Lemma run_untextured (t : thread) (ops : list op) (s s' : state) :
  Forall (fun o => is_texture_op o = false) ops -> run_ops t ops s = Some s' ->
  (Forall (fun w => wt.MakeNewTexture w = false) (WinThreads s) ->
   Forall (fun w => wt.MakeNewTexture w = false) (WinThreads s'))
  /\ step s' = step s /\ TexWidth s' = TexWidth s.
Proof.
  revert s. induction ops as [|o ops IH]; intros s Hn H; cbn in H.
  - injection H as <-. repeat split. auto.
  - inversion Hn as [|? ? Ho Hops]; subst.
    destruct (exec_op t o s) as [s1|] eqn:E; [|discriminate].
    destruct (exec_untextured _ _ _ _ Ho E) as (E1 & E2 & E3).
    destruct (IH _ Hops H) as (F1 & F2 & F3).
    split; [auto|]. split; congruence.
Qed.

Lemma draw_loop_untextured (s : state) (i : nat) (w : wt.winthread) (p p' : pc)
    (ops : list op) :
  Texture (Globals s) = false -> wt.MakeNewTexture w = false ->
  draw_loop s i w p = Some (ops, p') ->
  Forall (fun o => is_texture_op o = false) ops.
Proof.
  intros T F H. unfold draw_loop in H. rewrite T, F in H.
  assert (HL : forall d, Forall (fun o => is_texture_op o = false) (LOCK (Globals s) d)).
  { intros d. unfold LOCK. destruct (Locking _); [|destruct (MultiDisplays _)];
      repeat constructor. }
  assert (HU : forall d, Forall (fun o => is_texture_op o = false) (UNLOCK (Globals s) d)).
  { intros d. unfold UNLOCK. destruct (Locking _); [|destruct (MultiDisplays _)];
      repeat constructor. }
  destruct p; cbv beta iota zeta in H; try discriminate;
    try (injection H as <- <-; first [apply HL|apply HU|solve [repeat constructor]]).
  - injection H as <- <-. constructor; [reflexivity|].
    destruct (wt.Initialized w); repeat constructor.
  - injection H as <- <-. constructor; [reflexivity|].
    destruct (wt.NewSize w); repeat constructor.
  - destruct (Animate (Globals s)); injection H as <- <-; repeat constructor.
Qed.

Lemma untextured_inv_step (g : globals) (l : label) (y y' : system) :
  Texture g = false -> Globals (shared y) = g ->
  step_kind g y y' l -> untextured_inv y -> untextured_inv y'.
Proof.
  intros T G K (H1 & H2 & H3 & H4). unfold untextured_inv.
  destruct K as [o ops Eo Ro E Eo' Ea Ed L|l0 p ops Eo N R Es Eo' Ea Ed L
                |j w p p' ops s' Hw Hp Hd R Hr Es Eo' Ea Ed L]; rewrite L.
  - assert (C : is_texture_op o = false).
    { destruct o; try (match goal with m : mutex |- _ => destruct m end);
        try (match goal with b : bool |- _ => destruct b end);
        try reflexivity; cbn in Ro; rewrite ?T in Ro; discriminate Ro. }
    destruct (exec_untextured _ _ _ _ C E) as (A1 & A2 & A3).
    split; [auto|]. split; [congruence|]. split; [congruence|].
    constructor; assumption.
  - rewrite Es. repeat split; assumption.
  - rewrite Es. cbn [WinThreads step TexWidth with_Threads].
    assert (F : wt.MakeNewTexture w = false).
    { rewrite Forall_lookup in H1. eapply H1, Hw. }
    pose proof (draw_loop_untextured _ _ _ _ _ _ ltac:(rewrite G; exact T) F Hd) as C.
    destruct (run_untextured _ _ _ _ C Hr) as (A1 & A2 & A3).
    split; [auto|]. split; [congruence|]. split; [congruence|].
    apply logged_Forall; assumption.
Qed.

(** X7. Without [-t] the program does no texturing at all.  In every
    execution no record's [MakeNewTexture] is ever set, [MakeNewTexture] is
    never called (no texture call is issued, the scalar [step] stays 0.0 and
    the texture is never created), the [t] key changes nothing, and every
    cube is drawn untextured. *)
Theorem no_texturing_without_t (g : globals) (dpy : Z) (ws : list wt.winthread)
    (ls : list label) (y : system) :
  Texture g = false ->
  Forall (fun w => wt.MakeNewTexture w = false) ws ->
  run ls (boot dpy (initial_state g ws)) = Some y ->
  Forall (fun w => wt.MakeNewTexture w = false) (WinThreads (shared y))
  /\ step (shared y) = S754_zero false
  /\ TexWidth (shared y) = 0
  /\ Forall (fun e => is_texture_op (snd e) = false) (log y)
  /\ (forall i, keypress (shared y) XK_t i = [] /\ keypress (shared y) XK_T i = []).
Proof.
  intros T F Hrun.
  assert (H : roles_inv g y /\ untextured_inv y).
  { eapply (run_invariant (fun y => roles_inv g y /\ untextured_inv y)); [| |exact Hrun].
    - intros l y1 y2 [R I] St.
      destruct (roles_inv_step g l y1 y2 R St) as (R' & K & _).
      split; [exact R'|].
      apply (untextured_inv_step g l y1 y2); [exact T|apply R|exact K|exact I].
    - split; [apply initial_roles_inv|]. repeat split; [exact F|constructor]. }
  destruct H as [(G & _) (H1 & H2 & H3 & H4)].
  split; [exact H1|]. split; [exact H2|]. split; [exact H3|]. split; [exact H4|].
  intros i. unfold keypress. rewrite G, T. split; reflexivity.
Qed.

Lemma no_texturing_without_t_witness :
  exists y, run two_frames_schedule (boot 1000 (setup_state ["glthreads"])) = Some y
    /\ Forall (fun e => is_texture_op (snd e) = false) (log y)
    /\ presents 0 (log y) = 2%nat.
Proof.
  destruct (run two_frames_schedule (boot 1000 (setup_state ["glthreads"])))
    as [y|] eqn:E; [|vm_compute in E; discriminate].
  exists y. split; [reflexivity|].
  destruct (no_texturing_without_t initial_globals 1000
              (WinThreads (setup_state ["glthreads"])) two_frames_schedule y eq_refl
              ltac:(repeat constructor) E) as (_ & _ & _ & H & _).
  split; [exact H|]. vm_compute in E. injection E as <-. reflexivity.
Defined.

Lemma exec_tex_safe (t : thread) (o : op) (s s' : state) :
  tex_safe o = true -> exec_op t o s = Some s' ->
  (TexWidth s' = TexWidth s \/ TexWidth s' = TEX_SIZE) /\ Aborted s' = Aborted s.
Proof.
  intros Hn H.
  destruct o; try (match goal with m : mutex |- _ => destruct m end);
    try discriminate Hn; exec_cases H; cbn; (split; [|reflexivity]); auto.
  right. apply Z.eqb_eq, Hn.
Qed.

Lemma run_tex_safe (t : thread) (ops : list op) (s s' : state) :
  Forall (fun o => tex_safe o = true) ops -> run_ops t ops s = Some s' ->
  (TexWidth s' = TexWidth s \/ TexWidth s' = TEX_SIZE) /\ Aborted s' = Aborted s.
Proof.
  revert s. induction ops as [|o ops IH]; intros s Hn H; cbn in H.
  - injection H as <-. auto.
  - inversion Hn as [|? ? Ho Hops]; subst.
    destruct (exec_op t o s) as [s1|] eqn:E; [|discriminate].
    destruct (exec_tex_safe _ _ _ _ Ho E) as (E1 & E2).
    destruct (IH _ Hops H) as (F1 & F2).
    split; [|congruence]. destruct F1 as [F1|F1]; [|auto]. rewrite F1. exact E1.
Qed.

Lemma MakeNewTexture_tex_safe (s : state) :
  TexWidth s = 0 \/ TexWidth s = TEX_SIZE ->
  Forall (fun o => tex_safe o = true) (MakeNewTexture s).
Proof.
  intros [W|W]; unfold MakeNewTexture; rewrite W; repeat constructor.
Qed.

Lemma draw_loop_tex_safe (s : state) (i : nat) (w : wt.winthread) (p p' : pc)
    (ops : list op) :
  TexWidth s = 0 \/ TexWidth s = TEX_SIZE ->
  draw_loop s i w p = Some (ops, p') ->
  Forall (fun o => tex_safe o = true) ops.
Proof.
  intros W H. unfold draw_loop in H.
  assert (HL : forall d, Forall (fun o => tex_safe o = true) (LOCK (Globals s) d)).
  { intros d. unfold LOCK. destruct (Locking _); [|destruct (MultiDisplays _)];
      repeat constructor. }
  assert (HU : forall d, Forall (fun o => tex_safe o = true) (UNLOCK (Globals s) d)).
  { intros d. unfold UNLOCK. destruct (Locking _); [|destruct (MultiDisplays _)];
      repeat constructor. }
  destruct p; cbv beta iota zeta in H; try discriminate;
    try (injection H as <- <-; first [apply HL|apply HU|solve [repeat constructor]]).
  - injection H as <- <-. constructor; [reflexivity|].
    destruct (wt.Initialized w); cbn; [constructor|].
    repeat constructor. apply Forall_app. split; [|repeat constructor].
    destruct (Texture (Globals s)); [apply MakeNewTexture_tex_safe, W|constructor].
  - injection H as <- <-. constructor; [reflexivity|].
    destruct (wt.NewSize w); repeat constructor.
  - injection H as <- <-. destruct (wt.MakeNewTexture w); [|constructor].
    change (Forall (fun o => tex_safe o = true)
              (MakeNewTexture s ++ [set_MakeNewTexture i false])).
    apply Forall_app. split; [apply MakeNewTexture_tex_safe, W|repeat constructor].
  - destruct (Animate (Globals s)); injection H as <- <-; repeat constructor.
Qed.

Lemma texture_inv_step (g : globals) (l : label) (y y' : system) :
  step_kind g y y' l -> texture_inv y -> texture_inv y'.
Proof.
  intros K (H1 & H2 & H3). unfold texture_inv.
  destruct K as [o ops Eo Ro E Eo' Ea Ed L|l0 p ops Eo N R Es Eo' Ea Ed L
                |j w p p' ops s' Hw Hp Hd R Hr Es Eo' Ea Ed L]; rewrite L.
  - assert (C : tex_safe o = true).
    { destruct o; try reflexivity; discriminate Ro. }
    destruct (exec_tex_safe _ _ _ _ C E) as (A1 & A2).
    split; [destruct A1 as [A1|A1]; [rewrite A1; exact H1|auto]|].
    split; [congruence|]. constructor; assumption.
  - rewrite Es. repeat split; assumption.
  - rewrite Es. cbn [TexWidth Aborted with_Threads].
    pose proof (draw_loop_tex_safe _ _ _ _ _ _ H1 Hd) as C.
    destruct (run_tex_safe _ _ _ _ C Hr) as (A1 & A2).
    split; [destruct A1 as [A1|A1]; [rewrite A1; exact H1|auto]|].
    split; [congruence|]. apply logged_Forall; assumption.
Qed.

(** X8. The [assert] of [MakeNewTexture] never fails.  In every execution
    the width that [glGetTexLevelParameteriv] reports for the texture is 0
    (not created yet) or [TEX_SIZE]: every image given to [glTexImage2D] is
    [TEX_SIZE] wide, no [assert] fails and the process is never aborted once
    the threads run. *)
Theorem texture_assert_holds (g : globals) (dpy : Z) (ws : list wt.winthread)
    (ls : list label) (y : system) :
  run ls (boot dpy (initial_state g ws)) = Some y ->
  (TexWidth (shared y) = 0 \/ TexWidth (shared y) = TEX_SIZE)
  /\ Aborted (shared y) = false
  /\ Forall (fun e => tex_safe (snd e) = true) (log y)
  /\ Forall (fun o => tex_safe o = true) (MakeNewTexture (shared y)).
Proof.
  intros Hrun.
  assert (H : roles_inv g y /\ texture_inv y).
  { eapply (run_invariant (fun y => roles_inv g y /\ texture_inv y)); [| |exact Hrun].
    - intros l y1 y2 [R I] St.
      destruct (roles_inv_step g l y1 y2 R St) as (R' & K & _).
      split; [exact R'|]. apply (texture_inv_step g l y1 y2); assumption.
    - split; [apply initial_roles_inv|]. repeat split; [left; reflexivity|constructor]. }
  destruct H as [_ (H1 & H2 & H3)].
  split; [exact H1|]. split; [exact H2|]. split; [exact H3|].
  apply MakeNewTexture_tex_safe, H1.
Qed.

Lemma texture_assert_holds_witness :
  exists y, run textured_frame (boot 1000 (setup_state ["glthreads"; "-t"])) = Some y
    /\ TexWidth (shared y) = TEX_SIZE
    /\ Aborted (shared y) = false.
Proof.
  assert (K : from_option (fun y => TexWidth (shared y)) 0
                (run textured_frame (boot 1000 (setup_state ["glthreads"; "-t"])))
              = TEX_SIZE) by (vm_compute; reflexivity).
  destruct (run textured_frame (boot 1000 (setup_state ["glthreads"; "-t"])))
    as [y|] eqn:E; [|discriminate K].
  exists y. split; [reflexivity|].
  destruct (texture_assert_holds (Globals (setup_state ["glthreads"; "-t"])) 1000
              (WinThreads (setup_state ["glthreads"; "-t"])) textured_frame y E)
    as (_ & H & _).
  split; [exact K|exact H].
Defined.

(** ** The records after setup *)

Lemma create_window_Some (a : answers) (g : globals) (dpy : Z) (i : nat) (sh : Z)
    (ops : list op) (w : wt.winthread) :
  create_window a i (if MultiDisplays g then XOpenDisplay_ret a i else dpy) sh
  = (ops, Some w) ->
  w = fresh_record a g dpy i /\ create_ok a i = true
  /\ filter (fun o => is_context_call o = true) ops
     = [glXCreateContext (if MultiDisplays g then XOpenDisplay_ret a i else dpy) sh].
Proof.
  unfold create_window, create_ok.
  destruct (glXChooseVisual_ret a i =? 0); [discriminate|].
  destruct (XCreateWindow_ret a i =? 0); [discriminate|].
  destruct (glXCreateContext_ret a i =? 0); [discriminate|].
  destruct (pthread_mutex_init_ret a i =? -1); [discriminate|].
  destruct (pthread_mutex_lock_ret a i =? -1); [discriminate|].
  intros [= <- <-]. repeat split.
Qed.

(** The loop that creates the windows: the records it adds, and the share
    argument of each [glXCreateContext]. *)
Lemma create_windows_records (a : answers) (g : globals) (name : option string) (dpy : Z)
    (k i : nat) (ws ws' : list wt.winthread) (ops : list op) :
  create_windows a g name dpy k i ws = (ops, Continue ws') ->
  length ws = i ->
  ws' = ws ++ (fresh_record a g dpy <$> seq i k)
  /\ (forall j, (i <= j < i + k)%nat ->
        create_ok a j = true /\ (MultiDisplays g = true -> XOpenDisplay_ret a j <> 0))
  /\ filter (fun o => is_context_call o = true) ops
     = (fun j => glXCreateContext (if MultiDisplays g then XOpenDisplay_ret a j else dpy)
                   (share_of g ws' j)) <$> seq i k.
Proof.
  revert i ws ops. induction k as [|k IH]; intros i ws ops H Hl; cbn [create_windows] in H.
  - injection H as <- <-. rewrite app_nil_r. repeat split; lia.
  - destruct (MultiDisplays g && _) eqn:E0; [discriminate|].
    destruct (create_window a i _ _) as [ops1 [w|]] eqn:E1; [|discriminate].
    destruct (create_windows a g name dpy k (S i) (ws ++ [w])) as [ops2 r] eqn:E2.
    injection H as <- ->.
    apply create_window_Some in E1 as (-> & Hok & Hctx).
    destruct (IH _ _ _ E2) as (A & B & C); [rewrite length_app; cbn; lia|].
    split; [|split].
    + rewrite A, <- app_assoc. reflexivity.
    + intros j Hj. destruct (decide (j = i)) as [->|Hne]; [|apply B; lia].
      split; [exact Hok|]. intros M. rewrite M in E0. cbn in E0. apply Z.eqb_neq, E0.
    + rewrite !filter_app, Hctx, C. cbn [seq fmap list_fmap].
      rewrite filter_none by (destruct (MultiDisplays g); repeat constructor).
      cbn [app]. f_equal. f_equal. unfold share_of.
      destruct (Texture g && bool_decide (0 < i)%nat) eqn:T; [|reflexivity].
      apply andb_prop in T as [_ T]. apply bool_decide_eq_true in T.
      rewrite A, <- app_assoc, lookup_app_l by lia. reflexivity.
Qed.

Lemma parse_args_threads (args : list string) (c c' : cmdline) :
  1 <= numThreads c <= MAX_WINTHREADS -> parse_args args c = Some c' ->
  1 <= numThreads c' <= MAX_WINTHREADS.
Proof.
  apply (parse_args_keeps (fun c => 1 <= numThreads c <= MAX_WINTHREADS)).
  - intros c0 H. exact H.
  - intros c0 H. exact H.
  - intros c0 H. exact H.
  - intros v c0 H. exact H.
  - intros v c0 _. cbn. rewrite clamp_threads_spec. unfold MAX_WINTHREADS. lia.
Qed.

Lemma main_args_threads (argv : list string) (c : cmdline) :
  snd (main_args argv) = Some c -> 1 <= numThreads c <= MAX_WINTHREADS.
Proof.
  apply (main_args_keeps (fun c => 1 <= numThreads c <= MAX_WINTHREADS)); try (cbn; auto; fail).
  - intros v c0 _. cbn. rewrite clamp_threads_spec. unfold MAX_WINTHREADS. lia.
  - cbn. unfold MAX_WINTHREADS. lia.
Qed.

(** X9. Whatever the command line, [main] starts the threads on between 1
    and [MAX_WINTHREADS] records (every option [-n], in any number and
    order, leaves [numThreads] in that range; so does no option at all), so
    it never writes past the array [WinThreads]; each record has a thread
    that is not created yet, [ExitFlag] is clear, and no lock is held. *)
Theorem setup_within_array (a : answers) (argv : list string) (d : Z) (s : state) :
  snd (main_setup a argv) = Continue (d, s) ->
  (1 <= NumWinThreads s <= Z.to_nat MAX_WINTHREADS)%nat
  /\ Threads s = replicate (NumWinThreads s) NotCreated
  /\ ExitFlag s = false
  /\ (Mutex s = None /\ CondMutex s = None /\ DisplayLock s = None)
  /\ (forall args c c', 1 <= numThreads c <= MAX_WINTHREADS ->
        parse_args args c = Some c' -> 1 <= numThreads c' <= MAX_WINTHREADS).
Proof.
  intros H. destruct (main_setup_Continue _ _ _ _ H) as (c & ops & ws & Hc & _ & _ & Hw & ->).
  pose proof (main_args_threads _ _ Hc) as Hn.
  pose proof (create_windows_length _ _ _ _ _ _ _ _ _ Hw) as Hl. cbn [length] in Hl.
  unfold NumWinThreads. cbn [initial_state WinThreads Threads ExitFlag Mutex CondMutex DisplayLock].
  split; [|split; [|split; [|split]]].
  - rewrite Hl. unfold MAX_WINTHREADS in *. lia.
  - clear. induction ws as [|w ws IH]; [reflexivity|]. cbn. f_equal. exact IH.
  - reflexivity.
  - repeat split.
  - apply parse_args_threads.
Qed.

Lemma setup_within_array_witness :
  (1 <= NumWinThreads (setup_state ["glthreads"; "-n"; "7"; "-n"; "500"])
   <= Z.to_nat MAX_WINTHREADS)%nat
  /\ NumWinThreads (setup_state ["glthreads"; "-n"; "7"; "-n"; "500"]) = 100%nat.
Proof.
  destruct (setup_within_array ok_answers ["glthreads"; "-n"; "7"; "-n"; "500"] 1000
              (setup_state ["glthreads"; "-n"; "7"; "-n"; "500"])) as [H _].
  - vm_compute. reflexivity.
  - split; [exact H|]. vm_compute. reflexivity.
Defined.

(** X10. The records that [main] hands to the threads.  After a setup that
    does not end the process, the record at index [i] has [Index = i], the
    connection of its mode (the shared one, or the answer to its own
    [XOpenDisplay]) and it is not null, the window and the context that
    [XCreateWindow] and [glXCreateContext] returned for it, neither null, a
    700 by 700 size with [NewSize] set (the first frame sets the viewport),
    zero angles, and [Initialized] and [MakeNewTexture] clear; all five
    checks of [create_window] have passed for it. *)
Theorem setup_records (a : answers) (argv : list string) (d : Z) (s : state) :
  snd (main_setup a argv) = Continue (d, s) ->
  WinThreads s = fresh_record a (Globals s) d <$> seq 0 (NumWinThreads s)
  /\ (forall i w, WinThreads s !! i = Some w ->
        wt.Index w = i
        /\ wt.Dpy w = (if MultiDisplays (Globals s) then XOpenDisplay_ret a i else d)
        /\ wt.Dpy w <> 0 /\ wt.Win w <> 0 /\ wt.Context w <> 0
        /\ (wt.WinWidth w = 700 /\ wt.WinHeight w = 700 /\ wt.NewSize w = true)
        /\ (wt.Initialized w = false /\ wt.MakeNewTexture w = false)
        /\ create_ok a i = true)
  /\ (MultiDisplays (Globals s) = false -> d = XOpenDisplay_ret a 0 /\ d <> 0).
Proof.
  intros H. destruct (main_setup_Continue _ _ _ _ H) as (c & ops & ws & Hc & Hd & Hd0 & Hw & ->).
  destruct (create_windows_records _ _ _ _ _ _ _ _ _ Hw eq_refl) as (A & B & _).
  cbn [app] in A. unfold NumWinThreads. cbn [initial_state WinThreads Globals].
  assert (L : length ws = Z.to_nat (numThreads c)).
  { rewrite A, length_fmap, length_seq. reflexivity. }
  split; [rewrite L; exact A|]. split.
  - intros i w Hi. rewrite A, list_lookup_fmap in Hi.
    destruct (seq 0 (Z.to_nat (numThreads c)) !! i) as [j|] eqn:Hj; [|discriminate Hi].
    injection Hi as <-. apply lookup_seq in Hj as [-> Hj]. cbn [Nat.add].
    destruct (B i ltac:(lia)) as [Hok Hm].
    unfold create_ok in Hok. repeat (apply andb_prop in Hok; destruct Hok as [Hok ?]).
    repeat match goal with E : negb _ = true |- _ => apply negb_true_iff, Z.eqb_neq in E end.
    cbn. repeat split; try assumption.
    + destruct (MultiDisplays (cl_globals c)); auto.
    + unfold create_ok. repeat (apply andb_true_intro; split);
        apply negb_true_iff, Z.eqb_neq; assumption.
  - intros M. rewrite M in Hd. auto.
Qed.

Lemma setup_records_witness :
  WinThreads (setup_state ["glthreads"; "-p"; "-n"; "3"])
  = fresh_record ok_answers (Globals (setup_state ["glthreads"; "-p"; "-n"; "3"])) 0
    <$> seq 0 3.
Proof.
  destruct (setup_records ok_answers ["glthreads"; "-p"; "-n"; "3"] 0
              (setup_state ["glthreads"; "-p"; "-n"; "3"])) as [H _].
  - vm_compute. reflexivity.
  - exact H.
Defined.

Lemma main_args_no_context (argv : list string) :
  filter (fun o => is_context_call o = true) (fst (main_args argv)) = [].
Proof.
  unfold main_args. destruct argv as [|x [|y r]]; try reflexivity;
    destruct (parse_args _ _); reflexivity.
Qed.

(** X11. Which contexts share.  In a setup that does not end the process,
    [glXCreateContext] is called once for each record, in index order, on
    the connection of the record; with [-t] every call after the first
    passes the context of record 0 as the context to share with, and the
    first passes none; without [-t] no call passes one. *)
Theorem contexts_share_with_first (a : answers) (argv : list string) (d : Z) (s : state) :
  snd (main_setup a argv) = Continue (d, s) ->
  filter (fun o => is_context_call o = true) (fst (main_setup a argv))
  = (fun i => glXCreateContext
                (if MultiDisplays (Globals s) then XOpenDisplay_ret a i else d)
                (if Texture (Globals s) && bool_decide (0 < i)%nat
                 then glXCreateContext_ret a 0 else 0))
    <$> seq 0 (NumWinThreads s).
Proof.
  intros H. destruct (main_setup_Continue _ _ _ _ H) as (c & ops & ws & Hc & Hd & Hd0 & Hw & ->).
  destruct (create_windows_records _ _ _ _ _ _ _ _ _ Hw eq_refl) as (A & B & C).
  cbn [app] in A. unfold NumWinThreads. cbn [initial_state WinThreads Globals].
  assert (L : length ws = Z.to_nat (numThreads c)).
  { rewrite A, length_fmap, length_seq. reflexivity. }
  rewrite L. unfold main_setup in *. pose proof (main_args_no_context argv) as N0.
  destruct (main_args argv) as [ops0 [c1|]]; [|discriminate]. cbn [snd fst] in *.
  injection Hc as ->.
  assert (E : (if negb (MultiDisplays (cl_globals c)) then XOpenDisplay_ret a 0 else 0) = d).
  { rewrite Hd. destruct (MultiDisplays (cl_globals c)); reflexivity. }
  rewrite E in *.
  destruct (negb (MultiDisplays (cl_globals c)) && (d =? 0)) eqn:E0; [discriminate|].
  rewrite Hw. cbn [fst]. rewrite !filter_app, N0, C.
  rewrite (filter_none is_context_call (main_banner _)).
  2:{ unfold main_banner. destruct (Locking _), (MultiDisplays _); repeat constructor. }
  rewrite (filter_none is_context_call (if negb _ then _ else _)).
  2:{ destruct (MultiDisplays _), (Locking _), (XInitThreads_ret a =? 0); repeat constructor. }
  rewrite !filter_none by repeat constructor. cbn [app]. rewrite app_nil_r.
  apply list_fmap_ext. intros k j Hj. f_equal. unfold share_of.
  destruct (Texture (cl_globals c) && bool_decide (0 < j)%nat) eqn:T; [|reflexivity].
  apply lookup_seq in Hj as [-> Hj]. apply andb_prop in T as [_ T].
  apply bool_decide_eq_true in T. rewrite A, list_lookup_fmap, lookup_seq_lt by lia.
  reflexivity.
Qed.

Lemma contexts_share_with_first_witness :
  filter (fun o => is_context_call o = true)
    (fst (main_setup ok_answers ["glthreads"; "-t"; "-n"; "3"]))
  = [glXCreateContext 1000 0; glXCreateContext 1000 80; glXCreateContext 1000 80].
Proof.
  rewrite (contexts_share_with_first ok_answers ["glthreads"; "-t"; "-n"; "3"] 1000
             (setup_state ["glthreads"; "-t"; "-n"; "3"])).
  - vm_compute. reflexivity.
  - vm_compute. reflexivity.
Defined.

(** ** The handlers as functions on the record *)

Lemma lookup_on_wt_eq (i : nat) (f : wt.winthread -> wt.winthread) (s : state) :
  WinThreads (on_wt i f s) !! i = f <$> WinThreads s !! i.
Proof. rewrite lookup_on_wt, decide_True by reflexivity. reflexivity. Qed.

Lemma lookup_on_wt_ne (i j : nat) (f : wt.winthread -> wt.winthread) (s : state) :
  j <> i -> WinThreads (on_wt i f s) !! j = WinThreads s !! j.
Proof. intros H. rewrite lookup_on_wt, decide_False by congruence. reflexivity. Qed.

(** X12. What an event does to the records.  In animate mode the handler
    of an event other than the exit key never blocks and changes nothing
    but the record it is run on (in [event_loop] the first record with the
    window of the event, in [event_loop_multi] the record of the polled
    connection): a resize stores the size, sets [NewSize] and releases the
    gate; a pointer motion releases the gate and, with a button down, adds
    the scaled distance from the motion start to the angles and moves the
    motion start; a button press only stores the motion start (no gate is
    released, so nothing is redrawn); a button release and an expose only
    release the gate; the [t] key sets [MakeNewTexture] when texturing is
    on; any other key or event changes nothing. *)
Theorem event_changes_its_record (s : state) (i : nat) (r : wt.winthread) (e : XEvent) :
  Animate (Globals s) = true ->
  WinThreads s !! i = Some r ->
  (forall W, e <> KeyPress W XK_Escape) ->
  exists s',
    run_ops MainThread (handle s i r e) s = Some s'
    /\ WinThreads s' !! i = Some (after_event (Globals s) e r)
    /\ (forall j, j <> i -> WinThreads s' !! j = WinThreads s !! j)
    /\ same_but_records s s'
    /\ (forall W, event_window e = Some W -> find_window s W = Some (i, r) ->
          dispatch s e = handle s i r e)
    /\ (forall e', event_loop_multi s i (Some e')
          = [XPending (wt.Dpy r); XNextEvent (wt.Dpy r)] ++ handle s i r e' ++ [usleep 5000]).
Proof.
  intros A Hr Hesc.
  assert (Hd : forall W, event_window e = Some W -> find_window s W = Some (i, r) ->
                 dispatch s e = handle s i r e).
  { intros W EW F. unfold dispatch. rewrite EW, F. reflexivity. }
  assert (Hm : forall e', event_loop_multi s i (Some e')
                 = [XPending (wt.Dpy r); XNextEvent (wt.Dpy r)]
                   ++ handle s i r e' ++ [usleep 5000]).
  { intros e'. unfold event_loop_multi. rewrite Hr. reflexivity. }
  assert (S0 : same_but_records s s) by (repeat split).
  assert (Main : exists s',
            run_ops MainThread (handle s i r e) s = Some s'
            /\ WinThreads s' !! i = Some (after_event (Globals s) e r)
            /\ (forall j, j <> i -> WinThreads s' !! j = WinThreads s !! j)
            /\ same_but_records s s').
  { clear Hd Hm.
    destruct e as [W wd ht|W st x y|W x y|W|W|W K|]; cbn [handle after_event].
    - unfold resize. rewrite A. cbn [negb app run_ops exec_op].
      eexists. split; [reflexivity|].
      split; [rewrite !lookup_on_wt_eq, Hr; reflexivity|].
      split; [intros j Hj; rewrite !lookup_on_wt_ne by exact Hj; reflexivity|exact S0].
    - unfold motion. destruct (any_button st); cbn [app run_ops exec_op];
        (eexists; split; [reflexivity|]);
        (split; [rewrite !lookup_on_wt_eq, Hr; reflexivity|]);
        (split; [intros j Hj; rewrite !lookup_on_wt_ne by exact Hj; reflexivity|exact S0]).
    - cbn [run_ops exec_op]. eexists. split; [reflexivity|].
      split; [rewrite !lookup_on_wt_eq, Hr; reflexivity|].
      split; [intros j Hj; rewrite !lookup_on_wt_ne by exact Hj; reflexivity|exact S0].
    - cbn [run_ops exec_op]. eexists. split; [reflexivity|].
      split; [rewrite !lookup_on_wt_eq, Hr; reflexivity|].
      split; [intros j Hj; rewrite !lookup_on_wt_ne by exact Hj; reflexivity|exact S0].
    - cbn [run_ops exec_op]. eexists. split; [reflexivity|].
      split; [rewrite !lookup_on_wt_eq, Hr; reflexivity|].
      split; [intros j Hj; rewrite !lookup_on_wt_ne by exact Hj; reflexivity|exact S0].
    - unfold keypress. rewrite A.
      destruct (K =? XK_Escape) eqn:E;
        [apply Z.eqb_eq in E; subst K; destruct (Hesc W eq_refl)|].
      destruct ((K =? XK_t) || (K =? XK_T)); cbn [andb negb].
      + destruct (Texture (Globals s)); cbn [run_ops exec_op].
        * eexists. split; [reflexivity|].
          split; [rewrite !lookup_on_wt_eq, Hr; reflexivity|].
          split; [intros j Hj; rewrite !lookup_on_wt_ne by exact Hj; reflexivity|exact S0].
        * exists s. exact (conj eq_refl (conj Hr (conj (fun _ _ => eq_refl) S0))).
      + destruct (_ || _); exists s;
          exact (conj eq_refl (conj Hr (conj (fun _ _ => eq_refl) S0))).
    - exists s. exact (conj eq_refl (conj Hr (conj (fun _ _ => eq_refl) S0))). }
  destruct Main as (s' & M1 & M2 & M3 & M4). exists s'.
  exact (conj M1 (conj M2 (conj M3 (conj M4 (conj Hd Hm))))).
Qed.

Lemma event_changes_its_record_witness :
  exists s',
    run_ops MainThread
      (handle (setup_state ["glthreads"]) 1 (fresh_record ok_answers initial_globals 1000 1)
         (ButtonPress 51 10 20)) (setup_state ["glthreads"]) = Some s'
    /\ WinThreads s' !! 1%nat
       = Some (wt.set_MotionStart 10 20 (fresh_record ok_answers initial_globals 1000 1))
    /\ WinThreads s' !! 0%nat = WinThreads (setup_state ["glthreads"]) !! 0%nat.
Proof.
  destruct (event_changes_its_record (setup_state ["glthreads"]) 1
              (fresh_record ok_answers initial_globals 1000 1) (ButtonPress 51 10 20)
              eq_refl eq_refl ltac:(discriminate)) as (s' & H1 & H2 & H3 & _).
  exists s'. split; [exact H1|]. split; [exact H2|]. apply H3. discriminate.
Defined.

(** ** What the main thread reads *)

Lemma exec_render_views (g : globals) (i : nat) (t : thread) (o : op) (s s' : state) :
  render_op g i o = true -> exec_op t o s = Some s' -> views s' = views s.
Proof.
  intros Hr H. unfold views.
  assert (K : forall k f, (forall w, view_of (f w) = view_of w) ->
            view_of <$> WinThreads (on_wt k f s) = view_of <$> WinThreads s).
  { intros k f Hf. cbn. rewrite (list_fmap_alter view_of f id).
    - apply list_alter_id. reflexivity.
    - apply Forall_forall. intros w _. apply Hf. }
  destruct o; try (match goal with m : mutex |- _ => destruct m end);
    try discriminate Hr; exec_cases H; try reflexivity; apply K; intros []; reflexivity.
Qed.

Lemma run_render_views (g : globals) (i : nat) (t : thread) (ops : list op) (s s' : state) :
  Forall (fun o => render_op g i o = true) ops -> run_ops t ops s = Some s' ->
  views s' = views s.
Proof.
  revert s. induction ops as [|o ops IH]; intros s Hr H; cbn in H.
  - injection H as <-. reflexivity.
  - inversion Hr as [|? ? Ho Hops]; subst.
    destruct (exec_op t o s) as [s1|] eqn:E; [|discriminate].
    rewrite (IH _ Hops H). eapply exec_render_views; eassumption.
Qed.

Lemma list_find_views (W : Z) (l l' : list wt.winthread) :
  view_of <$> l = view_of <$> l' ->
  match list_find (fun w => wt.Win w = W) l, list_find (fun w => wt.Win w = W) l' with
  | Some (i, r), Some (i', r') => i = i' /\ view_of r = view_of r'
  | None, None => True
  | _, _ => False
  end.
Proof.
  revert l'. induction l as [|u l IH]; intros [|v l'] H; try discriminate; [exact I|].
  rewrite !fmap_cons in H.
  assert (Hv : view_of u = view_of v) by (apply (f_equal (fun x => default (view_of u) (head x))) in H; exact H).
  apply (f_equal tail) in H. cbn [tail] in H. specialize (IH _ H).
  cbn [list_find]. assert (Hw : wt.Win u = wt.Win v) by (injection Hv; auto).
  destruct (decide (wt.Win u = W)) as [Hu|Hu].
  - rewrite decide_True by congruence. split; [reflexivity|exact Hv].
  - rewrite decide_False by congruence.
    destruct (list_find _ l) as [[i r]|], (list_find _ l') as [[i' r']|]; cbn;
      try contradiction; [|exact I]. destruct IH as [-> IH]. auto.
Qed.

Lemma handle_views (s s' : state) (i : nat) (r r' : wt.winthread) (e : XEvent) :
  Globals s' = Globals s -> NumWinThreads s' = NumWinThreads s ->
  view_of r' = view_of r -> handle s' i r' e = handle s i r e.
Proof.
  intros G N V. injection V as V1 V2 V3 V4 V5 V6 V7.
  destruct e; cbn [handle]; try reflexivity.
  - rewrite G. reflexivity.
  - unfold motion. rewrite V4, V5, V6, V7. reflexivity.
  - unfold keypress. rewrite G, N. reflexivity.
Qed.

Lemma event_ops_views (s s' : state) :
  Globals s' = Globals s -> views s' = views s ->
  forall d w e,
    event_loop s' d e = event_loop s d e
    /\ event_loop_multi s' w e = event_loop_multi s w e
    /\ main_shutdown s' d = main_shutdown s d.
Proof.
  intros G V d w e. unfold views in V.
  assert (N : NumWinThreads s' = NumWinThreads s).
  { unfold NumWinThreads. rewrite <- (length_fmap view_of (WinThreads s')), V.
    apply length_fmap. }
  split; [|split].
  - unfold event_loop. rewrite G. do 2 f_equal. destruct e as [e|]; [|reflexivity].
    do 2 f_equal. unfold dispatch. destruct (event_window e) as [W|]; [|reflexivity].
    unfold find_window. pose proof (list_find_views W _ _ V) as F.
    destruct (list_find _ (WinThreads s')) as [[i r]|], (list_find _ (WinThreads s)) as [[i' r']|];
      try contradiction; [|reflexivity].
    destruct F as [-> F]. apply handle_views; assumption.
  - unfold event_loop_multi.
    assert (L : view_of <$> WinThreads s' !! w = view_of <$> WinThreads s !! w)
      by (rewrite <- !list_lookup_fmap, V; reflexivity).
    destruct (WinThreads s' !! w) as [r|], (WinThreads s !! w) as [r'|]; try discriminate L;
      [|reflexivity].
    cbn in L. assert (L' : view_of r = view_of r') by congruence.
    assert (D : wt.Dpy r = wt.Dpy r') by (injection L'; auto). rewrite D.
    destruct e as [e|]; [|reflexivity].
    rewrite (handle_views s s' w r' r e) by assumption. reflexivity.
  - unfold main_shutdown, clean_up. rewrite G, N.
    assert (E1 : forall f : Z * Z * Z * Z * Z * Z * Z -> list op,
              (fun w => f (view_of w)) <$> WinThreads s' = (fun w => f (view_of w)) <$> WinThreads s).
    { intros f. rewrite !(list_fmap_compose view_of f), V. reflexivity. }
    assert (E2 : forall f : Z * Z * Z * Z * Z * Z * Z -> op,
              (fun w => f (view_of w)) <$> WinThreads s' = (fun w => f (view_of w)) <$> WinThreads s).
    { intros f. rewrite !(list_fmap_compose view_of f), V. reflexivity. }
    f_equal; [f_equal; f_equal|].
    + exact (E1 (fun '(d0, w0, c0, _, _, _, _) => [glXDestroyContext d0 c0; XDestroyWindow d0 w0])).
    + destruct (MultiDisplays (Globals s)); [|reflexivity].
      exact (E2 (fun '(d0, _, _, _, _, _, _) => XCloseDisplay d0)).
Qed.

(** X13. No render thread writes what the main thread reads.  A step of a
    render thread changes neither [ExitFlag], nor the switches, nor the
    members of the records that the event handlers and the shutdown read
    (connection, window, context, motion start and size): whatever the
    render threads do in between, the main thread performs the same
    operations for the next event, and the same shutdown. *)
Theorem render_steps_keep_main_inputs (j : nat) (y y' : system) :
  sys_step (Thread_runs j) y = Some y' ->
  ExitFlag (shared y') = ExitFlag (shared y)
  /\ Globals (shared y') = Globals (shared y)
  /\ views (shared y') = views (shared y)
  /\ (forall d w e,
        event_loop (shared y') d e = event_loop (shared y) d e
        /\ event_loop_multi (shared y') w e = event_loop_multi (shared y) w e
        /\ main_shutdown (shared y') d = main_shutdown (shared y) d)
  /\ (exit_pending y' = exit_pending y /\ main_at y' = main_at y /\ main_ops y' = main_ops y).
Proof.
  unfold sys_step. destruct (Aborted (shared y)); [discriminate|]. unfold thread_step.
  destruct (WinThreads (shared y) !! j) as [w|] eqn:Hw; [|discriminate].
  destruct (Threads (shared y) !! j) as [p|] eqn:Hp; [|discriminate].
  destruct (draw_loop (shared y) j w p) as [[ops p']|] eqn:Hd; [|discriminate].
  destruct (run_ops (RenderThread j) ops (shared y)) as [s'|] eqn:Hr; [|discriminate].
  intros [= <-]. unfold exit_pending.
  cbn [shared main_at main_ops ExitFlag Globals with_Threads].
  pose proof (draw_loop_role _ _ _ _ _ _ Hd) as R.
  destruct (run_render _ _ _ _ _ _ R Hr) as (_ & X & _).
  pose proof (run_Globals _ _ _ _ Hr) as G.
  pose proof (run_render_views _ _ _ _ _ _ R Hr) as V.
  assert (V' : views (with_Threads <[j:=p']> s') = views (shared y)) by exact V.
  split; [exact X|]. split; [exact G|]. split; [exact V'|]. split.
  - apply event_ops_views; assumption.
  - rewrite X. repeat split.
Qed.

Lemma render_steps_keep_main_inputs_witness :
  exists y y', run (startup 2 ++ deliver (Expose 50) 1) (boot 1000 (setup_state ["glthreads"]))
               = Some y
    /\ sys_step (Thread_runs 0) y = Some y'
    /\ at_pc 0 (shared y') = Some AtLockReady
    /\ views (shared y') = views (shared y).
Proof.
  destruct (run (startup 2 ++ deliver (Expose 50) 1) (boot 1000 (setup_state ["glthreads"])))
    as [y|] eqn:E; [|vm_compute in E; discriminate].
  exists y.
  destruct (sys_step (Thread_runs 0) y) as [y'|] eqn:E';
    [|vm_compute in E; injection E as <-; vm_compute in E'; discriminate].
  exists y'. split; [reflexivity|]. split; [reflexivity|].
  destruct (render_steps_keep_main_inputs 0 y y' E') as (_ & _ & V & _).
  split; [|exact V]. clear V.
  vm_compute in E. injection E as <-. vm_compute in E'. injection E' as <-. reflexivity.
Defined.

(** ** Reaching the end *)

Lemma exec_lock_owner (g : globals) (t : thread) (o : op) (s s' : state) :
  exec_op t o s = Some s' ->
  display_lock g s' = display_lock g s \/ display_lock g s' = Some t
  \/ display_lock g s' = None.
Proof.
  intros E. pose proof (exec_display_lock g t o s s' E) as D.
  destruct (takes_lock g o); [destruct D; auto|].
  destruct (gives_lock g o); auto.
Qed.

Lemma run_lock_owner (g : globals) (t : thread) (ops : list op) (s s' : state) :
  run_ops t ops s = Some s' ->
  display_lock g s' = display_lock g s \/ display_lock g s' = Some t
  \/ display_lock g s' = None.
Proof.
  revert s. induction ops as [|o ops IH]; intros s H; cbn in H.
  - injection H as <-. auto.
  - destruct (exec_op t o s) as [s1|] eqn:E; [|discriminate].
    destruct (IH _ H) as [A|[A|A]]; auto. rewrite A. eapply exec_lock_owner, E.
Qed.

(** A thread that follows the discipline, without the log. *)
Lemma run_owner (g : globals) (t : thread) (ops : list op) (s s' : state) (h' : bool) :
  run_ops t ops s = Some s' ->
  holds_after g (bool_decide (display_lock g s = Some t)) ops = Some h' ->
  bool_decide (display_lock g s' = Some t) = h'
  /\ (forall t', t' <> t ->
        bool_decide (display_lock g s' = Some t') = bool_decide (display_lock g s = Some t')).
Proof.
  revert s. induction ops as [|o ops IH]; intros s Hr H; cbn in Hr.
  - injection Hr as <-. cbn in H. injection H as <-. split; reflexivity.
  - destruct (exec_op t o s) as [s1|] eqn:E; [|discriminate].
    destruct (exec_holds g t o ops s s1 {| lm_ok := true; lm_owner := display_lock g s |}
                h' E H eq_refl eq_refl) as (H1 & _ & _ & Hoth).
    destruct (IH s1 Hr H1) as (A & D).
    split; [exact A|]. intros t' Ht. rewrite D, Hoth by exact Ht. reflexivity.
Qed.

Lemma main_op_multi_neutral (g : globals) (o : op) :
  MultiDisplays g = true -> main_op g o = true ->
  takes_lock g o = false /\ gives_lock g o = false.
Proof.
  intros M H. destruct o; try (match goal with m : mutex |- _ => destruct m end);
    cbn in *; rewrite ?M, ?andb_false_r in H; try discriminate H; auto.
Qed.

Lemma owner_inv_step (g : globals) (l : label) (y y' : system) :
  Globals (shared y) = g ->
  step_kind g y y' l -> owner_inv g y -> owner_inv g y'.
Proof.
  intros G K (O1 & O2 & O3). unfold owner_inv.
  assert (Dom : forall i, is_Some (at_pc i (shared y)) -> is_Some (at_pc i (shared y'))).
  { intros i [p Hp]. destruct (step_lengths g l y y' K) as (_ & _ & L).
    unfold at_pc in *. apply lookup_lt_is_Some_2. rewrite L. eapply lookup_lt_Some, Hp. }
  destruct K as [o ops Eo Ro E Eo' Ea Ed L|l0 p ops Eo N R Es Eo' Ea Ed L
                |j w p p' ops s' Hw Hp Hd R Hr Es Eo' Ea Ed L].
  - split; [|split].
    + intros M Lk i p' Hp'.
      destruct (main_op_multi_neutral g o M Ro) as [T Gv].
      pose proof (exec_display_lock g _ _ _ _ E) as D. rewrite T, Gv in D. rewrite D.
      destruct (exec_effects i _ _ _ _ E) as (_ & _ & _ & _ & Pc).
      destruct (Pc p' Hp') as (p & Hp & Hmv).
      rewrite (in_cs_moved _ _ Hmv). apply (O1 M Lk), Hp.
    + intros M. destruct (main_op_multi_neutral g o M Ro) as [T Gv].
      pose proof (exec_display_lock g _ _ _ _ E) as D. rewrite T, Gv in D. rewrite D.
      apply O2, M.
    + intros i Hi. destruct (exec_lock_owner g _ _ _ _ E) as [A|[A|A]];
        rewrite A in Hi; try discriminate Hi. apply Dom, O3, Hi.
  - rewrite Es. repeat split; assumption.
  - assert (Hs : display_lock g (shared y') = display_lock g s').
    { rewrite Es. reflexivity. }
    rewrite Hs. destruct (run_render _ _ _ _ _ _ R Hr) as (T & _ & _).
    split; [|split].
    + intros M Lk i q Hq.
      pose proof (draw_loop_holds _ _ _ _ _ _
                    ltac:(rewrite G; unfold locks; rewrite Lk; reflexivity) Hd) as Hh.
      rewrite G, <- (O1 M Lk j p Hp) in Hh.
      destruct (run_owner g _ ops _ _ _ Hr Hh) as (A & D).
      rewrite Es in Hq. unfold at_pc in Hq. cbn [Threads with_Threads] in Hq. rewrite T in Hq.
      apply list_lookup_insert_Some in Hq as [(<- & <- & _)|[Hne Hq]]; [exact A|].
      rewrite D by congruence. apply (O1 M Lk), Hq.
    + intros M. destruct (run_lock_owner g _ _ _ _ Hr) as [A|[A|A]]; rewrite A;
        [apply O2, M|discriminate|discriminate].
    + intros i Hi. destruct (run_lock_owner g _ _ _ _ Hr) as [A|[A|A]];
        rewrite A in Hi; try discriminate Hi.
      * apply Dom, O3, Hi.
      * injection Hi as <-. apply Dom. exists p. exact Hp.
Qed.

Lemma draw_loop_next (s : state) (i : nat) (w : wt.winthread) (p p' : pc) (ops : list op) :
  draw_loop s i w p = Some (ops, p') ->
  p' = next_pc (ExitFlag s) (Animate (Globals s)) p
  /\ p <> NotCreated /\ p <> Returned /\ p <> Waiting /\ p' <> NotCreated.
Proof.
  intros H. unfold draw_loop in H.
  destruct p; cbv beta iota zeta in H; try discriminate;
    try (injection H as <- <-; repeat split; discriminate).
  - injection H as <- <-. repeat split; try discriminate. destruct (ExitFlag s); discriminate.
  - injection H as <- <-. repeat split; try discriminate. destruct (ExitFlag s); discriminate.
  - destruct (Animate (Globals s)); injection H as <- <-; repeat split; discriminate.
Qed.

Lemma event_ops_no_thread_call (s : state) (d : Z) (w : nat) (e : option XEvent) :
  Forall (fun o => is_thread_call o = false) (event_loop s d e)
  /\ Forall (fun o => is_thread_call o = false) (event_loop_multi s w e).
Proof.
  assert (HL : forall g d0, Forall (fun x => is_thread_call x = false) (LOCK g d0)).
  { intros g d0. unfold LOCK. destruct (Locking g); [|destruct (MultiDisplays g)];
      repeat constructor. }
  assert (HU : forall g d0, Forall (fun x => is_thread_call x = false) (UNLOCK g d0)).
  { intros g d0. unfold UNLOCK. destruct (Locking g); [|destruct (MultiDisplays g)];
      repeat constructor. }
  assert (HH : forall i r e0, Forall (fun x => is_thread_call x = false) (handle s i r e0)).
  { intros i r e0. destruct e0; cbn [handle]; try (repeat constructor; fail).
    - unfold resize, signal_redraw. destruct (Animate _); repeat constructor.
    - unfold motion. destruct (any_button _); repeat constructor.
    - unfold keypress, release_all, signal_redraw. destruct (_ =? XK_Escape).
      + apply Forall_app. split; [destruct (Animate _); repeat constructor|].
        constructor; [reflexivity|]. apply Forall_fmap, Forall_forall. reflexivity.
      + destruct (_ || _); [|destruct (_ || _)];
          repeat (destruct (Texture _) || destruct (Animate _)); repeat constructor. }
  split.
  - unfold event_loop. apply Forall_app. split; [apply HL|].
    constructor; [reflexivity|]. destruct e as [e|].
    + constructor; [reflexivity|]. apply Forall_app. split; [apply HU|].
      unfold dispatch. destruct (event_window e); [|constructor].
      destruct (find_window _ _) as [[i r]|]; [apply HH|constructor].
    + apply Forall_app. split; [apply HU|repeat constructor].
  - unfold event_loop_multi. destruct (WinThreads s !! w) as [r|]; [|constructor].
    constructor; [reflexivity|]. apply Forall_app. split; [|repeat constructor].
    destruct e as [e|]; [|constructor].
    constructor; [reflexivity|]. apply HH.
Qed.

Lemma main_shutdown_ops (s : state) (d : Z) :
  Forall (fun o => shutdown_op (NumWinThreads s) o = true) (main_shutdown s d)
  /\ forall i, (i < NumWinThreads s)%nat -> pthread_join i ∈ main_shutdown s d.
Proof.
  unfold main_shutdown, clean_up. fold (destroy_ops (WinThreads s)). split.
  - apply Forall_app. split; [apply Forall_app; split|].
    + apply Forall_fmap, Forall_forall. intros i Hi. cbn.
      apply bool_decide_eq_true_2. apply elem_of_seq in Hi. lia.
    + eapply Forall_impl; [apply destroy_ops_kind|]. intros o H.
      destruct o; try discriminate H; reflexivity.
    + destruct (MultiDisplays (Globals s)); [|repeat constructor].
      apply Forall_fmap, Forall_forall. reflexivity.
  - intros i Hi. apply elem_of_app. left. apply elem_of_app. left.
    apply list_elem_of_fmap. exists i. split; [reflexivity|]. apply elem_of_seq. lia.
Qed.

Lemma exec_all_created (t : thread) (o : op) (s s' : state) :
  exec_op t o s = Some s' -> all_created s -> all_created s'.
Proof.
  intros E H i p' Hp'. destruct (exec_effects i _ _ _ _ E) as (_ & _ & _ & _ & Pc).
  destruct (Pc p' Hp') as (p & Hp & [->|[[-> ->]|[-> ->]]]); try discriminate.
  eapply H, Hp.
Qed.

Lemma thread_step_pcs (j : nat) (p' : pc) (s s' : state) (i : nat) :
  Threads s' = Threads s ->
  at_pc i (with_Threads (<[j := p']>) s')
  = if decide (j = i) then (fun _ => p') <$> at_pc i s else at_pc i s.
Proof.
  intros T. rewrite at_pc_insert. unfold at_pc. rewrite T. reflexivity.
Qed.

Lemma phase_inv_step (g : globals) (l : label) (y y' : system) :
  length (Threads (shared y)) = NumWinThreads (shared y) ->
  step_kind g y y' l -> phase_inv y -> phase_inv y'.
Proof.
  intros Ln K H. unfold phase_inv in *.
  destruct K as [o ops Eo Ro E Eo' Ea Ed L|l0 p ops Eo N R Es Eo' Ea Ed L
                |j w p p' ops s' Hw Hp Hd R Hr Es Eo' Ea Ed L].
  - rewrite Ea, Eo'. rewrite Eo in H. destruct (main_at y) as [k|w| |c].
    + destruct H as [[C [H|[m H]]]|(k' & m & -> & H & C & Hk)]; try discriminate H.
      * injection H as -> ->. left. cbn in E. injection E as <-. auto.
      * injection H as -> ->. left. split; [|right; exists m; reflexivity].
        intros i q Hq. pose proof (exec_view i _ _ _ _ E) as (_ & P & _ & _).
        cbn in P. rewrite P in Hq. destruct (decide (k' = i)) as [->|Hne].
        -- injection Hq as <-. split; [discriminate|lia].
        -- rewrite (C i q Hq). lia.
    + destruct H as [C F]. apply Forall_cons in F as [Fo Fops]. split; [|assumption].
      eapply exec_all_created; eassumption.
    + destruct H as (C & X & F & J). apply Forall_cons in F as [Fo Fops].
      split; [eapply exec_all_created; eassumption|].
      split; [eapply (exec_effects 0), X; eassumption|].
      split; [destruct (exec_lengths _ _ _ _ E) as [Le _]; rewrite Le; exact Fops|].
      apply (exec_joined _ _ _ _ (fun i => pthread_join i ∈ ops) E).
      intros i q Hq. destruct (J i q Hq) as [|Hj]; [auto|].
      apply elem_of_cons in Hj as [<-|Hj]; [|auto].
      left. apply exec_join in E as [E _]. unfold at_pc in Hq. congruence.
    + destruct H as (_ & H & _). discriminate H.
  - rewrite Ea, Eo', Es. rewrite Eo in H.
    destruct N as [i A B|i A B|w A B|A|w e A B]; rewrite A in H.
    + destruct H as [[C _]|(k' & m & _ & H & _)]; [|discriminate H].
      right. exists i, "glthreads: Created thread %p"%string.
      split; [reflexivity|]. split; [reflexivity|]. split; [exact C|].
      rewrite Ln. exact B.
    + destruct H as [[C _]|(k' & m & _ & H & _)]; [|discriminate H].
      split; [|constructor]. intros j q Hq. pose proof (C j q Hq) as Cj.
      intros ->. unfold at_pc in Hq. apply lookup_lt_Some in Hq. rewrite Ln in Hq.
      assert (i <= j)%nat by (apply Cj; reflexivity). lia.
    + destruct H as [C _]. destruct (main_shutdown_ops (shared y) (main_dpy y)) as [F J].
      split; [exact C|]. split; [exact B|]. split; [rewrite Ln; exact F|].
      intros i q Hq. right. apply J. rewrite <- Ln. eapply lookup_lt_Some, Hq.
    + destruct H as (C & X & F & J). split; [reflexivity|]. split; [reflexivity|].
      intros i q Hq. destruct (J i q Hq) as [|Hj]; [assumption|].
      apply elem_of_nil in Hj. contradiction.
    + destruct H as [C _].
      destruct (event_ops_no_thread_call (shared y) (main_dpy y) w e) as [F1 F2].
      destruct (MultiDisplays (Globals (shared y))); split; assumption.
  - rewrite Ea, Eo', Es. destruct (run_render _ _ _ _ _ _ R Hr) as (T & X & _).
    destruct (draw_loop_next _ _ _ _ _ _ Hd) as (_ & N1 & N2 & _ & N3).
    assert (AC : all_created (shared y) -> all_created (with_Threads <[j:=p']> s')).
    { intros C i q Hq. rewrite (thread_step_pcs j p' (shared y) s' i T) in Hq.
      destruct (decide (j = i)) as [->|Hne]; [|eapply C, Hq].
      unfold at_pc in Hq. rewrite Hp in Hq. injection Hq as <-. exact N3. }
    assert (CU : forall k, created_upto k (shared y) ->
                 created_upto k (with_Threads <[j:=p']> s')).
    { intros k C i q Hq. rewrite (thread_step_pcs j p' (shared y) s' i T) in Hq.
      destruct (decide (j = i)) as [->|Hne]; [|eapply C, Hq].
      unfold at_pc in Hq. rewrite Hp in Hq. injection Hq as <-.
      pose proof (C i p Hp) as Ci. split; [contradiction|].
      intros Hk. apply Ci in Hk. contradiction. }
    destruct (main_at y) as [k|w0| |c].
    + destruct H as [[C H]|(k' & m & -> & H & C & Hk)].
      * left. split; [apply CU, C|exact H].
      * right. exists k', m.
        split; [reflexivity|]. split; [exact H|]. split; [apply CU, C|].
        cbn [Threads with_Threads]. rewrite length_insert, T. exact Hk.
    + destruct H as [C F]. split; [apply AC, C|exact F].
    + destruct H as (C & Xf & F & J). split; [apply AC, C|].
      split; [cbn [ExitFlag with_Threads]; congruence|].
      split; [cbn [Threads with_Threads]; rewrite length_insert, T; exact F|].
      intros i q Hq. rewrite (thread_step_pcs j p' (shared y) s' i T) in Hq.
      destruct (decide (j = i)) as [->|Hne]; [|eapply J, Hq].
      right. destruct (J i p Hp) as [|]; [contradiction|assumption].
    + destruct H as (Hc & Ho & J). split; [exact Hc|]. split; [exact Ho|].
      intros i q Hq. rewrite (thread_step_pcs j p' (shared y) s' i T) in Hq.
      destruct (decide (j = i)) as [->|Hne]; [|eapply J, Hq].
      exfalso. apply N2. eapply J, Hp.
Qed.

Lemma split_exit_unique (A R pre post : list op) :
  Forall (fun o => is_set_exit o = false) A -> Forall (fun o => is_set_exit o = false) R ->
  A ++ set_ExitFlag :: R = pre ++ set_ExitFlag :: post -> post = R.
Proof.
  intros HA HR. revert pre. induction HA as [|a A Ha _ IH]; intros pre E.
  - destruct pre as [|x pre]; cbn in E; [injection E as <-; reflexivity|].
    injection E as <- E. exfalso. rewrite E in HR.
    apply Forall_app in HR as [_ HR]. apply Forall_cons in HR as [HR _]. discriminate HR.
  - destruct pre as [|x pre]; cbn in E.
    + injection E as -> _. discriminate Ha.
    + injection E as _ E. eapply IH, E.
Qed.

(** The operations of a turn of the event loop set [ExitFlag] at most once,
    and then open every gate. *)
Lemma event_ops_exit (s : state) (d : Z) (w : nat) (e : option XEvent) (ops : list op) :
  ops = event_loop s d e \/ ops = event_loop_multi s w e ->
  Forall (fun o => is_set_exit o = false) ops
  \/ exists A B, ops = A ++ set_ExitFlag :: release_all (NumWinThreads s) ++ B
       /\ Forall (fun o => is_set_exit o = false) A
       /\ Forall (fun o => is_set_exit o = false) B.
Proof.
  assert (HL : forall g d0, Forall (fun x => is_set_exit x = false) (LOCK g d0)).
  { intros g d0. unfold LOCK. destruct (Locking g); [|destruct (MultiDisplays g)];
      repeat constructor. }
  assert (HU : forall g d0, Forall (fun x => is_set_exit x = false) (UNLOCK g d0)).
  { intros g d0. unfold UNLOCK. destruct (Locking g); [|destruct (MultiDisplays g)];
      repeat constructor. }
  assert (HH : forall i r e0,
            Forall (fun o => is_set_exit o = false) (handle s i r e0)
            \/ exists A, handle s i r e0 = A ++ set_ExitFlag :: release_all (NumWinThreads s)
                 /\ Forall (fun o => is_set_exit o = false) A).
  { intros i r e0.
    destruct (Exists_dec (fun o => is_set_exit o = true) (handle s i r e0)) as [Hex|Hn].
    - right. apply handle_set_exit in Hex as [W ->]. cbn [handle].
      rewrite keypress_Escape. eexists. split; [reflexivity|].
      destruct (Animate _); repeat constructor.
    - left. apply Forall_forall. intros o Ho.
      destruct (is_set_exit o) eqn:X; [|reflexivity].
      exfalso. apply Hn. apply Exists_exists. exists o. auto. }
  intros [->| ->].
  - unfold event_loop. destruct e as [e|].
    + unfold dispatch. destruct (event_window e) as [W|].
      * destruct (find_window s W) as [[i r]|].
        -- destruct (HH i r e) as [F|(A & -> & FA)].
           ++ left. apply Forall_app. split; [apply HL|]. constructor; [reflexivity|].
              constructor; [reflexivity|]. apply Forall_app. split; [apply HU|exact F].
           ++ right. exists (LOCK (Globals s) d ++ [XPending d] ++ [XNextEvent d]
                             ++ UNLOCK (Globals s) d ++ A), [].
              split; [rewrite app_nil_r, <- !app_assoc; reflexivity|].
              split; [|constructor].
              apply Forall_app. split; [apply HL|]. constructor; [reflexivity|].
              constructor; [reflexivity|]. apply Forall_app. split; [apply HU|exact FA].
        -- left. apply Forall_app. split; [apply HL|]. constructor; [reflexivity|].
           constructor; [reflexivity|]. apply Forall_app. split; [apply HU|constructor].
      * left. apply Forall_app. split; [apply HL|]. constructor; [reflexivity|].
        constructor; [reflexivity|]. apply Forall_app. split; [apply HU|constructor].
    + left. apply Forall_app. split; [apply HL|]. constructor; [reflexivity|].
      apply Forall_app. split; [apply HU|repeat constructor].
  - unfold event_loop_multi. destruct (WinThreads s !! w) as [r|]; [|left; constructor].
    destruct e as [e|]; [|left; repeat constructor].
    destruct (HH w r e) as [F|(A & -> & FA)].
    + left. constructor; [reflexivity|]. apply Forall_app. split; [|repeat constructor].
      constructor; [reflexivity|exact F].
    + right. exists ([XPending (wt.Dpy r); XNextEvent (wt.Dpy r)] ++ A), [usleep 5000].
      split; [cbn; rewrite <- !app_assoc; reflexivity|].
      split; [|repeat constructor].
      constructor; [reflexivity|]. constructor; [reflexivity|exact FA].
Qed.

Lemma release_all_elem (n i : nat) :
  (i < n)%nat -> pthread_mutex_unlock (M_Ready i) ∈ release_all n.
Proof.
  intros H. unfold release_all. apply list_elem_of_fmap. exists i.
  split; [reflexivity|]. apply elem_of_seq. lia.
Qed.

Lemma main_gate_kept (g : globals) (o : op) (s s' : state) (i : nat) :
  main_op g o = true -> exec_op MainThread o s = Some s' ->
  gate i s = Some false -> gate i s' = Some false.
Proof.
  intros R E H. destruct (exec_view i _ _ _ _ E) as (G & _). rewrite G.
  destruct o; try exact H; match goal with m : mutex |- _ => destruct m end;
    try exact H; try discriminate R.
  destruct (decide (i0 = i)); [rewrite H; reflexivity|exact H].
Qed.

Lemma exit_inv_step (g : globals) (l : label) (y y' : system) :
  length (Threads (shared y)) = NumWinThreads (shared y) ->
  step_kind g y y' l -> exit_inv y -> exit_inv y'.
Proof.
  intros Ln K [E1 E2]. unfold exit_inv.
  destruct (step_lengths g l y y' K) as (_ & Hn & _). rewrite Hn.
  destruct K as [o ops Eo Ro E Eo' Ea Ed L|l0 p ops Eo N R Es Eo' Ea Ed L
                |j w p p' ops s' Hw Hp Hd R Hr Es Eo' Ea Ed L]; rewrite Eo'.
  - rewrite Eo in E1, E2. split.
    + intros X i Hi.
      destruct (exec_effects i _ _ _ _ E) as (_ & Hx & _ & _ & Pc).
      destruct (Pc _ Hi) as (q & Hq & [Heq|[[_ ?]|[_ ?]]]); try discriminate. subst q.
      assert (Hlt : (i < NumWinThreads (shared y))%nat).
      { rewrite <- Ln. eapply lookup_lt_Some, Hq. }
      destruct (Hx X) as [X0| ->].
      * destruct (E1 X0 i Hq) as [Hg|Hin].
        -- left. eapply main_gate_kept; eassumption.
        -- apply elem_of_cons in Hin as [<-|Hin]; [|right; exact Hin].
           left. destruct (exec_view i _ _ _ _ E) as (G & _). cbn in G.
           rewrite decide_True in G by reflexivity. rewrite G. unfold gate.
           apply lookup_lt_is_Some_2 in Hlt as [r ->]. reflexivity.
      * right. apply (E2 [] ops eq_refl i Hlt).
    + intros pre post Ep. apply (E2 (o :: pre) post). rewrite Ep. reflexivity.
  - rewrite Es. rewrite Eo in E1. split.
    + intros X i Hi. destruct (E1 X i Hi) as [Hg|Hin]; [left; exact Hg|].
      apply elem_of_nil in Hin. contradiction.
    + intros pre post Ep i Hi.
      assert (NE : Forall (fun o => is_set_exit o = false) ops -> False).
      { intros F. rewrite Ep in F. apply Forall_app in F as [_ F].
        apply Forall_cons in F as [F _]. discriminate F. }
      destruct N as [k A B|k A B|w A B|A|w e A B].
      * exfalso. apply NE. repeat constructor.
      * destruct pre; discriminate Ep.
      * exfalso. apply NE, main_shutdown_no_exit.
      * destruct pre; discriminate Ep.
      * destruct (event_ops_exit (shared y) (main_dpy y) w e
                    (if MultiDisplays (Globals (shared y))
                     then event_loop_multi (shared y) w e
                     else event_loop (shared y) (main_dpy y) e))
          as [F|(A1 & B1 & Eq & FA & FB)].
        -- destruct (MultiDisplays _); auto.
        -- exfalso. apply NE, F.
        -- rewrite Eq in Ep.
           assert (FR : Forall (fun o => is_set_exit o = false)
                          (release_all (NumWinThreads (shared y)) ++ B1)).
           { apply Forall_app. split; [|exact FB].
             apply Forall_fmap, Forall_forall. reflexivity. }
           rewrite (split_exit_unique _ _ _ _ FA FR Ep).
           apply elem_of_app. left. apply release_all_elem, Hi.
  - rewrite Es. destruct (run_render _ _ _ _ _ _ R Hr) as (T & X & W).
    destruct (draw_loop_next _ _ _ _ _ _ Hd) as (Nx & _).
    split; [|exact E2].
    intros Xf i Hi. cbn [ExitFlag with_Threads] in Xf. rewrite X in Xf.
    rewrite (thread_step_pcs j p' (shared y) s' i T) in Hi.
    destruct (decide (j = i)) as [->|Hne].
    + exfalso. unfold at_pc in Hi. rewrite Hp in Hi. injection Hi as Hi.
      rewrite Nx, Xf in Hi. destruct p, (Animate _); discriminate Hi.
    + unfold gate. cbn [WinThreads with_Threads]. rewrite W by congruence.
      apply (E1 Xf i Hi).
Qed.

Lemma initial_pcs (g : globals) (ws : list wt.winthread) (i : nat) (p : pc) :
  at_pc i (initial_state g ws) = Some p -> p = NotCreated.
Proof.
  unfold at_pc. cbn. rewrite list_lookup_fmap.
  destruct (ws !! i); [|discriminate]. intros [= <-]. reflexivity.
Qed.

Lemma live_inv_step (g : globals) (n : nat) (l : label) (y y' : system) :
  Animate g = true ->
  live_inv g n y -> sys_step l y = Some y' -> live_inv g n y'.
Proof.
  intros A (R & An & Tx & Lk & Ow & Ph & Ex & [c Sl] & Ln) St.
  destruct (roles_inv_step g l y y' R St) as (R' & K & _).
  assert (G : Globals (shared y) = g) by apply R.
  assert (Ln' : length (Threads (shared y)) = NumWinThreads (shared y)).
  { destruct Sl as (_ & Hn & _). congruence. }
  destruct (step_lengths g l y y' K) as (_ & _ & Lt).
  split; [exact R'|].
  split; [eapply animate_inv_step; eassumption|].
  split; [eapply texture_inv_step; eassumption|].
  split; [intros M; apply (lock_inv_step g l y y' M G K (Lk M))|].
  split; [eapply owner_inv_step; eassumption|].
  split; [eapply phase_inv_step; eassumption|].
  split; [eapply exit_inv_step; eassumption|].
  split; [exists (polls [l] + c)%nat; eapply slot_inv_step; eassumption|].
  congruence.
Qed.

Lemma initial_live_inv (g : globals) (dpy : Z) (ws : list wt.winthread) :
  live_inv g (length ws) (boot dpy (initial_state g ws)).
Proof.
  assert (P : forall i p, at_pc i (initial_state g ws) = Some p -> p = NotCreated)
    by apply initial_pcs.
  split; [apply initial_roles_inv|].
  split; [repeat split; [|constructor]; cbn; apply Forall_fmap, Forall_forall; reflexivity|].
  split; [repeat split; [left; reflexivity|constructor]|].
  assert (D : display_lock g (initial_state g ws) = None).
  { unfold display_lock. destruct (Locking g); reflexivity. }
  split; [|split; [|split; [|split; [|split]]]].
  - intros M. unfold lock_inv. cbn [boot shared log main_ops lock_monitor lm_ok lm_owner].
    rewrite D. split; [reflexivity|]. split; [reflexivity|]. split; [|reflexivity].
    intros i p Hp. rewrite (P i p Hp). reflexivity.
  - unfold owner_inv. cbn [boot shared]. rewrite D. split; [|split].
    + intros _ _ i p Hp. rewrite (P i p Hp). reflexivity.
    + intros _. discriminate.
    + intros i Hi. discriminate Hi.
  - unfold phase_inv. cbn [boot main_at shared main_ops]. left. split; [|left; reflexivity].
    intros i p Hp. rewrite (P i p Hp). split; [lia|reflexivity].
  - split; [discriminate|]. intros pre post E. destruct pre; discriminate E.
  - exists 0%nat. repeat split.
  - cbn. apply length_fmap.
Qed.

Lemma run_live_inv (g : globals) (n : nat) (ls : list label) (y y' : system) :
  Animate g = true -> live_inv g n y -> run ls y = Some y' -> live_inv g n y'.
Proof.
  intros A. apply (run_invariant (live_inv g n)). intros l y1 y2 H St.
  eapply live_inv_step; eassumption.
Qed.

Lemma run_app (ls1 ls2 : list label) (y : system) :
  run (ls1 ++ ls2) y
  = match run ls1 y with Some y1 => run ls2 y1 | None => None end.
Proof.
  revert y. induction ls1 as [|l ls1 IH]; intros y; [reflexivity|].
  cbn. destruct (sys_step l y); [apply IH|reflexivity].
Qed.

Lemma exec_nonblocking (t : thread) (o : op) (s : state) :
  blocking o = false -> exists s', exec_op t o s = Some s'.
Proof.
  intros H. destruct o; try discriminate H;
    try (match goal with m : mutex |- _ => destruct m end); cbn; eexists; reflexivity.
Qed.

Lemma run_nonblocking (t : thread) (ops : list op) (s : state) :
  Forall (fun o => blocking o = false) ops -> exists s', run_ops t ops s = Some s'.
Proof.
  revert s. induction ops as [|o ops IH]; intros s H; [eexists; reflexivity|].
  apply Forall_cons in H as [Ho H]. destruct (exec_nonblocking t o s Ho) as [s1 E].
  cbn. rewrite E. apply IH, H.
Qed.

Lemma LOCK_enabled (g : globals) (t : thread) (d : Z) (s : state) :
  (locks g = true -> display_lock g s = None) ->
  exists s', run_ops t (LOCK g d) s = Some s'.
Proof.
  unfold locks, LOCK, display_lock. intros H.
  destruct (Locking g); [|destruct (MultiDisplays g)]; cbn in *.
  - rewrite (H eq_refl). eexists. reflexivity.
  - eexists. reflexivity.
  - rewrite (H eq_refl). eexists. reflexivity.
Qed.

Lemma UNLOCK_nonblocking (g : globals) (d : Z) :
  Forall (fun o => blocking o = false) (UNLOCK g d).
Proof.
  unfold UNLOCK. destruct (Locking g); [|destruct (MultiDisplays g)]; repeat constructor.
Qed.

Lemma MakeNewTexture_nonblocking (s : state) :
  Forall (fun o => blocking o = false) (MakeNewTexture s).
Proof.
  unfold MakeNewTexture.
  destruct (TexWidth s =? 0); [|destruct (TexWidth s =? TEX_SIZE)]; repeat constructor.
Qed.

(** When a render thread can take its next step. *)
Lemma thread_can_step (i : nat) (y : system) (w : wt.winthread) (p : pc) :
  Aborted (shared y) = false -> Animate (Globals (shared y)) = true ->
  WinThreads (shared y) !! i = Some w -> Threads (shared y) !! i = Some p ->
  running p = true ->
  (p = AtLockReady -> wt.Ready w = false) ->
  (p = AtLock1 \/ p = AtLock2 -> locks (Globals (shared y)) = true ->
   display_lock (Globals (shared y)) (shared y) = None) ->
  exists y', sys_step (Thread_runs i) y = Some y'.
Proof.
  intros Ab An Hw Hp Hr Hg Hl. unfold sys_step, thread_step. rewrite Ab, Hw, Hp.
  assert (K : forall ops p', draw_loop (shared y) i w p = Some (ops, p') ->
            (exists s', run_ops (RenderThread i) ops (shared y) = Some s') ->
            exists y', match draw_loop (shared y) i w p with
                       | Some (ops, p') =>
                           match run_ops (RenderThread i) ops (shared y) with
                           | Some s' =>
                               Some {| shared := with_Threads <[i:=p']> s';
                                       main_at := main_at y; main_ops := main_ops y;
                                       main_dpy := main_dpy y;
                                       log := logged (RenderThread i) ops (log y) |}
                           | None => None
                           end
                       | None => None
                       end = Some y').
  { intros ops p' -> [s' ->]. eexists. reflexivity. }
  destruct p; try discriminate Hr; (eapply K; [unfold draw_loop; try rewrite An; reflexivity|]);
    try (apply run_nonblocking; repeat constructor; fail).
  - cbn. rewrite Hw, (Hg eq_refl). eexists. reflexivity.
  - apply LOCK_enabled. auto.
  - apply run_nonblocking. constructor; [reflexivity|].
    destruct (wt.Initialized w); cbn; [constructor|].
    repeat constructor. apply Forall_app. split; [|repeat constructor].
    destruct (Texture _); [apply MakeNewTexture_nonblocking|constructor].
  - apply run_nonblocking, UNLOCK_nonblocking.
  - apply run_nonblocking. constructor; [reflexivity|].
    destruct (wt.NewSize w); repeat constructor.
  - apply run_nonblocking. destruct (wt.MakeNewTexture w); [|constructor].
    apply Forall_app. split; [apply MakeNewTexture_nonblocking|repeat constructor].
  - apply LOCK_enabled. auto.
  - apply run_nonblocking, UNLOCK_nonblocking.
Qed.

(** What a step of a render thread does to the control points and keeps
    of the rest. *)
Lemma thread_step_spec (g : globals) (i : nat) (y y' : system) :
  sys_step (Thread_runs i) y = Some y' ->
  exists p,
    at_pc i (shared y) = Some p
    /\ at_pc i (shared y')
       = Some (next_pc (ExitFlag (shared y)) (Animate (Globals (shared y))) p)
    /\ (forall j, j <> i ->
          at_pc j (shared y') = at_pc j (shared y)
          /\ WinThreads (shared y') !! j = WinThreads (shared y) !! j)
    /\ main_kept y y'
    /\ (display_lock g (shared y') = display_lock g (shared y)
        \/ display_lock g (shared y') = Some (RenderThread i)
        \/ display_lock g (shared y') = None).
Proof.
  unfold sys_step. destruct (Aborted (shared y)); [discriminate|]. unfold thread_step.
  destruct (WinThreads (shared y) !! i) as [w|] eqn:Hw; [|discriminate].
  destruct (Threads (shared y) !! i) as [p|] eqn:Hp; [|discriminate].
  destruct (draw_loop (shared y) i w p) as [[ops p']|] eqn:Hd; [|discriminate].
  destruct (run_ops (RenderThread i) ops (shared y)) as [s'|] eqn:Hr; [|discriminate].
  intros [= <-]. cbn [shared main_at main_ops main_dpy].
  pose proof (draw_loop_role _ _ _ _ _ _ Hd) as R.
  destruct (run_render _ _ _ _ _ _ R Hr) as (T & X & W).
  destruct (draw_loop_next _ _ _ _ _ _ Hd) as (Nx & _).
  exists p. split; [exact Hp|]. split; [|split; [|split]].
  - rewrite (thread_step_pcs i p' (shared y) s' i T), decide_True by reflexivity.
    unfold at_pc. rewrite Hp, Nx. reflexivity.
  - intros j Hj. split.
    + rewrite (thread_step_pcs i p' (shared y) s' j T), decide_False by congruence.
      reflexivity.
    + cbn [WinThreads with_Threads]. apply W, Hj.
  - repeat split. exact X.
  - exact (run_lock_owner g _ _ _ _ Hr).
Qed.

Lemma main_kept_trans (y y1 y2 : system) :
  main_kept y y1 -> main_kept y1 y2 -> main_kept y y2.
Proof.
  intros (A1 & A2 & A3 & A4) (B1 & B2 & B3 & B4). repeat split; congruence.
Qed.

(** In every mode that locks, a render thread is between [LOCK] and
    [UNLOCK] exactly when it holds the lock. *)
Lemma live_in_cs (g : globals) (n : nat) (y : system) (i : nat) (p : pc) :
  live_inv g n y -> locks g = true -> at_pc i (shared y) = Some p ->
  bool_decide (display_lock g (shared y) = Some (RenderThread i)) = in_cs p.
Proof.
  intros (_ & _ & _ & Lk & (O1 & _) & _) L Hp. unfold locks in L.
  destruct (MultiDisplays g) eqn:M.
  - rewrite orb_false_r in L. apply (O1 eq_refl L), Hp.
  - destruct (Lk eq_refl) as (_ & _ & H & _). apply H, Hp.
Qed.

Lemma live_record (g : globals) (n : nat) (y : system) (i : nat) (p : pc) :
  live_inv g n y -> at_pc i (shared y) = Some p ->
  exists w, WinThreads (shared y) !! i = Some w.
Proof.
  intros (_ & _ & _ & _ & _ & _ & _ & [c (_ & Hn & _)] & Ln) Hp.
  apply lookup_lt_is_Some_2. fold (NumWinThreads (shared y)). rewrite Hn, <- Ln.
  eapply lookup_lt_Some, Hp.
Qed.

Lemma live_basics (g : globals) (n : nat) (y : system) :
  live_inv g n y -> Globals (shared y) = g /\ Aborted (shared y) = false.
Proof. intros ((G & _) & _ & (_ & Ab & _) & _). auto. Qed.

(** A step of a thread that holds the lock. *)
Lemma cs_step (g : globals) (n : nat) (y : system) (j : nat) (p : pc) :
  Animate g = true -> live_inv g n y -> locks g = true ->
  at_pc j (shared y) = Some p -> in_cs p = true ->
  exists y1, sys_step (Thread_runs j) y = Some y1
    /\ main_kept y y1
    /\ at_pc j (shared y1) = Some (next_pc false true p)
    /\ (in_cs (next_pc false true p) = false -> display_lock g (shared y1) = None).
Proof.
  intros A Inv L Hp Cs. destruct (live_basics g n y Inv) as [G Ab].
  destruct (live_record g n y j p Inv Hp) as [w Hw].
  destruct (thread_can_step j y w p Ab ltac:(rewrite G; exact A) Hw Hp) as [y1 St].
  - destruct p; try discriminate Cs; reflexivity.
  - intros ->. discriminate Cs.
  - intros [->| ->]; discriminate Cs.
  - exists y1. split; [exact St|].
    pose proof (live_inv_step g n _ y y1 A Inv St) as Inv1.
    destruct (thread_step_spec g j y y1 St) as (q & Hq & Hn & _ & Mk & Hl).
    unfold at_pc in Hp, Hq. rewrite Hp in Hq. injection Hq as <-.
    assert (Hn' : at_pc j (shared y1) = Some (next_pc false true p)).
    { rewrite Hn. destruct p; try discriminate Cs; reflexivity. }
    split; [exact Mk|]. split; [exact Hn'|].
    intros Nc. pose proof (live_in_cs g n y1 j _ Inv1 L Hn') as B1. rewrite Nc in B1.
    apply bool_decide_eq_false in B1.
    pose proof (live_in_cs g n y j p Inv L Hp) as B0. rewrite Cs in B0.
    apply bool_decide_eq_true in B0.
    destruct Hl as [Hl|[Hl|Hl]]; [congruence|congruence|exact Hl].
Qed.

Lemma leave_cs (g : globals) (n : nat) (y : system) (j : nat) (p : pc) :
  Animate g = true -> live_inv g n y -> locks g = true ->
  at_pc j (shared y) = Some p -> in_cs p = true ->
  exists ls y', run ls y = Some y' /\ main_kept y y' /\ display_lock g (shared y') = None.
Proof.
  intros A Inv L Hp Cs.
  destruct (cs_step g n y j p A Inv L Hp Cs) as (y1 & St & Mk & Hn & Hl).
  pose proof (live_inv_step g n _ y y1 A Inv St) as Inv1.
  destruct (in_cs (next_pc false true p)) eqn:Cs1.
  - destruct (cs_step g n y1 j _ A Inv1 L Hn Cs1) as (y2 & St2 & Mk2 & Hn2 & Hl2).
    exists [Thread_runs j; Thread_runs j], y2. cbn. rewrite St, St2.
    split; [reflexivity|]. split; [eapply main_kept_trans; eassumption|].
    apply Hl2. destruct p; try discriminate Cs; reflexivity.
  - exists [Thread_runs j], y1. cbn. rewrite St. auto.
Qed.

(** The lock can always be made free, unless the main thread holds it. *)
Lemma free_lock (g : globals) (n : nat) (y : system) :
  Animate g = true -> live_inv g n y -> locks g = true ->
  display_lock g (shared y) <> Some MainThread ->
  exists ls y', run ls y = Some y' /\ main_kept y y' /\ display_lock g (shared y') = None.
Proof.
  intros A Inv L Nm. destruct (display_lock g (shared y)) as [[|j]|] eqn:D.
  - contradiction.
  - assert (O3 : is_Some (at_pc j (shared y))).
    { destruct Inv as (_ & _ & _ & _ & (_ & _ & O3) & _). apply O3, D. }
    destruct O3 as [p Hp].
    pose proof (live_in_cs g n y j p Inv L Hp) as B. rewrite D in B.
    rewrite bool_decide_eq_true_2 in B by reflexivity.
    apply (leave_cs g n y j p A Inv L Hp). auto.
  - exists [], y. repeat split. exact D.
Qed.

Lemma main_op_step (y : system) (o : op) (ops : list op) (s' : state) :
  Aborted (shared y) = false -> main_ops y = o :: ops ->
  exec_op MainThread o (shared y) = Some s' ->
  sys_step Main_runs y
  = Some {| shared := s'; main_at := main_at y; main_ops := ops; main_dpy := main_dpy y;
            log := (MainThread, o) :: log y |}.
Proof.
  intros Ab Eo E. unfold sys_step, main_step. rewrite Ab, Eo, E. reflexivity.
Qed.

Lemma takes_enabled (g : globals) (t : thread) (o : op) (s : state) :
  takes_lock g o = true -> display_lock g s = None ->
  exists s', exec_op t o s = Some s'.
Proof.
  unfold display_lock. intros T D.
  destruct o; try discriminate T; try (match goal with m : mutex |- _ => destruct m end);
    try discriminate T; cbn in T; cbn.
  - rewrite T in D. rewrite D. eexists. reflexivity.
  - apply negb_true_iff in T. rewrite T in D. rewrite D. eexists. reflexivity.
Qed.

Lemma main_nonblocking (g : globals) (o : op) :
  main_op g o = true -> Animate g = true -> takes_lock g o = false ->
  is_thread_call o = false -> blocking o = false.
Proof.
  intros R A T C.
  destruct o; try reflexivity; try discriminate C;
    try (match goal with m : mutex |- _ => destruct m end); cbn in *;
    rewrite ?A, ?T in R; try discriminate R.
Qed.

Lemma main_takes_shared (g : globals) (o : op) :
  main_op g o = true -> takes_lock g o = true -> MultiDisplays g = false.
Proof.
  intros R T. destruct (MultiDisplays g) eqn:M; [|reflexivity].
  destruct (main_op_multi_neutral g o M R) as [T' _]. congruence.
Qed.

Lemma exit_pending_kept (y y' : system) :
  main_kept y y' -> exit_pending y' = exit_pending y.
Proof. intros (_ & Eo & _ & X). unfold exit_pending. rewrite Eo, X. reflexivity. Qed.

(** The main thread can always finish the turn of the event loop it is
    in. *)
Lemma finish_statement (g : globals) (n : nat) (k : nat) (y : system) (w : nat) :
  Animate g = true -> (length (main_ops y) <= k)%nat ->
  live_inv g n y -> main_at y = InEventLoop w ->
  exists ls y', run ls y = Some y' /\ main_ops y' = [] /\ main_at y' = InEventLoop w
    /\ (exit_pending y = true -> ExitFlag (shared y') = true).
Proof.
  intros A. revert y. induction k as [|k IH]; intros y Hk Inv Ha.
  - destruct (main_ops y) as [|o ops] eqn:Eo; [|cbn in Hk; lia].
    exists [], y. repeat split; try assumption.
    unfold exit_pending. rewrite Eo. cbn. rewrite orb_false_r. auto.
  - destruct (main_ops y) as [|o ops] eqn:Eo.
    { exists [], y. repeat split; try assumption.
      unfold exit_pending. rewrite Eo. cbn. rewrite orb_false_r. auto. }
    assert (Ro : main_op g o = true).
    { destruct Inv as ((_ & F & _) & _). rewrite Eo in F.
      apply Forall_cons in F as [F _]. exact F. }
    assert (Co : is_thread_call o = false).
    { destruct Inv as (_ & _ & _ & _ & _ & Ph & _). unfold phase_inv in Ph.
      rewrite Ha, Eo in Ph. destruct Ph as [_ F].
      apply Forall_cons in F as [F _]. exact F. }
    (* make the lock free when the operation takes it *)
    assert (Free : exists ls1 y1, run ls1 y = Some y1 /\ main_kept y y1
                     /\ exists s', exec_op MainThread o (shared y1) = Some s').
    { destruct (takes_lock g o) eqn:T.
      - pose proof (main_takes_shared g o Ro T) as M.
        assert (Nm : display_lock g (shared y) <> Some MainThread).
        { destruct Inv as (_ & _ & _ & Lk & _). destruct (Lk M) as (_ & _ & _ & H).
          rewrite Eo in H. cbn [holds_after] in H. rewrite T in H.
          intros D. rewrite bool_decide_eq_true_2 in H by exact D. discriminate H. }
        destruct (free_lock g n y A Inv (shared_locks g M) Nm) as (ls1 & y1 & R1 & Mk & D).
        exists ls1, y1. split; [exact R1|]. split; [exact Mk|].
        eapply takes_enabled; eassumption.
      - exists [], y. split; [reflexivity|]. split; [repeat split|].
        apply exec_nonblocking. eapply main_nonblocking; eassumption. }
    destruct Free as (ls1 & y1 & R1 & Mk & s' & E).
    pose proof (run_live_inv g n ls1 y y1 A Inv R1) as Inv1.
    destruct Mk as (Ma & Mo & Md & Mx).
    destruct (live_basics g n y1 Inv1) as [G1 Ab1].
    pose proof (main_op_step y1 o ops s' Ab1 ltac:(congruence) E) as St.
    set (y2 := {| shared := s'; main_at := main_at y1; main_ops := ops;
                  main_dpy := main_dpy y1; log := (MainThread, o) :: log y1 |}) in St.
    pose proof (live_inv_step g n _ y1 y2 A Inv1 St) as Inv2.
    destruct (IH y2 ltac:(cbn in *; lia) Inv2 ltac:(cbn; congruence))
      as (ls2 & y' & R2 & Eo' & Ha' & Hx).
    exists (ls1 ++ Main_runs :: ls2), y'. rewrite run_app, R1. cbn [run]. rewrite St.
    split; [exact R2|]. split; [exact Eo'|]. split; [exact Ha'|].
    intros P. apply Hx. unfold exit_pending in *. cbn [shared main_ops y2].
    rewrite Eo in P. cbn [existsb] in P. rewrite <- Mx in P.
    destruct (ExitFlag (shared y1)) eqn:X1.
    + destruct (exec_effects 0 _ _ _ _ E) as (Hk1 & _). rewrite (Hk1 X1). reflexivity.
    + cbn in P. destruct (is_set_exit o) eqn:So.
      * destruct o; try discriminate So. cbn in E. injection E as <-. reflexivity.
      * cbn in P. rewrite P. apply orb_true_r.
Qed.

Lemma live_count (g : globals) (n : nat) (y : system) :
  live_inv g n y ->
  NumWinThreads (shared y) = n /\ length (Threads (shared y)) = n.
Proof. intros (_ & _ & _ & _ & _ & _ & _ & [c (_ & Hn & _)] & Ln). auto. Qed.

(** The main thread can always finish the creation of the thread it is
    at. *)
Lemma creating_idle (g : globals) (n : nat) (y : system) (i : nat) :
  Animate g = true -> live_inv g n y -> main_at y = CreatingThreads i ->
  exists ls y', run ls y = Some y' /\ main_at y' = CreatingThreads i /\ main_ops y' = [].
Proof.
  intros A Inv Ha. destruct (live_basics g n y Inv) as [G Ab].
  assert (Ph : phase_inv y) by apply Inv. unfold phase_inv in Ph. rewrite Ha in Ph.
  assert (Pr : forall y0 m, Aborted (shared y0) = false -> main_ops y0 = [printf m] ->
            exists y', sys_step Main_runs y0 = Some y' /\ main_at y' = main_at y0
                       /\ main_ops y' = []).
  { intros y0 m Ab0 Eo0. eexists.
    split; [apply (main_op_step y0 (printf m) [] (shared y0) Ab0 Eo0 eq_refl)|].
    split; reflexivity. }
  destruct Ph as [[C [Eo|[m Eo]]]|(k' & m & -> & Eo & C & Hk)].
  - exists [], y. repeat split; assumption.
  - destruct (Pr y m Ab Eo) as (y' & St & Ha' & Eo').
    exists [Main_runs], y'. cbn. rewrite St. repeat split; congruence.
  - assert (Hp : Threads (shared y) !! k' = Some NotCreated).
    { apply lookup_lt_is_Some_2 in Hk as [p Hp]. rewrite Hp. f_equal.
      apply (C k' p Hp). lia. }
    assert (E : exec_op MainThread (pthread_create k') (shared y)
                = Some (with_Threads (<[k' := AtWhile]>) (shared y))).
    { cbn. rewrite Hp. reflexivity. }
    pose proof (main_op_step y _ _ _ Ab Eo E) as St.
    set (y1 := {| shared := with_Threads <[k':=AtWhile]> (shared y); main_at := main_at y;
                  main_ops := [printf m]; main_dpy := main_dpy y;
                  log := (MainThread, pthread_create k') :: log y |}) in St.
    destruct (Pr y1 m Ab eq_refl) as (y' & St' & Ha' & Eo').
    exists [Main_runs; Main_runs], y'. cbn. rewrite St, St'.
    repeat split; [cbn in Ha'; congruence|exact Eo'].
Qed.

Lemma finish_creating (g : globals) (n : nat) (k : nat) (y : system) (i : nat) :
  Animate g = true -> live_inv g n y -> main_at y = CreatingThreads i ->
  (n - i <= k)%nat ->
  exists ls y' w, run ls y = Some y' /\ main_at y' = InEventLoop w /\ main_ops y' = [].
Proof.
  intros A. revert y i. induction k as [|k IH]; intros y i Inv Ha Hk;
    destruct (creating_idle g n y i A Inv Ha) as (ls1 & y1 & R1 & Ha1 & Eo1);
    pose proof (run_live_inv g n ls1 y y1 A Inv R1) as Inv1;
    destruct (live_basics g n y1 Inv1) as [G1 Ab1];
    destruct (live_count g n y1 Inv1) as [Hn1 _];
    assert (St : sys_step Main_runs y1
                 = if bool_decide (i < n)%nat
                   then Some (main_goto (CreatingThreads (S i))
                                [pthread_create i; printf "glthreads: Created thread %p"] y1)
                   else Some (main_goto (InEventLoop 0) [] y1))
      by (unfold sys_step, main_step; rewrite Ab1, Eo1, Ha1, Hn1; reflexivity).
  - rewrite bool_decide_eq_false_2 in St by lia.
    exists (ls1 ++ [Main_runs]), (main_goto (InEventLoop 0) [] y1), 0%nat.
    rewrite run_app, R1. cbn. rewrite St. repeat split.
  - destruct (decide (i < n)%nat) as [Hlt|Hge].
    + rewrite bool_decide_eq_true_2 in St by exact Hlt.
      set (y2 := main_goto (CreatingThreads (S i))
                   [pthread_create i; printf "glthreads: Created thread %p"] y1) in St.
      pose proof (live_inv_step g n _ y1 y2 A Inv1 St) as Inv2.
      destruct (IH y2 (S i) Inv2 eq_refl ltac:(lia)) as (ls2 & y' & w & R2 & Ha' & Eo').
      exists (ls1 ++ Main_runs :: ls2), y', w.
      rewrite run_app, R1. cbn [run]. rewrite St. auto.
    + rewrite bool_decide_eq_false_2 in St by exact Hge.
      exists (ls1 ++ [Main_runs]), (main_goto (InEventLoop 0) [] y1), 0%nat.
      rewrite run_app, R1. cbn. rewrite St. repeat split.
Qed.

(** The exit key can always be delivered, and the main thread then sets
    [ExitFlag]. *)
Lemma deliver_escape (g : globals) (n : nat) (y : system) (w : nat) :
  Animate g = true -> (0 < n)%nat -> live_inv g n y ->
  main_at y = InEventLoop w -> main_ops y = [] -> ExitFlag (shared y) = false ->
  exists ls y' w', run ls y = Some y' /\ main_at y' = InEventLoop w' /\ main_ops y' = []
    /\ ExitFlag (shared y') = true.
Proof.
  intros A Hn Inv Ha Eo X. destruct (live_basics g n y Inv) as [G Ab].
  destruct (live_count g n y Inv) as [Hc _].
  assert (H0 : exists r0, WinThreads (shared y) !! 0%nat = Some r0).
  { apply lookup_lt_is_Some_2. fold (NumWinThreads (shared y)). lia. }
  destruct H0 as [r0 H0].
  set (e := KeyPress (wt.Win r0) XK_Escape).
  assert (Hk : forall i, Exists (fun o => is_set_exit o = true) (keypress (shared y) XK_Escape i)).
  { intros i. rewrite keypress_Escape. apply Exists_app. right. apply Exists_cons_hd.
    reflexivity. }
  destruct (sys_step (X_answers (Some e)) y) as [y1|] eqn:St.
  2:{ unfold sys_step, poll_step in St. rewrite Ab, Eo, Ha, X in St.
      destruct (MultiDisplays _); discriminate St. }
  assert (P1 : exit_pending y1 = true /\ exists w1, main_at y1 = InEventLoop w1).
  { unfold sys_step, poll_step in St. rewrite Ab, Eo, Ha, X, G in St.
    unfold exit_pending. destruct (MultiDisplays g) eqn:M; injection St as <-;
      cbn [main_goto shared main_ops main_at]; rewrite X; cbn [orb];
      (split; [|eexists; reflexivity]); apply existsb_Exists.
    - assert (Hw : exists r, WinThreads (shared y) !! w = Some r).
      { apply lookup_lt_is_Some_2. fold (NumWinThreads (shared y)). rewrite Hc.
        destruct Inv as (_ & _ & _ & _ & _ & _ & _ & [c (_ & _ & Sl)] & _).
        rewrite Ha, M in Sl. subst w. apply Nat.mod_upper_bound. lia. }
      destruct Hw as [r Hw]. unfold event_loop_multi. rewrite Hw.
      apply Exists_cons_tl, Exists_app. left. apply Exists_cons_tl. apply Hk.
    - unfold event_loop. apply Exists_app. right. apply Exists_cons_tl, Exists_cons_tl.
      apply Exists_app. right. unfold dispatch. cbn [event_window e].
      destruct (find_window (shared y) (wt.Win r0)) as [[i r]|] eqn:F; [apply Hk|].
      exfalso. unfold find_window in F.
      destruct (list_find_elem_of (fun u => wt.Win u = wt.Win r0) (WinThreads (shared y)) r0)
        as [x Hx]; [eapply list_elem_of_lookup_2, H0|reflexivity|]. congruence. }
  destruct P1 as [P1 [w1 Ha1]].
  pose proof (live_inv_step g n _ y y1 A Inv St) as Inv1.
  destruct (finish_statement g n _ y1 w1 A (Nat.le_refl _) Inv1 Ha1)
    as (ls2 & y' & R2 & Eo' & Ha' & Hx).
  exists (X_answers (Some e) :: ls2), y', w1. cbn [run]. rewrite St. auto.
Qed.

Lemma start_shutdown (g : globals) (n : nat) (y : system) (w : nat) :
  live_inv g n y -> main_at y = InEventLoop w -> main_ops y = [] ->
  ExitFlag (shared y) = true ->
  exists y', sys_step Main_runs y = Some y' /\ main_at y' = ShuttingDown.
Proof.
  intros Inv Ha Eo X. destruct (live_basics g n y Inv) as [G Ab].
  exists (main_goto ShuttingDown (main_shutdown (shared y) (main_dpy y)) y).
  split; [|reflexivity].
  unfold sys_step, main_step. rewrite Ab, Eo, Ha, X. reflexivity.
Qed.

Lemma shutdown_ops_neutral (g : globals) (n : nat) (ops : list op) :
  Forall (fun o => shutdown_op n o = true) ops ->
  Forall (fun o => lock_neutral g o = true) ops.
Proof.
  intros H. eapply Forall_impl; [exact H|]. intros o Ho.
  destruct o; try discriminate Ho; reflexivity.
Qed.

Lemma live_shutdown (g : globals) (n : nat) (y : system) :
  live_inv g n y -> main_at y = ShuttingDown ->
  all_created (shared y) /\ ExitFlag (shared y) = true
  /\ Forall (fun o => shutdown_op n o = true) (main_ops y)
  /\ display_lock g (shared y) <> Some MainThread.
Proof.
  intros Inv Ha. destruct (live_count g n y Inv) as [_ Ln].
  destruct Inv as (_ & _ & _ & Lk & (_ & O2 & _) & Ph & _).
  unfold phase_inv in Ph. rewrite Ha, Ln in Ph. destruct Ph as (C & X & F & _).
  split; [exact C|]. split; [exact X|]. split; [exact F|].
  destruct (MultiDisplays g) eqn:M; [apply O2; reflexivity|].
  destruct (Lk eq_refl) as (_ & _ & _ & H).
  rewrite (holds_after_neutral g _ _ (shutdown_ops_neutral g n _ F)) in H.
  intros D. rewrite bool_decide_eq_true_2 in H by exact D. discriminate H.
Qed.

Lemma shutdown_lock_free (g : globals) (n : nat) (y : system) :
  live_inv g n y -> main_at y = ShuttingDown -> locks g = true ->
  (forall j q, at_pc j (shared y) = Some q -> in_cs q = false) ->
  display_lock g (shared y) = None.
Proof.
  intros Inv Ha L Nc. destruct (live_shutdown g n y Inv Ha) as (_ & _ & _ & Nm).
  destruct (display_lock g (shared y)) as [[|j]|] eqn:D; [contradiction| |reflexivity].
  assert (O3 : is_Some (at_pc j (shared y))).
  { destruct Inv as (_ & _ & _ & _ & (_ & _ & O3) & _). apply O3, D. }
  destruct O3 as [q Hq]. pose proof (live_in_cs g n y j q Inv L Hq) as B.
  rewrite D, bool_decide_eq_true_2, (Nc j q Hq) in B by reflexivity. discriminate B.
Qed.

Lemma shutdown_gate_open (g : globals) (n : nat) (y : system) (i : nat) (w : wt.winthread) :
  live_inv g n y -> main_at y = ShuttingDown ->
  at_pc i (shared y) = Some AtLockReady -> WinThreads (shared y) !! i = Some w ->
  wt.Ready w = false.
Proof.
  intros Inv Ha Hp Hw. destruct (live_shutdown g n y Inv Ha) as (_ & X & F & _).
  destruct Inv as (_ & _ & _ & _ & _ & _ & (E1 & _) & _).
  destruct (E1 X i Hp) as [Hg|Hin].
  - unfold gate in Hg. rewrite Hw in Hg. injection Hg as Hg. exact Hg.
  - rewrite Forall_forall in F. specialize (F _ Hin). discriminate F.
Qed.

Lemma steps_left_next (p : pc) :
  running p = true -> (steps_left (next_pc true true p) < steps_left p)%nat.
Proof. destruct p; try discriminate; cbn; lia. Qed.

Lemma live_running (g : globals) (n : nat) (y : system) (i : nat) (p : pc) :
  live_inv g n y -> all_created (shared y) -> at_pc i (shared y) = Some p ->
  p <> Returned -> running p = true.
Proof.
  intros Inv C Hp Nr. pose proof (C i p Hp) as Nc.
  destruct Inv as (_ & (W & _) & _). rewrite Forall_lookup in W.
  specialize (W i p Hp). destruct p; try discriminate W; try reflexivity; contradiction.
Qed.

(** During the shutdown a render thread can always run until it
    returns, unless another thread holds the lock. *)
Lemma thread_finishes (g : globals) (n : nat) (k : nat) (y : system) (i : nat) (p : pc) :
  Animate g = true -> (steps_left p <= k)%nat ->
  live_inv g n y -> main_at y = ShuttingDown -> at_pc i (shared y) = Some p ->
  (locks g = true -> forall j q, j <> i -> at_pc j (shared y) = Some q -> in_cs q = false) ->
  exists ls y', run ls y = Some y' /\ main_kept y y'
    /\ at_pc i (shared y') = Some Returned
    /\ (forall j, j <> i -> at_pc j (shared y') = at_pc j (shared y)).
Proof.
  intros A. revert y p. induction k as [|k IH]; intros y p Hk Inv Ha Hp Oth;
    (destruct (decide (p = Returned)) as [->|Nr];
     [exists [], y; repeat split; assumption|]);
    destruct (live_shutdown g n y Inv Ha) as (C & X & F & Nm);
    pose proof (live_running g n y i p Inv C Hp Nr) as Rn;
    pose proof (steps_left_next p Rn) as Dec; [lia|].
  destruct (live_basics g n y Inv) as [G Ab].
  destruct (live_record g n y i p Inv Hp) as [w Hw].
  destruct (thread_can_step i y w p Ab ltac:(rewrite G; exact A) Hw Hp Rn) as [y1 St].
  - intros ->. eapply shutdown_gate_open; eassumption.
  - intros Hl L. rewrite G in *. apply (shutdown_lock_free g n y Inv Ha L).
    intros j q Hq. destruct (decide (j = i)) as [->|Hne]; [|eapply Oth; eassumption].
    unfold at_pc in Hq, Hp. rewrite Hp in Hq. injection Hq as <-.
    destruct Hl as [->| ->]; reflexivity.
  - pose proof (live_inv_step g n _ y y1 A Inv St) as Inv1.
    destruct (thread_step_spec g i y y1 St) as (q & Hq & Hn & Ho & Mk & _).
    unfold at_pc in Hp, Hq. rewrite Hp in Hq. injection Hq as <-.
    rewrite X, G, A in Hn.
    assert (Ha1 : main_at y1 = ShuttingDown) by (destruct Mk as [-> _]; exact Ha).
    destruct (IH y1 (next_pc true true p) ltac:(lia) Inv1 Ha1 Hn)
      as (ls & y' & R & Mk' & Hr & Ho').
    { intros L j q' Hj Hq'. rewrite (proj1 (Ho j Hj)) in Hq'. eapply Oth; eassumption. }
    exists (Thread_runs i :: ls), y'. cbn [run]. rewrite St.
    split; [exact R|]. split; [eapply main_kept_trans; eassumption|].
    split; [exact Hr|]. intros j Hj. rewrite (Ho' j Hj). apply Ho, Hj.
Qed.

Lemma clear_cs (g : globals) (n : nat) (y : system) :
  Animate g = true -> live_inv g n y -> main_at y = ShuttingDown ->
  exists ls y', run ls y = Some y' /\ main_kept y y'
    /\ (locks g = true -> forall j q, at_pc j (shared y') = Some q -> in_cs q = false).
Proof.
  intros A Inv Ha. destruct (locks g) eqn:L.
  2:{ exists [], y. repeat split. discriminate. }
  destruct (live_shutdown g n y Inv Ha) as (_ & _ & _ & Nm).
  destruct (display_lock g (shared y)) as [[|j]|] eqn:D; [contradiction| |].
  - assert (O3 : is_Some (at_pc j (shared y))).
    { destruct Inv as (_ & _ & _ & _ & (_ & _ & O3) & _). apply O3, D. }
    destruct O3 as [p Hp].
    assert (Oth : forall j' q, j' <> j -> at_pc j' (shared y) = Some q -> in_cs q = false).
    { intros j' q Hne Hq. rewrite <- (live_in_cs g n y j' q Inv L Hq), D.
      apply bool_decide_eq_false_2. congruence. }
    destruct (thread_finishes g n _ y j p A (Nat.le_refl _) Inv Ha Hp (fun _ => Oth))
      as (ls & y' & R & Mk & Hr & Ho).
    exists ls, y'. split; [exact R|]. split; [exact Mk|].
    intros _ j' q Hq. destruct (decide (j' = j)) as [->|Hne].
    + rewrite Hr in Hq. injection Hq as <-. reflexivity.
    + rewrite (Ho j' Hne) in Hq. eapply Oth; eassumption.
  - exists [], y. split; [reflexivity|]. split; [repeat split|].
    intros _ j q Hq. rewrite <- (live_in_cs g n y j q Inv L Hq), D. reflexivity.
Qed.

Lemma finish_upto (g : globals) (n : nat) (k : nat) (y : system) :
  Animate g = true -> (k <= n)%nat -> live_inv g n y -> main_at y = ShuttingDown ->
  (locks g = true -> forall j q, at_pc j (shared y) = Some q -> in_cs q = false) ->
  exists ls y', run ls y = Some y' /\ main_kept y y'
    /\ (forall i p, (i < k)%nat -> at_pc i (shared y') = Some p -> p = Returned)
    /\ (locks g = true -> forall j q, at_pc j (shared y') = Some q -> in_cs q = false).
Proof.
  intros A. induction k as [|k IH]; intros Hk Inv Ha Nc.
  - exists [], y. split; [reflexivity|]. split; [repeat split|]. split; [|exact Nc].
    intros i p Hi. lia.
  - destruct (IH ltac:(lia) Inv Ha Nc) as (ls1 & y1 & R1 & Mk1 & Hr1 & Nc1).
    pose proof (run_live_inv g n ls1 y y1 A Inv R1) as Inv1.
    assert (Ha1 : main_at y1 = ShuttingDown) by (destruct Mk1 as [-> _]; exact Ha).
    destruct (live_count g n y1 Inv1) as [_ Ln].
    assert (Hp : exists p, at_pc k (shared y1) = Some p).
    { apply lookup_lt_is_Some_2. lia. }
    destruct Hp as [p Hp].
    destruct (thread_finishes g n _ y1 k p A (Nat.le_refl _) Inv1 Ha1 Hp)
      as (ls2 & y2 & R2 & Mk2 & Hr2 & Ho2).
    { intros L j q _ Hq. eapply Nc1; eassumption. }
    exists (ls1 ++ ls2), y2. rewrite run_app, R1.
    split; [exact R2|]. split; [eapply main_kept_trans; eassumption|]. split.
    + intros i q Hi Hq. destruct (decide (i = k)) as [->|Hne].
      * rewrite Hr2 in Hq. injection Hq as <-. reflexivity.
      * rewrite (Ho2 i Hne) in Hq. apply (Hr1 i q); [lia|exact Hq].
    + intros L j q Hq. destruct (decide (j = k)) as [->|Hne].
      * rewrite Hr2 in Hq. injection Hq as <-. reflexivity.
      * rewrite (Ho2 j Hne) in Hq. eapply Nc1; eassumption.
Qed.

(** When every thread has returned, the main thread can finish the
    shutdown. *)
Lemma finish_main (g : globals) (n : nat) (k : nat) (y : system) :
  Animate g = true -> (length (main_ops y) <= k)%nat ->
  live_inv g n y -> main_at y = ShuttingDown ->
  (forall i p, at_pc i (shared y) = Some p -> p = Returned) ->
  exists ls y', run ls y = Some y' /\ main_at y' = MainReturned 0.
Proof.
  intros A. revert y. induction k as [|k IH]; intros y Hk Inv Ha Hr;
    destruct (live_basics g n y Inv) as [G Ab];
    (destruct (main_ops y) as [|o ops] eqn:Eo;
     [exists [Main_runs], (main_goto (MainReturned 0) [] y); cbn;
      unfold sys_step, main_step; rewrite Ab, Eo, Ha; split; reflexivity|]);
    [cbn in Hk; lia|].
  destruct (live_shutdown g n y Inv Ha) as (_ & _ & F & _).
  destruct (live_count g n y Inv) as [_ Ln].
  rewrite Eo in F. apply Forall_cons in F as [Fo _].
  assert (E : exists s', exec_op MainThread o (shared y) = Some s').
  { destruct (blocking o) eqn:B; [|apply exec_nonblocking, B].
    destruct o; try discriminate B; try discriminate Fo.
    cbn in Fo. apply bool_decide_eq_true in Fo. cbn.
    assert (Hp : exists p, Threads (shared y) !! i = Some p).
    { apply lookup_lt_is_Some_2. lia. }
    destruct Hp as [p Hp]. rewrite Hp, (Hr i p Hp). eexists. reflexivity. }
  destruct E as [s' E]. pose proof (main_op_step y o ops s' Ab Eo E) as St.
  set (y1 := {| shared := s'; main_at := main_at y; main_ops := ops;
                main_dpy := main_dpy y; log := (MainThread, o) :: log y |}) in St.
  pose proof (live_inv_step g n _ y y1 A Inv St) as Inv1.
  destruct (IH y1 ltac:(cbn in *; lia) Inv1 Ha) as (ls & y' & R & Ha').
  { intros i p' Hp'. cbn [shared y1] in Hp'.
    destruct (exec_effects i _ _ _ _ E) as (_ & _ & _ & _ & Pc).
    destruct (Pc p' Hp') as (p & Hp & [->|[[-> _]|[-> _]]]);
      pose proof (Hr i _ Hp) as Hq; [exact Hq|discriminate Hq|discriminate Hq]. }
  exists (Main_runs :: ls), y'. cbn [run]. rewrite St. auto.
Qed.

Lemma from_shutdown (g : globals) (n : nat) (y : system) :
  Animate g = true -> live_inv g n y -> main_at y = ShuttingDown ->
  exists ls y', run ls y = Some y' /\ main_at y' = MainReturned 0.
Proof.
  intros A Inv Ha.
  destruct (clear_cs g n y A Inv Ha) as (ls1 & y1 & R1 & Mk1 & Nc1).
  pose proof (run_live_inv g n ls1 y y1 A Inv R1) as Inv1.
  assert (Ha1 : main_at y1 = ShuttingDown) by (destruct Mk1 as [-> _]; exact Ha).
  destruct (finish_upto g n n y1 A (Nat.le_refl _) Inv1 Ha1 Nc1)
    as (ls2 & y2 & R2 & Mk2 & Hr2 & _).
  pose proof (run_live_inv g n ls2 y1 y2 A Inv1 R2) as Inv2.
  assert (Ha2 : main_at y2 = ShuttingDown) by (destruct Mk2 as [-> _]; exact Ha1).
  destruct (live_count g n y2 Inv2) as [_ Ln].
  destruct (finish_main g n _ y2 A (Nat.le_refl _) Inv2 Ha2) as (ls3 & y3 & R3 & Ha3).
  { intros i p Hp. apply (Hr2 i p); [|exact Hp].
    rewrite <- Ln. eapply lookup_lt_Some, Hp. }
  exists (ls1 ++ ls2 ++ ls3), y3. rewrite run_app, R1, run_app, R2. auto.
Qed.

Lemma from_idle_loop (g : globals) (n : nat) (y : system) (w : nat) :
  Animate g = true -> (0 < n)%nat -> live_inv g n y ->
  main_at y = InEventLoop w -> main_ops y = [] ->
  exists ls y', run ls y = Some y' /\ main_at y' = MainReturned 0.
Proof.
  intros A Hn Inv Ha Eo.
  assert (Ex : exists ls1 y1 w1, run ls1 y = Some y1 /\ main_at y1 = InEventLoop w1
                 /\ main_ops y1 = [] /\ ExitFlag (shared y1) = true).
  { destruct (ExitFlag (shared y)) eqn:X.
    - exists [], y, w. auto.
    - apply (deliver_escape g n y w A Hn Inv Ha Eo X). }
  destruct Ex as (ls1 & y1 & w1 & R1 & Ha1 & Eo1 & X1).
  pose proof (run_live_inv g n ls1 y y1 A Inv R1) as Inv1.
  destruct (start_shutdown g n y1 w1 Inv1 Ha1 Eo1 X1) as (y2 & St & Ha2).
  pose proof (live_inv_step g n _ y1 y2 A Inv1 St) as Inv2.
  destruct (from_shutdown g n y2 A Inv2 Ha2) as (ls3 & y3 & R3 & Ha3).
  exists (ls1 ++ Main_runs :: ls3), y3. rewrite run_app, R1. cbn [run]. rewrite St. auto.
Qed.

Lemma can_end (g : globals) (n : nat) (y : system) :
  Animate g = true -> (0 < n)%nat -> live_inv g n y ->
  exists ls y', run ls y = Some y' /\ main_at y' = MainReturned 0.
Proof.
  intros A Hn Inv. destruct (main_at y) as [i|w| |c] eqn:Ha.
  - destruct (finish_creating g n _ y i A Inv Ha (Nat.le_refl _))
      as (ls1 & y1 & w & R1 & Ha1 & Eo1).
    pose proof (run_live_inv g n ls1 y y1 A Inv R1) as Inv1.
    destruct (from_idle_loop g n y1 w A Hn Inv1 Ha1 Eo1) as (ls2 & y2 & R2 & Ha2).
    exists (ls1 ++ ls2), y2. rewrite run_app, R1. auto.
  - destruct (finish_statement g n _ y w A (Nat.le_refl _) Inv Ha)
      as (ls1 & y1 & R1 & Eo1 & Ha1 & _).
    pose proof (run_live_inv g n ls1 y y1 A Inv R1) as Inv1.
    destruct (from_idle_loop g n y1 w A Hn Inv1 Ha1 Eo1) as (ls2 & y2 & R2 & Ha2).
    exists (ls1 ++ ls2), y2. rewrite run_app, R1. auto.
  - apply (from_shutdown g n y A Inv Ha).
  - exists [], y. split; [reflexivity|].
    destruct Inv as (_ & _ & _ & _ & _ & Ph & _). unfold phase_inv in Ph.
    rewrite Ha in Ph. destruct Ph as [-> _]. exact Ha.
Qed.

(** X14. The program can always end.  From every state that an execution
    can reach once [main] has set up the windows, whatever the command line
    and the events so far, some continuation of the execution ends the
    program normally: the exit key is delivered if [ExitFlag] is not set
    yet, every render thread returns, and [main] joins the threads, gives up
    the resources and returns 0.  So no reachable state is a deadlock: no
    thread is left waiting for a lock that is never released or for a gate
    that is never opened, and no assertion has failed. *)
Theorem clean_exit_reachable (a : answers) (argv : list string) (d : Z) (s : state)
    (ls : list label) (y : system) :
  snd (main_setup a argv) = Continue (d, s) ->
  run ls (boot d s) = Some y ->
  exists ls' y',
    run ls' y = Some y'
    /\ main_at y' = MainReturned 0
    /\ Forall (fun p => p = Returned) (Threads (shared y'))
    /\ Aborted (shared y') = false.
Proof.
  intros Hs Hrun.
  destruct (main_setup_Animate _ _ _ _ Hs) as [A _].
  destruct (main_setup_Continue _ _ _ _ Hs) as (c & ops & ws & Hc & _ & _ & Hw & ->).
  cbn [Globals initial_state] in A.
  pose proof (main_args_threads _ _ Hc) as Hn.
  pose proof (create_windows_length _ _ _ _ _ _ _ _ _ Hw) as Hl. cbn [length] in Hl.
  pose proof (run_live_inv _ _ ls _ y A (initial_live_inv (cl_globals c) d ws) Hrun) as Inv.
  destruct (can_end (cl_globals c) (length ws) y A ltac:(lia) Inv) as (ls' & y' & R & Ha).
  pose proof (run_live_inv _ _ ls' y y' A Inv R) as Inv'.
  exists ls', y'. split; [exact R|]. split; [exact Ha|]. split.
  - destruct Inv' as (_ & _ & _ & _ & _ & Ph & _). unfold phase_inv in Ph.
    rewrite Ha in Ph. destruct Ph as (_ & _ & H). apply Forall_lookup. exact H.
  - apply (live_basics _ _ _ Inv').
Qed.

Lemma clean_exit_reachable_witness :
  exists y ls' y',
    run (startup 2 ++ deliver (Expose 50) 1 ++ repeat (Thread_runs 0) 5)
        (boot 1000 (setup_state ["glthreads"])) = Some y
    /\ run ls' y = Some y'
    /\ main_at y' = MainReturned 0
    /\ Forall (fun p => p = Returned) (Threads (shared y')).
Proof.
  destruct (run (startup 2 ++ deliver (Expose 50) 1 ++ repeat (Thread_runs 0) 5)
                (boot 1000 (setup_state ["glthreads"])))
    as [y|] eqn:E; [|vm_compute in E; discriminate].
  destruct (clean_exit_reachable ok_answers ["glthreads"] 1000 (setup_state ["glthreads"])
              _ y eq_refl E) as (ls' & y' & R & Ha & F & _).
  exists y, ls', y'. auto.
Defined.

(** ** The first frame of a thread *)

Lemma exec_init_neutral (t : thread) (o : op) (s s' : state) :
  exec_op t o s = Some s' -> init_neutral o = true -> initialized s' = initialized s.
Proof.
  intros H N. unfold initialized.
  assert (K : forall i f, (forall w, wt.Initialized (f w) = wt.Initialized w) ->
            wt.Initialized <$> WinThreads (on_wt i f s) = wt.Initialized <$> WinThreads s).
  { intros i f Hf. cbn. rewrite (list_fmap_alter wt.Initialized f id).
    - apply list_alter_id. reflexivity.
    - apply Forall_forall. intros w _. apply Hf. }
  destruct o; try discriminate N; try (match goal with m : mutex |- _ => destruct m end);
    exec_cases H; try reflexivity; apply K; intros []; reflexivity.
Qed.

Lemma queries_cons (i : nat) (e : thread * op) (l : list (thread * op)) :
  queries i (e :: l) = ((if is_query i e then 1 else 0) + queries i l)%nat.
Proof.
  unfold queries. destruct (is_query i e) eqn:Q.
  - rewrite filter_cons_True by exact Q. reflexivity.
  - rewrite filter_cons_False by congruence. reflexivity.
Qed.

Lemma run_init_neutral (i : nat) (t : thread) (ops : list op) (s s' : state)
    (l : list (thread * op)) :
  Forall (fun o => init_neutral o = true) ops -> run_ops t ops s = Some s' ->
  initialized s' = initialized s /\ queries i (logged t ops l) = queries i l.
Proof.
  intros F. revert s l. induction F as [|o ops No _ IH]; intros s l H; cbn in H.
  - injection H as <-. split; reflexivity.
  - destruct (exec_op t o s) as [s1|] eqn:E; [|discriminate].
    destruct (IH s1 ((t, o) :: l) H) as [I Q].
    rewrite logged_cons, Q, queries_cons, I, (exec_init_neutral _ _ _ _ E No).
    split; [reflexivity|]. destruct t, o; try discriminate No; reflexivity.
Qed.

Lemma main_op_init_neutral (g : globals) (o : op) :
  main_op g o = true -> init_neutral o = true.
Proof. destruct o; try reflexivity; discriminate. Qed.

Lemma MakeNewTexture_init_neutral (s : state) :
  Forall (fun o => init_neutral o = true) (MakeNewTexture s).
Proof.
  unfold MakeNewTexture.
  destruct (TexWidth s =? 0); [|destruct (TexWidth s =? TEX_SIZE)]; repeat constructor.
Qed.

(** A step of [draw_loop] neither queries the renderer nor writes
    [Initialized], except the first pass of an uninitialised record through
    [glXMakeCurrent], which queries once and then sets [Initialized]. *)
Lemma draw_loop_init (s : state) (j : nat) (w : wt.winthread) (p p' : pc) (ops : list op) :
  draw_loop s j w p = Some (ops, p') ->
  Forall (fun o => init_neutral o = true) ops
  \/ (wt.Initialized w = false
      /\ exists o pre, ops = o :: glGetString_GL_RENDERER :: pre ++ [set_Initialized j true]
           /\ init_neutral o = true /\ Forall (fun o => init_neutral o = true) pre).
Proof.
  intros H. destruct p; unfold draw_loop in H; cbv beta iota zeta in H; try discriminate H;
    try (injection H as <- <-; left;
         first [solve [repeat constructor]
               |unfold LOCK, UNLOCK; destruct (Locking _); [|destruct (negb _)];
                solve [repeat constructor]]).
  - destruct (wt.Initialized w) eqn:I; cbn [negb app] in H; injection H as <- <-.
    + left. repeat constructor.
    + right. split; [reflexivity|].
      exists (glXMakeCurrent (wt.Dpy w) (wt.Win w) (wt.Context w)),
        (printf "glthreads: %d: GL_RENDERER = %s"
         :: (if Texture (Globals s) then MakeNewTexture s else [])).
      split; [reflexivity|]. split; [reflexivity|]. constructor; [reflexivity|].
      destruct (Texture (Globals s)); [apply MakeNewTexture_init_neutral|constructor].
  - injection H as <- <-. left. constructor; [reflexivity|].
    destruct (wt.NewSize w); repeat constructor.
  - injection H as <- <-. left. destruct (wt.MakeNewTexture w); [|constructor].
    change (Forall (fun o => init_neutral o = true)
              (MakeNewTexture s ++ [set_MakeNewTexture j false])).
    apply Forall_app. split; [apply MakeNewTexture_init_neutral|repeat constructor].
  - destruct (Animate (Globals s)); injection H as <- <-; left; repeat constructor.
Qed.

Lemma init_inv_step (g : globals) (l : label) (y y' : system) :
  step_kind g y y' l -> init_inv y -> init_inv y'.
Proof.
  intros K Inv.
  destruct K as [o ops Eo Ro E Eo' Ea Ed L|l p ops Eo N R Es Eo' Ea Ed L
                |j w p p' ops s' Hw Hp Hd R Hr Es Eo' Ea Ed L]; intros i b Hb.
  - rewrite (exec_init_neutral _ _ _ _ E (main_op_init_neutral _ _ Ro)) in Hb.
    rewrite L, queries_cons. cbn [is_query]. apply (Inv i b Hb).
  - rewrite L. apply Inv. unfold initialized in *. rewrite <- Es. exact Hb.
  - rewrite L. unfold initialized in Hb. rewrite Es in Hb. cbn [WinThreads with_Threads] in Hb.
    fold (initialized s') in Hb.
    destruct (draw_loop_init _ _ _ _ _ _ Hd) as [F|(I & o & pre & -> & No & F)].
    + destruct (run_init_neutral i _ _ _ _ (log y) F Hr) as [E Q].
      rewrite Q. apply Inv. rewrite <- E. exact Hb.
    + cbn [run_ops] in Hr.
      destruct (exec_op (RenderThread j) o (shared y)) as [s1|] eqn:E1; [|discriminate Hr].
      cbn [exec_op] in Hr. rewrite run_ops_app in Hr.
      destruct (run_ops (RenderThread j) pre s1) as [s2|] eqn:E2; [|discriminate Hr].
      cbn in Hr. injection Hr as <-.
      destruct (run_init_neutral i _ _ _ _
                  ((RenderThread j, glGetString_GL_RENDERER) :: (RenderThread j, o) :: log y)
                  F E2) as [I2 Q2].
      assert (Hl : logged (RenderThread j)
                     (o :: glGetString_GL_RENDERER :: pre ++ [set_Initialized j true]) (log y)
                   = (RenderThread j, set_Initialized j true)
                     :: logged (RenderThread j) pre
                          ((RenderThread j, glGetString_GL_RENDERER)
                           :: (RenderThread j, o) :: log y)).
      { rewrite !logged_cons. unfold logged. rewrite fmap_app, reverse_app. reflexivity. }
      assert (Q0 : (if is_query i (RenderThread j, o) then 1 else 0)%nat = 0%nat).
      { destruct o; try discriminate No; reflexivity. }
      rewrite Hl, queries_cons, Q2, !queries_cons, Q0. cbn [is_query Nat.add].
      unfold initialized in Hb. cbn [on_wt WinThreads with_WinThreads] in Hb.
      rewrite (list_fmap_alter wt.Initialized _ (fun _ => true)) in Hb
        by (apply Forall_forall; intros [] _; reflexivity).
      fold (initialized s2) in Hb.
      rewrite I2, (exec_init_neutral _ _ _ _ E1 No), list_lookup_alter in Hb.
      destruct (decide (j = i)) as [->|Hne].
      * rewrite bool_decide_eq_true_2 by reflexivity.
        assert (H0 : initialized (shared y) !! i = Some false).
        { unfold initialized. rewrite list_lookup_fmap, Hw. cbn. rewrite I. reflexivity. }
        rewrite H0 in Hb. injection Hb as <-. rewrite (Inv i false H0). reflexivity.
      * rewrite bool_decide_eq_false_2 by exact Hne. apply (Inv i b Hb).
Qed.

(** X15. Each render thread asks for the renderer name exactly once.  In
    every state that an execution reaches after the setup of [main], the
    number of [glGetString(GL_RENDERER)] calls that the thread of record [i]
    has made is 1 if the record's [Initialized] flag is set and 0 if not:
    the first pass of [draw_loop] through [glXMakeCurrent] makes the call
    and sets the flag, no later pass repeats it, and nothing else writes the
    flag or makes the call for that thread. *)
Theorem renderer_queried_once (a : answers) (argv : list string) (d : Z) (s : state)
    (ls : list label) (y : system) (i : nat) (w : wt.winthread) :
  snd (main_setup a argv) = Continue (d, s) ->
  run ls (boot d s) = Some y ->
  WinThreads (shared y) !! i = Some w ->
  queries i (log y) = if wt.Initialized w then 1%nat else 0%nat.
Proof.
  intros Hs Hrun Hw.
  destruct (main_setup_Continue _ _ _ _ Hs) as (c & ops & ws & Hc & _ & _ & Hc' & ->).
  destruct (create_windows_records _ _ _ _ _ _ _ _ _ Hc' eq_refl) as (A & _ & _).
  cbn [app] in A.
  set (g := cl_globals c) in *.
  assert (H : roles_inv g y /\ init_inv y).
  { eapply (run_invariant (fun y => roles_inv g y /\ init_inv y)); [| |exact Hrun].
    - intros l y1 y2 [R I] St.
      destruct (roles_inv_step g l y1 y2 R St) as (R' & K & _).
      split; [exact R'|]. eapply init_inv_step; eassumption.
    - split; [apply initial_roles_inv|]. intros k b Hb.
      unfold initialized in Hb. cbn [boot shared initial_state WinThreads] in Hb.
      rewrite A, <- list_fmap_compose, list_lookup_fmap in Hb.
      destruct (seq 0 _ !! k); [|discriminate Hb]. injection Hb as <-. reflexivity. }
  destruct H as [_ I]. apply I. unfold initialized. rewrite list_lookup_fmap, Hw. reflexivity.
Qed.

Lemma renderer_queried_once_witness :
  exists y w, run two_frames_schedule (boot 1000 (setup_state ["glthreads"])) = Some y
    /\ WinThreads (shared y) !! 0%nat = Some w
    /\ wt.Initialized w = true
    /\ queries 0 (log y) = 1%nat.
Proof.
  destruct (run two_frames_schedule (boot 1000 (setup_state ["glthreads"])))
    as [y|] eqn:E; [|vm_compute in E; discriminate].
  destruct (WinThreads (shared y) !! 0%nat) as [w|] eqn:Hw;
    [|vm_compute in E; injection E as <-; discriminate Hw].
  exists y, w. split; [reflexivity|]. split; [exact Hw|].
  pose proof (renderer_queried_once ok_answers ["glthreads"] 1000 (setup_state ["glthreads"])
                two_frames_schedule y 0 w eq_refl E Hw) as Q.
  assert (I : wt.Initialized w = true).
  { vm_compute in E. injection E as <-. cbn in Hw. injection Hw as <-. reflexivity. }
  rewrite I in Q. split; [exact I|exact Q].
Defined.
